(** * BlackRoad sensor dashboard: ingestion, thresholds, anomalies, alerts

    A shallow embedding of [sensor_dashboard.py].  The SQLite database is a
    record of three tables (lists of rows in rowid order); every method of
    [SensorDashboard] is a computation in a state-and-exception monad over
    that record.  Python floats are Rocq's primitive binary64 floats, so
    [+], [<], [>], [==], [abs] and [/] are the very operations the
    interpreter performs.

    What the program obtains from its runtime is gathered in [Runtime]:
    the values [uuid.uuid4()] and [datetime.now(timezone.utc)] return, the
    [statistics] module, [round] and float formatting.  Timestamps are kept
    as integers (microseconds); the program stores their ISO-8601 text in
    UTC, whose lexicographic order is the chronological one; they count
    from [datetime.min], so that the range of [datetime] and of
    [timedelta] is that of the interpreter.  A float that went through a
    [REAL] column comes back as SQLite returns it ([sql_real]). *)

From Stdlib Require Import List String Ascii ZArith Lia Bool Floats.
From Stdlib Require Import Sorting.Sorted Sorting.Permutation.
From Stdlib Require Import DecimalString.
From Stdlib Require QArith Qabs Qpower Qring.
From Stdlib Require Import Setoid.
Import ListNotations.

Local Open Scope string_scope.
Local Open Scope list_scope.

(** ** Binary64 comparisons, as the program writes them *)

Module F64.

Definition lt (x y : float) : bool := PrimFloat.ltb x y.
Definition gt (x y : float) : bool := PrimFloat.ltb y x.
Definition le (x y : float) : bool := PrimFloat.leb x y.
Definition eq (x y : float) : bool := PrimFloat.eqb x y.

End F64.

(** ** Floats in the database

    A float bound to a [REAL] column and read back.  SQLite keeps a real
    number that is an integer as an integer, so the sign of a zero is
    lost: [-0.0] comes back as [0.0].  Every other number, the infinities
    included, comes back as it was; a NaN is bound as [NULL] and never
    gets into a [NOT NULL] column. *)
Definition sql_real (x : float) : float :=
  if PrimFloat.eqb x 0%float then 0%float else x.

(** ** Enumerations (the [str]-backed [Enum] classes)

    [Cls(text)] raises [ValueError] when [text] is not the value of a
    member; the functions [_of_string] below return [None] there and
    [enum] turns it into the exception. *)

Inductive SensorType :=
  TEMPERATURE | HUMIDITY | PRESSURE | CO2 | LIGHT | MOTION | POWER.

Inductive ReadingQuality := GOOD | DEGRADED | ERROR.

Inductive AlertType := THRESHOLD | ANOMALY | OFFLINE.

Inductive AlertSeverity := INFO | WARNING | CRITICAL.

Definition SensorType_of_string (s : string) : option SensorType :=
  if s =? "temperature" then Some TEMPERATURE
  else if s =? "humidity" then Some HUMIDITY
  else if s =? "pressure" then Some PRESSURE
  else if s =? "co2" then Some CO2
  else if s =? "light" then Some LIGHT
  else if s =? "motion" then Some MOTION
  else if s =? "power" then Some POWER
  else None.

Definition ReadingQuality_of_string (s : string) : option ReadingQuality :=
  if s =? "good" then Some GOOD
  else if s =? "degraded" then Some DEGRADED
  else if s =? "error" then Some ERROR
  else None.

Definition ReadingQuality_value (q : ReadingQuality) : string :=
  match q with GOOD => "good" | DEGRADED => "degraded" | ERROR => "error" end.

Definition SensorType_value (t : SensorType) : string :=
  match t with
  | TEMPERATURE => "temperature" | HUMIDITY => "humidity"
  | PRESSURE => "pressure" | CO2 => "co2" | LIGHT => "light"
  | MOTION => "motion" | POWER => "power"
  end.

Definition SensorType_eqb (a b : SensorType) : bool :=
  match a, b with
  | TEMPERATURE, TEMPERATURE | HUMIDITY, HUMIDITY | PRESSURE, PRESSURE
  | CO2, CO2 | LIGHT, LIGHT | MOTION, MOTION | POWER, POWER => true
  | _, _ => false
  end.

Definition is_error (q : ReadingQuality) : bool :=
  match q with ERROR => true | _ => false end.

Definition AlertType_eqb (a b : AlertType) : bool :=
  match a, b with
  | THRESHOLD, THRESHOLD | ANOMALY, ANOMALY | OFFLINE, OFFLINE => true
  | _, _ => false
  end.

(** [DEFAULT_THRESHOLDS]: the per-type default operating range. *)
Definition DEFAULT_THRESHOLDS : list (SensorType * (float * float)) :=
  [ (TEMPERATURE, (-40.0, 85.0));
    (HUMIDITY, (0.0, 100.0));
    (PRESSURE, (870.0, 1084.0));
    (CO2, (400.0, 5000.0));
    (LIGHT, (0.0, 100000.0));
    (MOTION, (0.0, 1.0));
    (POWER, (0.0, 10000.0)) ]%float.

(** [dict.get(key, default)] on the table above. *)
Fixpoint dict_get (d : list (SensorType * (float * float))) (k : SensorType)
    (default : float * float) : float * float :=
  match d with
  | [] => default
  | (k', v) :: d' => if SensorType_eqb k' k then v else dict_get d' k default
  end.

(** ** Rows (the three dataclasses; [from_row] is the identity here)

    [as_stored] is the row as the database returns it once its floats
    went through their [REAL] columns. *)

Module Sensor.
Record t := mk {
  id : string; device_id : string; type : SensorType; unit : string;
  min_value : float; max_value : float; calibration_offset : float;
  name : option string; location : option string }.

Definition with_calibration_offset (s : t) (offset : float) : t :=
  mk (id s) (device_id s) (type s) (unit s) (min_value s) (max_value s)
     offset (name s) (location s).

Definition as_stored (s : t) : t :=
  mk (id s) (device_id s) (type s) (unit s) (sql_real (min_value s))
     (sql_real (max_value s)) (sql_real (calibration_offset s))
     (name s) (location s).
End Sensor.

Module Reading.
Record t := mk {
  id : string; sensor_id : string; raw_value : float;
  calibrated_value : float; timestamp : Z; quality : ReadingQuality }.

Definition as_stored (r : t) : t :=
  mk (id r) (sensor_id r) (sql_real (raw_value r))
     (sql_real (calibrated_value r)) (timestamp r) (quality r).
End Reading.

Module Alert.
Record t := mk {
  id : string; sensor_id : string; type : AlertType;
  severity : AlertSeverity; message : string; triggered_at : Z;
  resolved_at : option Z }.

(** The [is_active] property. *)
Definition is_active (a : t) : bool :=
  match resolved_at a with None => true | Some _ => false end.

Definition with_resolved_at (a : t) (now : Z) : t :=
  mk (id a) (sensor_id a) (type a) (severity a) (message a)
     (triggered_at a) (Some now).
End Alert.

(** ** Exceptions and results *)

Inductive Exc :=
| ValueError (msg : string)
| IntegrityError (msg : string)
| StatisticsError (msg : string)
| AttributeError (msg : string)
| OverflowError (msg : string).

Inductive result (A : Type) :=
| Ok (a : A)
| Raise (e : Exc).
Arguments Ok {A} a.
Arguments Raise {A} e.

(** ** What the interpreter and its libraries supply *)

Record Runtime := {
  (** the n-th value [str(uuid.uuid4())] returns *)
  uuid_at : nat -> string;
  (** the n-th value [datetime.now(timezone.utc)] returns, in microseconds
      from [datetime.min] *)
  now_at : nat -> Z;
  (** [repr] of a string, with which [Enum] prints a value it rejects *)
  repr_str : string -> string;
  (** [statistics.mean] and [statistics.stdev] (the sample standard
      deviation, with n-1 degrees of freedom): what they return, or the
      exception they raise *)
  statistics_mean : list float -> result float;
  statistics_stdev : list float -> result float;
  (** [round(x, 4)] *)
  round4 : float -> float;
  (** the formats [:.3f] and [:.2f], and [str] of a float *)
  format_3f : float -> string;
  format_2f : float -> string;
  float_str : float -> string }.

(** ** The database and the monad of the methods *)

Record World := {
  sensors : list Sensor.t;
  readings : list Reading.t;
  alerts : list Alert.t;
  (** how many uuids and clock values have been consumed so far *)
  uuid_draws : nat;
  clock_reads : nat }.

(** A method takes the world to a new world and a value or an exception;
    what earlier transactions committed stays committed when a later step
    raises. *)
Definition M (A : Type) : Type := World -> World * result A.

Definition ret {A} (a : A) : M A := fun w => (w, Ok a).

Definition raise {A} (e : Exc) : M A := fun w => (w, Raise e).

(** The outcome of a call that does not touch the database. *)
Definition call {A} (r : result A) : M A := fun w => (w, r).

Definition bind {A B} (c : M A) (k : A -> M B) : M B :=
  fun w =>
    match c w with
    | (w', Ok a) => k a w'
    | (w', Raise e) => (w', Raise e)
    end.

Declare Scope py_scope.
Delimit Scope py_scope with py.
Notation "x <- c ;; k" := (bind c (fun x => k))
  (at level 61, c at next level, right associativity) : py_scope.
Notation "c ;;; k" := (bind c (fun _ => k))
  (at level 61, right associativity) : py_scope.
Local Open Scope py_scope.

Definition with_tables (w : World) (s : list Sensor.t) (r : list Reading.t)
    (a : list Alert.t) : World :=
  {| sensors := s; readings := r; alerts := a;
     uuid_draws := uuid_draws w; clock_reads := clock_reads w |}.

(** [with db_conn(...) as conn: body]: commit when the body ends, roll the
    tables back and re-raise when it raises. *)
Definition db_conn {A} (body : M A) : M A :=
  fun w =>
    match body w with
    | (w', Ok a) => (w', Ok a)
    | (w', Raise e) =>
        (with_tables w' (sensors w) (readings w) (alerts w), Raise e)
    end.

(** ** SQL statements

    Each definition is one statement of the program against the schema of
    [init_db]: [id] is the primary key of every table, the [REAL] columns
    are [NOT NULL] (SQLite binds a NaN as [NULL], so a NaN is refused), and
    [readings.sensor_id] and [alerts.sensor_id] reference [sensors(id)]
    with foreign keys switched on.  SQLite checks the [NOT NULL] columns
    in the order of the table, then the primary key, then, when the
    statement ends, the foreign key; its message names the column of a
    [NOT NULL] or [UNIQUE] failure. *)

Definition not_null_failed (column : string) : Exc :=
  IntegrityError ("NOT NULL constraint failed: " ++ column).
Definition unique_failed (column : string) : Exc :=
  IntegrityError ("UNIQUE constraint failed: " ++ column).
Definition foreign_key_failed : Exc :=
  IntegrityError "FOREIGN KEY constraint failed".

Definition sensor_exists (sid : string) (w : World) : bool :=
  existsb (fun s => Sensor.id s =? sid) (sensors w).

Definition reading_exists (rid : string) (w : World) : bool :=
  existsb (fun r => Reading.id r =? rid) (readings w).

Definition alert_exists (aid : string) (w : World) : bool :=
  existsb (fun a => Alert.id a =? aid) (alerts w).

(** INSERT INTO sensors (...) VALUES (...) *)
Definition insert_sensor (s : Sensor.t) : M unit :=
  fun w =>
    if is_nan (Sensor.min_value s)
    then (w, Raise (not_null_failed "sensors.min_value"))
    else if is_nan (Sensor.max_value s)
    then (w, Raise (not_null_failed "sensors.max_value"))
    else if is_nan (Sensor.calibration_offset s)
    then (w, Raise (not_null_failed "sensors.calibration_offset"))
    else if sensor_exists (Sensor.id s) w
    then (w, Raise (unique_failed "sensors.id"))
    else (with_tables w (sensors w ++ [Sensor.as_stored s]) (readings w)
            (alerts w), Ok tt).

(** SELECT * FROM sensors WHERE id=?  -- fetchone() *)
Definition select_sensor (sid : string) : M (option Sensor.t) :=
  fun w => (w, Ok (find (fun s => Sensor.id s =? sid) (sensors w))).

(** UPDATE sensors SET calibration_offset=? WHERE id=? *)
Definition update_sensor_offset (offset : float) (sid : string) : M unit :=
  fun w =>
    if sensor_exists sid w && is_nan offset
    then (w, Raise (not_null_failed "sensors.calibration_offset"))
    else
      (with_tables w
         (map (fun s => if Sensor.id s =? sid
                        then Sensor.with_calibration_offset s
                               (sql_real offset)
                        else s)
              (sensors w))
         (readings w) (alerts w), Ok tt).

(** INSERT INTO readings (...) VALUES (...) *)
Definition insert_reading (r : Reading.t) : M unit :=
  fun w =>
    if is_nan (Reading.raw_value r)
    then (w, Raise (not_null_failed "readings.raw_value"))
    else if is_nan (Reading.calibrated_value r)
    then (w, Raise (not_null_failed "readings.calibrated_value"))
    else if reading_exists (Reading.id r) w
    then (w, Raise (unique_failed "readings.id"))
    else if negb (sensor_exists (Reading.sensor_id r) w)
    then (w, Raise foreign_key_failed)
    else (with_tables w (sensors w) (readings w ++ [Reading.as_stored r])
            (alerts w), Ok tt).

(** The row of the greatest timestamp among [rows]; of several rows with
    that timestamp the one inserted last, which is the row SQLite reaches
    first when it walks [idx_readings_sensor] backwards. *)
Definition latest_row (rows : list Reading.t) : option Reading.t :=
  fold_left
    (fun best r =>
       match best with
       | None => Some r
       | Some b =>
           if (Reading.timestamp b <=? Reading.timestamp r)%Z
           then Some r else Some b
       end)
    rows None.

(** SELECT * FROM readings WHERE sensor_id=?
    ORDER BY timestamp DESC LIMIT 1  -- fetchone() *)
Definition select_current (sid : string) : M (option Reading.t) :=
  fun w =>
    (w, Ok (latest_row
              (filter (fun r => Reading.sensor_id r =? sid) (readings w)))).

(** ORDER BY timestamp: ascending, rows of equal timestamp in rowid
    order. *)
Fixpoint insert_by_timestamp (r : Reading.t) (l : list Reading.t)
    : list Reading.t :=
  match l with
  | [] => [r]
  | x :: l' =>
      if (Reading.timestamp r <=? Reading.timestamp x)%Z
      then r :: l else x :: insert_by_timestamp r l'
  end.

Definition order_by_timestamp (rows : list Reading.t) : list Reading.t :=
  fold_right insert_by_timestamp [] rows.

(** SELECT * FROM readings WHERE sensor_id=? AND timestamp >= ?
    [AND quality=?] ORDER BY timestamp *)
Definition select_history (sid : string) (since : Z)
    (quality_filter : option string) : M (list Reading.t) :=
  fun w =>
    (w, Ok (order_by_timestamp
              (filter
                 (fun r =>
                    (Reading.sensor_id r =? sid)
                    && (since <=? Reading.timestamp r)%Z
                    && match quality_filter with
                       | Some q => ReadingQuality_value (Reading.quality r) =? q
                       | None => true
                       end)
                 (readings w)))).

(** The rows selected by
    WHERE sensor_id=? AND timestamp >= ? AND quality != 'error' *)
Definition qualifying (sid : string) (since : Z) (r : Reading.t) : bool :=
  (Reading.sensor_id r =? sid)
  && (since <=? Reading.timestamp r)%Z
  && negb (is_error (Reading.quality r)).

(** SELECT calibrated_value FROM readings
    WHERE sensor_id=? AND timestamp >= ? AND quality != 'error'
    ORDER BY timestamp *)
Definition select_qualifying_values (sid : string) (since : Z)
    : M (list float) :=
  fun w =>
    (w, Ok (map Reading.calibrated_value
              (order_by_timestamp (filter (qualifying sid since) (readings w))))).

(** INSERT INTO alerts (id,sensor_id,type,severity,message,triggered_at)
    VALUES (...)  -- resolved_at is NULL *)
Definition insert_alert (a : Alert.t) : M unit :=
  fun w =>
    if alert_exists (Alert.id a) w then (w, Raise (unique_failed "alerts.id"))
    else if negb (sensor_exists (Alert.sensor_id a) w)
    then (w, Raise foreign_key_failed)
    else (with_tables w (sensors w) (readings w) (alerts w ++ [a]), Ok tt).

(** UPDATE alerts SET resolved_at=? WHERE id=? *)
Definition update_alert_resolved (now : Z) (aid : string) : M unit :=
  fun w =>
    (with_tables w (sensors w) (readings w)
       (map (fun a => if Alert.id a =? aid
                      then Alert.with_resolved_at a now else a)
            (alerts w)), Ok tt).

(** SELECT * FROM alerts WHERE id=?  -- fetchone() *)
Definition select_alert (aid : string) : M (option Alert.t) :=
  fun w => (w, Ok (find (fun a => Alert.id a =? aid) (alerts w))).

(** ** The methods of [SensorDashboard] *)

(** The [stats] dictionary of [get_stats]. *)
Record Stats := {
  count : nat; min : option float; max : option float;
  avg : option float; stddev : option float }.

(** One element of the argument of [batch_log]: the keys [sensor_id] and
    [value], and the optional key [quality]. *)
Record Entry := {
  entry_sensor_id : string; entry_value : float;
  entry_quality : option string }.

(** The builtins [min] and [max] on a non-empty list of floats: the first
    element is replaced by a later one only when that one compares
    strictly smaller (greater). *)
Definition py_min (x : float) (xs : list float) : float :=
  fold_left (fun m y => if F64.lt y m then y else m) xs x.

Definition py_max (x : float) (xs : list float) : float :=
  fold_left (fun m y => if F64.gt y m then y else m) xs x.

(** ** Dates

    [DATETIME_MAX] is [datetime.max], 9999-12-31T23:59:59.999999, in
    microseconds from [datetime.min]. *)
Definition DATETIME_MAX : Z := 315537897599999999.

(** [now - timedelta(unit=amount)] for a unit of [unit_us] microseconds
    and an integer [amount], as CPython evaluates it.  [timedelta] splits
    the microseconds into days and a rest; the days must fit a C [int],
    then be at most 999999999 in magnitude; the difference must be a
    [datetime].  Each failure is an [OverflowError]. *)
Definition minus_timedelta (now amount unit_us : Z) : result Z :=
  let us := (amount * unit_us)%Z in
  let days := (us / 86400000000)%Z in
  if (days <? -2147483648)%Z || (2147483647 <? days)%Z
  then Raise (OverflowError "Python int too large to convert to C int")
  else if (days <? -999999999)%Z || (999999999 <? days)%Z
  then Raise (OverflowError
                ("days=" ++ NilZero.string_of_int (Z.to_int days)
                 ++ "; must have magnitude <= 999999999"))
  else if (now - us <? 0)%Z || (DATETIME_MAX <? now - us)%Z
  then Raise (OverflowError "date value out of range")
  else Ok (now - us)%Z.

Section Dashboard.

Context (rt : Runtime).

(** [str(uuid.uuid4())] *)
Definition uuid4 : M string :=
  fun w =>
    ({| sensors := sensors w; readings := readings w; alerts := alerts w;
        uuid_draws := S (uuid_draws w); clock_reads := clock_reads w |},
     Ok (uuid_at rt (uuid_draws w))).

(** [datetime.now(timezone.utc)] *)
Definition utcnow : M Z :=
  fun w =>
    ({| sensors := sensors w; readings := readings w; alerts := alerts w;
        uuid_draws := uuid_draws w; clock_reads := S (clock_reads w) |},
     Ok (now_at rt (clock_reads w))).

(** [Cls(text)] for an enumeration [Cls] of name [cls_name]. *)
Definition enum {A} (cls : string -> option A) (cls_name text : string)
    : M A :=
  match cls text with
  | Some v => ret v
  | None =>
      raise (ValueError (repr_str rt text ++ " is not a valid " ++ cls_name))
  end.

Definition get_sensor (sensor_id : string) : M Sensor.t :=
  row <- db_conn (select_sensor sensor_id) ;;
  match row with
  | None => raise (ValueError ("Sensor not found: " ++ sensor_id))
  | Some s => ret s
  end.

Definition add_sensor (device_id sensor_type unit : string)
    (min_value max_value : option float) (calibration_offset : float)
    (name location : option string) : M Sensor.t :=
  stype <- enum SensorType_of_string "SensorType" sensor_type ;;
  let defaults := dict_get DEFAULT_THRESHOLDS stype (-999.0, 999.0)%float in
  let min_val := match min_value with Some v => v | None => fst defaults end in
  let max_val := match max_value with Some v => v | None => snd defaults end in
  sensor_id <- uuid4 ;;
  db_conn (insert_sensor
             (Sensor.mk sensor_id device_id stype unit min_val max_val
                        calibration_offset name location)) ;;;
  get_sensor sensor_id.

Definition update_calibration (sensor_id : string) (offset : float)
    : M Sensor.t :=
  db_conn (update_sensor_offset offset sensor_id) ;;;
  get_sensor sensor_id.

Definition get_current (sensor_id : string) : M (option Reading.t) :=
  db_conn (select_current sensor_id).

Definition _create_alert (sensor_id : string) (alert_type : AlertType)
    (severity : AlertSeverity) (message : string) : M Alert.t :=
  aid <- uuid4 ;;
  now <- utcnow ;;
  db_conn (insert_alert
             (Alert.mk aid sensor_id alert_type severity message now None)) ;;;
  ret (Alert.mk aid sensor_id alert_type severity message now None).

Definition check_thresholds (sensor_id : string) : M (option Alert.t) :=
  reading <- get_current sensor_id ;;
  match reading with
  | None => ret None
  | Some reading =>
      sensor <- get_sensor sensor_id ;;
      let val := Reading.calibrated_value reading in
      if F64.lt val (Sensor.min_value sensor) then
        a <- _create_alert sensor_id THRESHOLD CRITICAL
               ("Value " ++ format_3f rt val ++ " below minimum "
                ++ float_str rt (Sensor.min_value sensor)) ;;
        ret (Some a)
      else if F64.gt val (Sensor.max_value sensor) then
        a <- _create_alert sensor_id THRESHOLD CRITICAL
               ("Value " ++ format_3f rt val ++ " above maximum "
                ++ float_str rt (Sensor.max_value sensor)) ;;
        ret (Some a)
      else ret None
  end.

Definition log_reading (sensor_id : string) (value : float)
    (quality : string) : M Reading.t :=
  sensor <- get_sensor sensor_id ;;
  let calibrated := (value + Sensor.calibration_offset sensor)%float in
  q <- enum ReadingQuality_of_string "ReadingQuality" quality ;;
  rid <- uuid4 ;;
  now <- utcnow ;;
  db_conn (insert_reading
             (Reading.mk rid sensor_id value calibrated now q)) ;;;
  check_thresholds sensor_id ;;;
  ret (Reading.mk rid sensor_id value calibrated now q).

(** [quality_filter] is used only when it is a non-empty string. *)
Definition get_history (sensor_id : string) (hours : Z)
    (quality_filter : option string) : M (list Reading.t) :=
  now <- utcnow ;;
  since <- call (minus_timedelta now hours 3600000000) ;;
  db_conn (select_history sensor_id since
             match quality_filter with
             | Some EmptyString => None
             | f => f
             end).

Definition get_stats (sensor_id : string) (hours : Z) : M Stats :=
  readings <- get_history sensor_id hours None ;;
  let values :=
    map Reading.calibrated_value
        (filter (fun r => negb (is_error (Reading.quality r))) readings) in
  match values with
  | [] => ret {| count := 0; min := None; max := None;
                 avg := None; stddev := None |}
  | v :: vs =>
      mean <- call (statistics_mean rt values) ;;
      stdev <- (if (1 <? List.length values)%nat
                then call (statistics_stdev rt values) else ret 0%float) ;;
      ret {| count := List.length values;
             min := Some (py_min v vs); max := Some (py_max v vs);
             avg := Some (round4 rt mean); stddev := Some (round4 rt stdev) |}
  end.

Fixpoint batch_log (entries : list Entry) : M (list Reading.t) :=
  match entries with
  | [] => ret []
  | e :: entries' =>
      r <- log_reading (entry_sensor_id e) (entry_value e)
             match entry_quality e with Some q => q | None => "good" end ;;
      rs <- batch_log entries' ;;
      ret (r :: rs)
  end.

Definition detect_anomaly (sensor_id : string) (window : Z)
    (z_threshold : float) : M (option Alert.t) :=
  now <- utcnow ;;
  since <- call (minus_timedelta now window 60000000) ;;
  values <- db_conn (select_qualifying_values sensor_id since) ;;
  if (List.length values <? 5)%nat then ret None
  else
    mean <- call (statistics_mean rt values) ;;
    stdev <- call (statistics_stdev rt values) ;;
    if F64.eq stdev 0%float then ret None
    else
      let latest := last values 0%float in
      let z := abs ((latest - mean) / stdev)%float in
      if F64.gt z z_threshold then
        let sev := if F64.gt z (z_threshold * 1.5)%float
                   then CRITICAL else WARNING in
        a <- _create_alert sensor_id ANOMALY sev
               ("Anomaly: value=" ++ format_3f rt latest
                ++ " z=" ++ format_2f rt z
                ++ " (mean=" ++ format_3f rt mean
                ++ " std=" ++ format_3f rt stdev ++ ")") ;;
        ret (Some a)
      else ret None.

Definition resolve_alert (alert_id : string) : M Alert.t :=
  now <- utcnow ;;
  row <- db_conn (update_alert_resolved now alert_id ;;;
                  select_alert alert_id) ;;
  match row with
  | None => raise (ValueError ("Alert not found: " ++ alert_id))
  | Some a => ret a
  end.

Definition mark_sensor_offline (sensor_id : string) : M Alert.t :=
  _create_alert sensor_id OFFLINE WARNING
    ("Sensor " ++ sensor_id ++ " appears offline").

End Dashboard.

(** ** Listings and the dashboard *)

(** SELECT * FROM sensors WHERE 1=1 [AND device_id=?]  -- fetchall();
    without ORDER BY the table is scanned in rowid order. *)
Definition select_sensors (device_id : option string) : M (list Sensor.t) :=
  fun w =>
    (w, Ok (filter
              (fun s => match device_id with
                        | Some d => Sensor.device_id s =? d
                        | None => true
                        end)
              (sensors w))).

(** ORDER BY triggered_at DESC: descending, rows of equal [triggered_at]
    in rowid order. *)
Fixpoint insert_by_triggered_desc (a : Alert.t) (l : list Alert.t)
    : list Alert.t :=
  match l with
  | [] => [a]
  | x :: l' =>
      if (Alert.triggered_at x <=? Alert.triggered_at a)%Z
      then a :: l else x :: insert_by_triggered_desc a l'
  end.

Definition order_by_triggered_desc (rows : list Alert.t) : list Alert.t :=
  fold_right insert_by_triggered_desc [] rows.

(** SELECT * FROM alerts WHERE resolved_at IS NULL
    ORDER BY triggered_at DESC *)
Definition select_active_alerts : M (list Alert.t) :=
  fun w =>
    (w, Ok (order_by_triggered_desc (filter Alert.is_active (alerts w)))).

(** SELECT * FROM alerts ORDER BY triggered_at DESC *)
Definition select_all_alerts : M (list Alert.t) :=
  fun w => (w, Ok (order_by_triggered_desc (alerts w))).

(** One element of the list under the key [sensors] of the dashboard. *)
Module Summary.
Record t := mk {
  sensor_id : string; name : string; type : SensorType; unit : string;
  location : option string; current_value : option float;
  current_quality : option ReadingQuality; last_reading_at : option Z;
  stats_1h : Stats; alert_count : nat }.
End Summary.

(** The dictionary [get_dashboard_data] returns. *)
Module DashboardData.
Record t := mk {
  generated_at : Z; total_sensors : nat; active_alerts : nat;
  critical_alerts : nat; sensors : list Summary.t; alerts : list Alert.t }.
End DashboardData.

Definition is_critical (a : Alert.t) : bool :=
  match Alert.severity a with CRITICAL => true | _ => false end.

(** [device_id] is used only when it is a non-empty string. *)
Definition list_sensors (device_id : option string) : M (list Sensor.t) :=
  db_conn (select_sensors
             match device_id with
             | Some EmptyString => None
             | d => d
             end).

Definition get_active_alerts : M (list Alert.t) :=
  db_conn select_active_alerts.

Definition get_all_alerts : M (list Alert.t) :=
  db_conn select_all_alerts.

Section Reporting.

Context (rt : Runtime).

(** The body of the loop of [get_dashboard_data] for the sensor [s];
    [s.name or s.id[:8]] is the name unless it is missing or empty. *)
Definition summarize (active_alerts : list Alert.t) (s : Sensor.t)
    : M Summary.t :=
  current <- get_current (Sensor.id s) ;;
  stats <- get_stats rt (Sensor.id s) 1 ;;
  ret (Summary.mk
         (Sensor.id s)
         match Sensor.name s with
         | None | Some EmptyString => substring 0 8 (Sensor.id s)
         | Some n => n
         end
         (Sensor.type s) (Sensor.unit s) (Sensor.location s)
         (option_map Reading.calibrated_value current)
         (option_map Reading.quality current)
         (option_map Reading.timestamp current)
         stats
         (List.length
            (filter (fun a => Alert.sensor_id a =? Sensor.id s)
                    active_alerts))).

Fixpoint summarize_all (active_alerts : list Alert.t)
    (sensors : list Sensor.t) : M (list Summary.t) :=
  match sensors with
  | [] => ret []
  | s :: sensors' =>
      x <- summarize active_alerts s ;;
      xs <- summarize_all active_alerts sensors' ;;
      ret (x :: xs)
  end.

Definition get_dashboard_data : M DashboardData.t :=
  sensors <- list_sensors None ;;
  active_alerts <- get_active_alerts ;;
  summaries <- summarize_all active_alerts sensors ;;
  now <- utcnow rt ;;
  ret (DashboardData.mk now (List.length sensors)
         (List.length active_alerts)
         (List.length (filter is_critical active_alerts))
         summaries active_alerts).

End Reporting.

(** ** A runtime for the examples

    Any runtime will do for the theorems below.  This one numbers the
    uuids in unary, reads the clock as a counter of microseconds that
    starts with the year 2024, and evaluates the statistics in binary64
    with the textbook formulas (the sample standard deviation divides by
    n-1).  Its [repr] puts a string between single quotes, which is what
    Python prints for the strings of the examples (letters only). *)

Module Demo.

Fixpoint uuid (n : nat) : string :=
  match n with
  | O => "id"
  | S k => String "'" (uuid k)
  end.

Definition fcount (xs : list float) : float :=
  fold_left (fun c _ => c + 1)%float xs 0%float.

Definition fsum (xs : list float) : float :=
  fold_left (fun s x => s + x)%float xs 0%float.

Definition mean (xs : list float) : result float :=
  match xs with
  | [] => Raise (StatisticsError "mean requires at least one data point")
  | _ => Ok (fsum xs / fcount xs)%float
  end.

Definition stdev (xs : list float) : result float :=
  match xs with
  | [] | [_] =>
      Raise (StatisticsError "stdev requires at least two data points")
  | _ =>
      let m := (fsum xs / fcount xs)%float in
      Ok (sqrt (fsum (map (fun x => (x - m) * (x - m))%float xs)
                / (fcount xs - 1)))%float
  end.

(** 2024-01-01T00:00:00 *)
Definition t0 : Z := 63839664000000000.

Definition repr (s : string) : string := "'" ++ s ++ "'".

Definition runtime : Runtime :=
  {| uuid_at := uuid;
     now_at := fun n => (t0 + Z.of_nat n)%Z;
     repr_str := repr;
     statistics_mean := mean;
     statistics_stdev := stdev;
     round4 := fun x => x;
     format_3f := fun _ => "#.###";
     format_2f := fun _ => "#.##";
     float_str := fun _ => "#" |}.

Definition empty : World :=
  {| sensors := []; readings := []; alerts := [];
     uuid_draws := 0; clock_reads := 0 |}.

(** Run a method and keep the world it leaves. *)
Definition exec {A} (c : M A) (w : World) : World := fst (c w).

(** A world with one temperature sensor of range [0, 40], id [uuid 0]. *)
Definition one_sensor : World :=
  exec (add_sensor runtime "dev-3" "temperature" "C"
          (Some 0%float) (Some 40%float) 0%float None None) empty.

(** The same world after 50.0 was ingested: one reading, and one active
    threshold alert of id [uuid 2]. *)
Definition one_alert : World :=
exec (log_reading runtime (uuid 0) 50%float "good") one_sensor.

(** And after that alert was resolved, at time 2. *)
Definition one_resolved : World :=
exec (resolve_alert runtime (uuid 2)) one_alert.

(** The sensor of the test suite: a temperature sensor with the default
    range [-40, 85], id [uuid 0]. *)
Definition room : World :=
exec (add_sensor runtime "dev-1" "temperature" "C" None None 0%float
        (Some "Room Temp") (Some "Office")) empty.

Definition entry (v : float) : Entry :=
{| entry_sensor_id := uuid 0; entry_value := v; entry_quality := None |}.

(** Ten readings of 22.0, then 100.0. *)
Definition spiked : World :=
exec (batch_log runtime (repeat (entry 22%float) 10 ++ [entry 100%float])) room.

(** Five readings close to 22. *)
Definition steady : World :=
exec (batch_log runtime
        (map entry [22; 22.125; 22.25; 22; 21.875]%float)) room.

(** Five readings of 22.0, and two readings only. *)
Definition flat : World :=
exec (batch_log runtime (repeat (entry 22%float) 5)) room.

Definition few : World :=
exec (batch_log runtime (map entry [22; 23]%float)) room.

(** Readings of 10, 20 and 30, and a reading of 1000 of quality "error". *)
Definition with_error : World :=
exec (batch_log runtime
        (map entry [10; 20; 30]%float
         ++ [{| entry_sensor_id := uuid 0; entry_value := 1000%float;
                entry_quality := Some "error" |}])) room.

(** The same runtime with a clock that is set back: its third value is
    earlier than the first two. *)
Definition clock_set_back : Runtime :=
{| uuid_at := uuid;
   now_at := fun n => match n with 2 => t0 | _ => (t0 + 10)%Z end;
   repr_str := repr;
   statistics_mean := mean;
   statistics_stdev := stdev;
   round4 := fun x => x;
   format_3f := fun _ => "#.###";
   format_2f := fun _ => "#.##";
   float_str := fun _ => "#" |}.

(** The same runtime with a clock that is set back by ten microseconds
    after its first reading and runs on from there. *)
Definition clock_back_once : Runtime :=
{| uuid_at := uuid;
   now_at := fun n => match n with
                      | O => (t0 + 10)%Z
                      | S k => (t0 + Z.of_nat k)%Z
                      end;
   repr_str := repr;
   statistics_mean := mean;
   statistics_stdev := stdev;
   round4 := fun x => x;
   format_3f := fun _ => "#.###";
   format_2f := fun _ => "#.##";
   float_str := fun _ => "#" |}.

End Demo.

(** ** Vocabulary of the statements *)

(** The world after one reading of the clock. *)
Definition tick (w : World) : World :=
  {| sensors := sensors w; readings := readings w; alerts := alerts w;
     uuid_draws := uuid_draws w; clock_reads := S (clock_reads w) |}.

(** [s] is the row of [sensors] that [get_sensor sid] returns. *)
Definition registered (sid : string) (s : Sensor.t) (w : World) : Prop :=
  find (fun x => Sensor.id x =? sid) (sensors w) = Some s.

(** [a] is the row of [alerts] with the id [aid]. *)
Definition stored_alert (aid : string) (a : Alert.t) (w : World) : Prop :=
  find (fun x => Alert.id x =? aid) (alerts w) = Some a.

(** The alert [_create_alert] builds in [w]: the next uuid, the next value
    of the clock, not resolved. *)
Definition new_alert (rt : Runtime) (w : World) (sid : string)
    (ty : AlertType) (sev : AlertSeverity) (msg : string) : Alert.t :=
  Alert.mk (uuid_at rt (uuid_draws w)) sid ty sev msg
           (now_at rt (clock_reads w)) None.

(** The world once [a] was inserted by [_create_alert]. *)
Definition with_alert (w : World) (a : Alert.t) : World :=
  {| sensors := sensors w; readings := readings w;
     alerts := alerts w ++ [a];
     uuid_draws := S (uuid_draws w); clock_reads := S (clock_reads w) |}.

(** The reading [log_reading] builds in [w] for a sensor of calibration
    offset [offset]: the next uuid, the next value of the clock. *)
Definition new_reading (rt : Runtime) (w : World) (sid : string)
    (value offset : float) (q : ReadingQuality) : Reading.t :=
  Reading.mk (uuid_at rt (uuid_draws w)) sid value (value + offset)%float
             (now_at rt (clock_reads w)) q.

(** The world once [r] was inserted by [log_reading]. *)
Definition with_reading (w : World) (r : Reading.t) : World :=
  {| sensors := sensors w; readings := readings w ++ [r];
     alerts := alerts w;
     uuid_draws := S (uuid_draws w); clock_reads := S (clock_reads w) |}.

(** The clock has not gone back since the readings of [sid] were taken. *)
Definition clock_not_behind (rt : Runtime) (sid : string) (w : World) : Prop :=
  forall r, In r (readings w) -> Reading.sensor_id r = sid ->
    (Reading.timestamp r <= now_at rt (clock_reads w))%Z.

(** [uuid4] does not repeat itself, and what it will return from now on
    is the id of no stored reading or alert. *)
Definition uuids_fresh (rt : Runtime) (w : World) : Prop :=
  (forall i j, uuid_at rt i = uuid_at rt j -> i = j)
  /\ forall k, uuid_draws w <= k ->
       reading_exists (uuid_at rt k) w = false
       /\ alert_exists (uuid_at rt k) w = false.

(** The clock never goes back, and no stored reading is from the future. *)
Definition clock_steady (rt : Runtime) (w : World) : Prop :=
  (forall i j, i <= j -> (now_at rt i <= now_at rt j)%Z)
  /\ forall r, In r (readings w) ->
       (Reading.timestamp r <= now_at rt (clock_reads w))%Z.

(** A threshold alert as [check_thresholds] raises them. *)
Definition threshold_alert (sid : string) (a : Alert.t) : Prop :=
  Alert.type a = THRESHOLD /\ Alert.severity a = CRITICAL
  /\ Alert.sensor_id a = sid /\ Alert.is_active a = true.

(** From [w] to [w'] the alerts gained nothing, or one critical threshold
    alert of [sid] at their end. *)
Definition at_most_threshold_alert (sid : string) (w w' : World) : Prop :=
  alerts w' = alerts w
  \/ exists a, alerts w' = alerts w ++ [a] /\ threshold_alert sid a.

(** The same, when the sensors and the readings did not change either. *)
Definition threshold_step (sid : string) (w w' : World) : Prop :=
  sensors w' = sensors w /\ readings w' = readings w
  /\ at_most_threshold_alert sid w w'.

(** The message of a threshold alert for the value [val] on sensor [s]. *)
Definition threshold_message (rt : Runtime) (val : float) (s : Sensor.t)
    : string :=
  if F64.lt val (Sensor.min_value s)
  then "Value " ++ format_3f rt val ++ " below minimum "
       ++ float_str rt (Sensor.min_value s)
  else "Value " ++ format_3f rt val ++ " above maximum "
       ++ float_str rt (Sensor.max_value s).

(** The ids of the stored anomaly alerts, in rowid order. *)
Definition anomaly_ids (w : World) : list string :=
  map Alert.id
      (filter (fun a => AlertType_eqb (Alert.type a) ANOMALY) (alerts w)).

(** The database without its readings of quality "error". *)
Definition without_errors (w : World) : World :=
  {| sensors := sensors w;
     readings := filter (fun r => negb (is_error (Reading.quality r)))
                        (readings w);
     alerts := alerts w;
     uuid_draws := uuid_draws w; clock_reads := clock_reads w |}.

(** The start of the window of [detect_anomaly] when it is called in [w]. *)
Definition window_start (rt : Runtime) (w : World) (window : Z) : Z :=
  (now_at rt (clock_reads w) - window * 60000000)%Z.

(** The qualifying points of a sensor: its readings in the window whose
    quality is not "error", in rowid order. *)
Definition qualifying_rows (sid : string) (since : Z) (w : World)
    : list Reading.t :=
  filter (qualifying sid since) (readings w).

(** [r1] is not more recent than [r2]. *)
Definition not_after (r1 r2 : Reading.t) : Prop :=
  (Reading.timestamp r1 <= Reading.timestamp r2)%Z.

(** The message of an anomaly alert. *)
Definition anomaly_message (rt : Runtime) (latest z mean stdev : float)
    : string :=
  "Anomaly: value=" ++ format_3f rt latest ++ " z=" ++ format_2f rt z
  ++ " (mean=" ++ format_3f rt mean ++ " std=" ++ format_3f rt stdev ++ ")".

(** What [get_stats] returns once it has kept the list [values]. *)
Definition stats_of (rt : Runtime) (values : list float) : result Stats :=
  match values with
  | [] => Ok {| count := 0; min := None; max := None;
                avg := None; stddev := None |}
  | v :: vs =>
      match statistics_mean rt values with
      | Raise e => Raise e
      | Ok mean =>
          match (if (1 <? List.length values)%nat
                 then statistics_stdev rt values else Ok 0%float) with
          | Raise e => Raise e
          | Ok stdev =>
              Ok {| count := List.length values;
                    min := Some (py_min v vs); max := Some (py_max v vs);
                    avg := Some (round4 rt mean);
                    stddev := Some (round4 rt stdev) |}
          end
      end
  end.

(** The rows [get_stats] fetches when it is called in [w]: the readings
    of the sensor in the last [hours] hours. *)
Definition history_rows (rt : Runtime) (sid : string) (hours : Z) (w : World)
    : list Reading.t :=
  order_by_timestamp
    (filter (fun r => (Reading.sensor_id r =? sid)
                      && (now_at rt (clock_reads w) - hours * 3600000000
                          <=? Reading.timestamp r)%Z
                      && true)
            (readings w)).

(** ** Vocabulary of the further properties *)

(** The three tables of [w'] are those of [w]. *)
Definition same_tables (w w' : World) : Prop :=
  sensors w' = sensors w /\ readings w' = readings w
  /\ alerts w' = alerts w.

(** The method [c] keeps the property [P] of the database, whether it
    returns or raises. *)
Definition keeps {A} (P : World -> Prop) (c : M A) : Prop :=
  forall w, P w -> P (fst (c w)).

(** The constraints of the schema of [init_db]: primary keys, [NOT NULL]
    reals, foreign keys. *)
Definition sensor_row_ok (s : Sensor.t) : Prop :=
  is_nan (Sensor.min_value s) = false /\ is_nan (Sensor.max_value s) = false
  /\ is_nan (Sensor.calibration_offset s) = false.

Definition reading_row_ok (w : World) (r : Reading.t) : Prop :=
  is_nan (Reading.raw_value r) = false
  /\ is_nan (Reading.calibrated_value r) = false
  /\ sensor_exists (Reading.sensor_id r) w = true.

Definition alert_row_ok (w : World) (a : Alert.t) : Prop :=
  sensor_exists (Alert.sensor_id a) w = true.

Definition schema_ok (w : World) : Prop :=
  NoDup (map Sensor.id (sensors w))
  /\ NoDup (map Reading.id (readings w))
  /\ NoDup (map Alert.id (alerts w))
  /\ Forall sensor_row_ok (sensors w)
  /\ Forall (reading_row_ok w) (readings w)
  /\ Forall (alert_row_ok w) (alerts w).

(** No stored alert has the severity INFO. *)
Definition no_info_alert (w : World) : Prop :=
  Forall (fun a => Alert.severity a <> INFO) (alerts w).

(** [a1] was not triggered before [a2]. *)
Definition not_before (a1 a2 : Alert.t) : Prop :=
  (Alert.triggered_at a2 <= Alert.triggered_at a1)%Z.

(** The world after one uuid was drawn. *)
Definition drawn (w : World) : World :=
  {| sensors := sensors w; readings := readings w; alerts := alerts w;
     uuid_draws := S (uuid_draws w); clock_reads := clock_reads w |}.

(** What a method that may raise one alert has done when it leaves [p]
    from [w]: the sensors and the readings are untouched; an alert it
    returns meets [ok], is active and is the new last row of the alerts;
    when it returns none, or raises, the alerts are untouched as well. *)
Definition alert_outcome (ok : Alert.t -> Prop) (w : World)
    (p : World * result (option Alert.t)) : Prop :=
  sensors (fst p) = sensors w /\ readings (fst p) = readings w
  /\ match snd p with
     | Ok (Some a) =>
         alerts (fst p) = alerts w ++ [a]
         /\ Alert.is_active a = true /\ ok a
     | Ok None | Raise _ => alerts (fst p) = alerts w
     end.

(** The clock never goes back, no stored reading is from the future, and
    the readings are stored in the order of their timestamps. *)
Definition in_time_order (rt : Runtime) (w : World) : Prop :=
  clock_steady rt w /\ StronglySorted not_after (readings w).

(** [t] is a [datetime]: a time from 0001-01-01T00:00:00 to
    9999-12-31T23:59:59.999999. *)
Definition in_datetime_range (t : Z) : Prop := (0 <= t <= DATETIME_MAX)%Z.

(** The start of the window of [get_history] and [get_stats] when they
    are called in [w]. *)
Definition history_start (rt : Runtime) (w : World) (hours : Z) : Z :=
  (now_at rt (clock_reads w) - hours * 3600000000)%Z.

(** *** What the [statistics] module promises

    The exact value of a float, and the mean and the Bessel-corrected
    variance (the sum of the squared deviations from the mean, divided by
    n-1) of exact values.  [statistics.mean] and [statistics.stdev]
    compute in exact arithmetic and round at the end: the float they
    return is the exact mean, and the square root of the exact variance,
    up to one unit in the last place. *)
Module Exact.

Import QArith_base Qpower Qabs.

Definition Q_of_float (x : float) : option Q :=
  match Prim2SF x with
  | S754_zero _ => Some 0%Q
  | S754_finite s m e =>
      Some (inject_Z (if s then Zneg m else Zpos m) * Qpower 2 e)%Q
  | _ => None
  end.

Fixpoint exact_values (xs : list float) : option (list Q) :=
  match xs with
  | [] => Some []
  | x :: xs' =>
      match Q_of_float x, exact_values xs' with
      | Some q, Some qs => Some (q :: qs)
      | _, _ => None
      end
  end.

Definition Qsum (qs : list Q) : Q := fold_right Qplus 0%Q qs.

Definition exact_mean (qs : list Q) : Q :=
  (Qsum qs / inject_Z (Z.of_nat (List.length qs)))%Q.

Definition bessel_variance (qs : list Q) : Q :=
  (Qsum (map (fun q => (q - exact_mean qs) * (q - exact_mean qs)) qs)
   / inject_Z (Z.of_nat (List.length qs) - 1))%Q.

(** 2^-52, the relative distance of neighbouring binary64 numbers. *)
Definition rounding : Q := (1 # 4503599627370496)%Q.

Definition is_sample_mean (xs : list float) (m : float) : Prop :=
  exists qs mq,
    exact_values xs = Some qs /\ Q_of_float m = Some mq
    /\ (Qabs (mq - exact_mean qs) <= rounding * Qabs (exact_mean qs))%Q.

Definition is_sample_stdev (xs : list float) (s : float) : Prop :=
  exists qs sq,
    exact_values xs = Some qs /\ Q_of_float s = Some sq
    /\ (0 <= sq)%Q
    /\ ((1 - rounding) * (1 - rounding) * bessel_variance qs <= sq * sq)%Q
    /\ (sq * sq <= (1 + rounding) * (1 + rounding) * bessel_variance qs)%Q.

End Exact.

(** ** Binary64 facts used by the threshold and storage rules *)

Module F64Facts.

Import F64.

Lemma poscmp_refl (m : positive) : PosDef.Pos.compare_cont Eq m m = Eq.
Proof. induction m; simpl; auto. Qed.

Lemma poscmp_antisym (m n : positive) (c : comparison) :
  PosDef.Pos.compare_cont (CompOpp c) n m
  = CompOpp (PosDef.Pos.compare_cont c m n).
Proof.
  revert n c; induction m as [m IH | m IH |]; intros [n | n |] c; simpl;
    try reflexivity; try apply IH; apply (IH n Gt) || apply (IH n Lt).
Qed.

Lemma SFcompare_refl (x : spec_float) :
  x <> S754_nan -> SFcompare x x = Some Eq.
Proof.
  destruct x as [s | s | | s m e]; simpl; intros H;
    try congruence; try (destruct s; reflexivity).
  rewrite Z.compare_refl, poscmp_refl. destruct s; reflexivity.
Qed.

Lemma SFcompare_antisym (x y : spec_float) :
  SFcompare y x = option_map CompOpp (SFcompare x y).
Proof.
  destruct x as [s | s | | s m e], y as [t | t | | t n f]; simpl;
    try reflexivity; try (destruct s; reflexivity);
    try (destruct t; reflexivity); try (destruct s, t; reflexivity).
  rewrite (Z.compare_antisym e f).
  pose proof (poscmp_antisym m n Eq) as P; simpl in P.
  destruct s, t; simpl; try reflexivity;
    destruct (e ?= f)%Z; simpl; try reflexivity;
    rewrite P, ?CompOpp_involutive; reflexivity.
Qed.

Lemma is_nan_Prim2SF (x : float) :
  is_nan x = false <-> Prim2SF x <> S754_nan.
Proof.
  unfold is_nan. rewrite eqb_spec. unfold SFeqb. split.
  - intros H E. rewrite E in H. discriminate.
  - intros H. rewrite (SFcompare_refl _ H). reflexivity.
Qed.

(** The arguments of a comparison that holds are numbers. *)
Lemma lt_not_nan (x y : float) :
  lt x y = true -> is_nan x = false /\ is_nan y = false.
Proof.
  unfold lt. rewrite ltb_spec. unfold SFltb. intros H.
  split; apply is_nan_Prim2SF; intros E; rewrite E in H;
    [| destruct (Prim2SF x)]; discriminate.
Qed.

Lemma le_not_nan (x y : float) :
  le x y = true -> is_nan x = false /\ is_nan y = false.
Proof.
  unfold le. rewrite leb_spec. unfold SFleb. intros H.
  split; apply is_nan_Prim2SF; intros E; rewrite E in H;
    [| destruct (Prim2SF x)]; discriminate.
Qed.

(** A sum that is a number has numbers for summands. *)
Lemma add_not_nan (x y : float) :
  is_nan (x + y) = false -> is_nan x = false /\ is_nan y = false.
Proof.
  rewrite !is_nan_Prim2SF, add_spec. unfold SF64add.
  destruct (Prim2SF x), (Prim2SF y); simpl; intros H; split; congruence.
Qed.

(** [x <= y] excludes [y < x]: the closed range and the two breaches are
    disjoint. *)
Lemma le_not_gt (x y : float) : le x y = true -> lt y x = false.
Proof.
  unfold le, lt. rewrite leb_spec, ltb_spec. unfold SFleb, SFltb.
  rewrite (SFcompare_antisym (Prim2SF x) (Prim2SF y)).
  destruct (SFcompare _ _) as [[ | | ] | ]; simpl; congruence.
Qed.

Lemma lt_le (x y : float) : lt x y = true -> le x y = true.
Proof.
  unfold le, lt. rewrite leb_spec, ltb_spec. unfold SFleb, SFltb.
  destruct (SFcompare _ _) as [[ | | ] | ]; congruence.
Qed.

Lemma eq_le (x y : float) : eq x y = true -> le x y = true.
Proof.
  unfold le, eq. rewrite leb_spec, eqb_spec. unfold SFleb, SFeqb.
  destruct (SFcompare _ _) as [[ | | ] | ]; congruence.
Qed.

(** On numbers the order is total: a value is below the minimum or not
    below it, and the latter is [min <= value]. *)
Lemma not_lt_le (x y : float) :
  is_nan x = false -> is_nan y = false -> lt x y = false -> le y x = true.
Proof.
  unfold le, lt. rewrite !is_nan_Prim2SF, leb_spec, ltb_spec.
  unfold SFleb, SFltb.
  rewrite (SFcompare_antisym (Prim2SF x) (Prim2SF y)).
  destruct (Prim2SF x) as [s | s | | s m e], (Prim2SF y) as [t | t | | t n f];
    try congruence; intros _ _;
    destruct (SFcompare _ _) as [[ | | ] | ] eqn:E; simpl;
    try congruence; simpl in E; discriminate.
Qed.

Lemma poscmp_eq (m n : positive) :
  PosDef.Pos.compare_cont Eq m n = Eq -> m = n.
Proof. exact (Pos.compare_eq m n). Qed.

(** Floats that compare equal compare alike with any third one. *)
Lemma SFcompare_Eq_left (x y z : spec_float) :
  SFcompare x y = Some Eq -> SFcompare x z = SFcompare y z.
Proof.
  destruct x as [s | s | | s m e], y as [t | t | | t n f]; simpl;
    try discriminate; try (destruct s; discriminate);
    try (destruct t; discriminate).
  - reflexivity.
  - destruct s, t; try discriminate; reflexivity.
  - destruct s, t; try discriminate;
      destruct (e ?= f)%Z eqn:Ez; try discriminate;
      intros H; apply Z.compare_eq in Ez; subst f; injection H as H.
    + assert (m = n) as ->; [| reflexivity].
      apply poscmp_eq.
      destruct (PosDef.Pos.compare_cont Eq m n); simpl in H; congruence.
    + apply poscmp_eq in H. subst. reflexivity.
Qed.

Lemma eq_sym (x y : float) : eq x y = true -> eq y x = true.
Proof.
  unfold eq. rewrite !eqb_spec. unfold SFeqb.
  rewrite (SFcompare_antisym (Prim2SF x) (Prim2SF y)).
  destruct (SFcompare _ _) as [[ | | ] | ]; simpl; congruence.
Qed.

Lemma eq_le_trans (x y z : float) :
  eq x y = true -> le y z = true -> le x z = true.
Proof.
  unfold eq, le. rewrite eqb_spec, !leb_spec. unfold SFeqb, SFleb.
  destruct (SFcompare (Prim2SF x) (Prim2SF y)) as [[ | | ] | ] eqn:E;
    try discriminate.
  rewrite (SFcompare_Eq_left _ _ (Prim2SF z) E). auto.
Qed.

Lemma le_eq_trans (x y z : float) :
  le x y = true -> eq y z = true -> le x z = true.
Proof.
  unfold eq, le. rewrite eqb_spec, !leb_spec. unfold SFeqb, SFleb.
  destruct (SFcompare (Prim2SF y) (Prim2SF z)) as [[ | | ] | ] eqn:E;
    try discriminate.
  rewrite (SFcompare_antisym (Prim2SF y) (Prim2SF x)),
          (SFcompare_antisym (Prim2SF z) (Prim2SF x)),
          (SFcompare_Eq_left _ _ (Prim2SF x) E).
  auto.
Qed.

(** A value equal to a bound of a range in order is in the closed range. *)
Lemma bound_in_closed_range (v lo hi : float) :
  le lo hi = true ->
  eq v lo = true \/ eq v hi = true ->
  le lo v = true /\ le v hi = true.
Proof.
  intros Hord [H | H].
  - split; [apply eq_le, eq_sym, H | apply (eq_le_trans v lo hi H Hord)].
  - split; [apply (le_eq_trans lo hi v Hord (eq_sym _ _ H)) | apply eq_le, H].
Qed.

(** The three cases of a threshold check cover every number. *)
Lemma range_cases (v lo hi : float) :
  is_nan v = false -> is_nan lo = false -> is_nan hi = false ->
  lt v lo = true \/ gt v hi = true \/ (le lo v = true /\ le v hi = true).
Proof.
  intros Hv Hlo Hhi.
  destruct (lt v lo) eqn:E1; [left; reflexivity |].
  destruct (gt v hi) eqn:E2; [right; left; reflexivity |].
  right. right. split.
  - apply not_lt_le; assumption.
  - apply not_lt_le; [assumption | assumption | exact E2].
Qed.

(** *** Through a [REAL] column

    [sql_real] changes the sign of a zero at most: the value it returns
    compares with every float as its argument does. *)

Lemma sql_real_cases (x : float) :
  (PrimFloat.eqb x 0%float = true /\ sql_real x = 0%float)
  \/ (PrimFloat.eqb x 0%float = false /\ sql_real x = x).
Proof.
  unfold sql_real. destruct (PrimFloat.eqb x 0%float); auto.
Qed.

Lemma SFcompare_zero_left (x : float) (z : spec_float) :
  PrimFloat.eqb x 0%float = true ->
  SFcompare (Prim2SF 0%float) z = SFcompare (Prim2SF x) z.
Proof.
  rewrite eqb_spec. unfold SFeqb. intros H. symmetry.
  apply SFcompare_Eq_left.
  destruct (SFcompare (Prim2SF x) (Prim2SF 0)) as [[ | | ] | ];
    try discriminate; reflexivity.
Qed.

Lemma SFcompare_sql_real_l (x : float) (z : spec_float) :
  SFcompare (Prim2SF (sql_real x)) z = SFcompare (Prim2SF x) z.
Proof.
  destruct (sql_real_cases x) as [[H ->] | [_ ->]]; [| reflexivity].
  apply SFcompare_zero_left, H.
Qed.

Lemma SFcompare_sql_real_r (x : float) (z : spec_float) :
  SFcompare z (Prim2SF (sql_real x)) = SFcompare z (Prim2SF x).
Proof.
  rewrite (SFcompare_antisym (Prim2SF (sql_real x)) z),
          (SFcompare_antisym (Prim2SF x) z), SFcompare_sql_real_l.
  reflexivity.
Qed.

Lemma lt_sql_real_l (x y : float) : lt (sql_real x) y = lt x y.
Proof.
  unfold lt. rewrite !ltb_spec. unfold SFltb.
  rewrite SFcompare_sql_real_l. reflexivity.
Qed.

Lemma lt_sql_real_r (x y : float) : lt x (sql_real y) = lt x y.
Proof.
  unfold lt. rewrite !ltb_spec. unfold SFltb.
  rewrite SFcompare_sql_real_r. reflexivity.
Qed.

Lemma gt_sql_real_l (x y : float) : gt (sql_real x) y = gt x y.
Proof. apply lt_sql_real_r. Qed.

Lemma gt_sql_real_r (x y : float) : gt x (sql_real y) = gt x y.
Proof. apply lt_sql_real_l. Qed.

Lemma le_sql_real_l (x y : float) : le (sql_real x) y = le x y.
Proof.
  unfold le. rewrite !leb_spec. unfold SFleb.
  rewrite SFcompare_sql_real_l. reflexivity.
Qed.

Lemma le_sql_real_r (x y : float) : le x (sql_real y) = le x y.
Proof.
  unfold le. rewrite !leb_spec. unfold SFleb.
  rewrite SFcompare_sql_real_r. reflexivity.
Qed.

Lemma eq_sql_real_l (x y : float) : eq (sql_real x) y = eq x y.
Proof.
  unfold eq. rewrite !eqb_spec. unfold SFeqb.
  rewrite SFcompare_sql_real_l. reflexivity.
Qed.

Lemma is_nan_sql_real (x : float) : is_nan (sql_real x) = is_nan x.
Proof.
  destruct (sql_real_cases x) as [[H ->] | [_ ->]]; [| reflexivity].
  symmetry. change (is_nan 0%float) with false.
  apply is_nan_Prim2SF. intros E.
  rewrite eqb_spec in H. unfold SFeqb in H. rewrite E in H. discriminate.
Qed.

(** A number that went through a [REAL] column is equal to what it was,
    as [==] compares. *)
Lemma eq_sql_real (x : float) : is_nan x = false -> eq (sql_real x) x = true.
Proof.
  intros H. rewrite eq_sql_real_l. unfold eq. rewrite eqb_spec.
  unfold SFeqb. apply is_nan_Prim2SF in H.
  rewrite (SFcompare_refl _ H). reflexivity.
Qed.

(** The stored calibrated value is the stored raw value plus the offset,
    as [==] compares. *)
Lemma add_sql_real (v o : float) :
  is_nan (v + o) = false ->
  eq (sql_real (v + o)) (sql_real v + o) = true.
Proof.
  intros Hn. rewrite eq_sql_real_l.
  destruct (sql_real_cases v) as [[H ->] | [_ ->]].
  - apply is_nan_Prim2SF in Hn. revert H Hn.
    unfold eq. rewrite !eqb_spec, !add_spec. unfold SFeqb.
    change (Prim2SF 0) with (S754_zero false).
    unfold SF64add, SFadd.
    destruct (Prim2SF v) as [s | s | | s m e]; simpl;
      try discriminate; try (destruct s; discriminate).
    intros _.
    destruct (Prim2SF o) as [t | t | | t n f]; simpl; intros Hn;
      try congruence.
    + destruct s, t; reflexivity.
    + destruct t; reflexivity.
    + rewrite Z.compare_refl, poscmp_refl. destruct t; reflexivity.
  - unfold eq. rewrite eqb_spec. unfold SFeqb.
    apply is_nan_Prim2SF in Hn. rewrite (SFcompare_refl _ Hn). reflexivity.
Qed.

Lemma sql_real_idem (x : float) : sql_real (sql_real x) = sql_real x.
Proof.
  destruct (sql_real_cases x) as [[H ->] | [H E]].
  - reflexivity.
  - rewrite E. exact E.
Qed.

End F64Facts.

(** ** Running the monad *)

Lemma bind_ok {A B} (c : M A) (k : A -> M B) (w w' : World) (a : A) :
  c w = (w', Ok a) -> bind c k w = k a w'.
Proof. intros H. unfold bind. rewrite H. reflexivity. Qed.

Lemma bind_raise {A B} (c : M A) (k : A -> M B) (w w' : World) (e : Exc) :
  c w = (w', Raise e) -> bind c k w = (w', Raise e).
Proof. intros H. unfold bind. rewrite H. reflexivity. Qed.

(** ** Lookups in the tables *)

Lemma find_existsb {A} (p : A -> bool) (l : list A) :
  existsb p l = match find p l with Some _ => true | None => false end.
Proof.
  induction l as [| x l IH]; simpl; [reflexivity |].
  destruct (p x); simpl; auto.
Qed.

Lemma registered_exists sid s w : registered sid s w -> sensor_exists sid w = true.
Proof.
  unfold registered, sensor_exists. intros H.
  rewrite find_existsb, H. reflexivity.
Qed.

Lemma registered_id sid s w : registered sid s w -> Sensor.id s = sid.
Proof.
  unfold registered. intros H. apply find_some in H.
  apply String.eqb_eq, H.
Qed.

Lemma find_app_fresh {A} (p : A -> bool) (l : list A) (x : A) :
  existsb p l = false -> p x = true -> find p (l ++ [x]) = Some x.
Proof.
  induction l as [| y l IH]; simpl; intros H Hx.
  - rewrite Hx. reflexivity.
  - destruct (p y); [discriminate | auto].
Qed.

Lemma existsb_app_one {A} (p : A -> bool) (l : list A) (x : A) :
  existsb p (l ++ [x]) = existsb p l || p x.
Proof. rewrite existsb_app. simpl. rewrite orb_false_r. reflexivity. Qed.

(** An update of the rows of one key, seen through a lookup by key. *)
Lemma find_map_update {A} (key : A -> string) (upd : A -> A) (k k' : string)
    (l : list A) :
  (forall x, key (upd x) = key x) ->
  find (fun x => key x =? k') (map (fun x => if key x =? k then upd x else x) l)
  = option_map (fun x => if key x =? k then upd x else x)
               (find (fun x => key x =? k') l).
Proof.
  intros Hkey. induction l as [| x l IH]; simpl; [reflexivity |].
  assert (E : key (if key x =? k then upd x else x) = key x)
    by (destruct (key x =? k); auto).
  rewrite E. destruct (key x =? k'); simpl; auto.
Qed.

Lemma map_update_absent {A} (key : A -> string) (upd : A -> A) (k : string)
    (l : list A) :
  existsb (fun x => key x =? k) l = false ->
  map (fun x => if key x =? k then upd x else x) l = l.
Proof.
  induction l as [| x l IH]; simpl; [reflexivity |].
  destruct (key x =? k); simpl; [discriminate |].
  intros H. rewrite IH by exact H. reflexivity.
Qed.

(** ** Single methods, step by step *)

Section Runs.

Context (rt : Runtime).

Lemma get_sensor_found sid s w :
  registered sid s w -> get_sensor sid w = (w, Ok s).
Proof.
  unfold registered, get_sensor, bind, db_conn, select_sensor.
  intros H. rewrite H. reflexivity.
Qed.

Lemma get_sensor_missing sid w :
  sensor_exists sid w = false ->
  get_sensor sid w = (w, Raise (ValueError ("Sensor not found: " ++ sid))).
Proof.
  unfold sensor_exists, get_sensor, bind, db_conn, select_sensor.
  rewrite find_existsb.
  destruct (find _ _); [discriminate | reflexivity].
Qed.

(** [get_sensor] never writes. *)
Lemma get_sensor_world sid w : fst (get_sensor sid w) = w.
Proof.
  unfold get_sensor, bind, db_conn, select_sensor.
  destruct (find _ _); reflexivity.
Qed.

Lemma _create_alert_ok sid ty sev msg w :
  alert_exists (uuid_at rt (uuid_draws w)) w = false ->
  sensor_exists sid w = true ->
  _create_alert rt sid ty sev msg w
  = (with_alert w (new_alert rt w sid ty sev msg),
     Ok (new_alert rt w sid ty sev msg)).
Proof.
  intros Hfresh Hs.
  unfold _create_alert, bind, uuid4, utcnow, db_conn, insert_alert,
    alert_exists, sensor_exists in *; simpl.
  rewrite Hfresh, Hs. reflexivity.
Qed.

(** Whatever happens, [_create_alert] appends at most the alert it was
    asked for, and touches nothing else. *)
Lemma _create_alert_effect sid ty sev msg w :
  let w' := fst (_create_alert rt sid ty sev msg w) in
  sensors w' = sensors w /\ readings w' = readings w /\
  (alerts w' = alerts w \/
   alerts w' = alerts w ++ [new_alert rt w sid ty sev msg]).
Proof.
  unfold _create_alert, bind, uuid4, utcnow, db_conn, insert_alert; simpl.
  destruct (alert_exists _ _); simpl; [auto |].
  destruct (sensor_exists _ _); simpl; auto.
Qed.

End Runs.

(** ** Registration *)

(** Every range of the default table is a pair of numbers in order. *)
Lemma DEFAULT_THRESHOLDS_ordered (stype : SensorType) :
  let defaults := dict_get DEFAULT_THRESHOLDS stype (-999.0, 999.0)%float in
  F64.le (fst defaults) (snd defaults) = true
  /\ is_nan (fst defaults) = false /\ is_nan (snd defaults) = false.
Proof. destruct stype; vm_compute; auto. Qed.

(** [add_sensor], case by case; the sensor it returns is the row it
    reads back. *)
Lemma add_sensor_run rt dev ty unit mn mx off name loc w :
  add_sensor rt dev ty unit mn mx off name loc w
  = match SensorType_of_string ty with
    | None =>
        (w, Raise (ValueError (repr_str rt ty
                               ++ " is not a valid SensorType")))
    | Some stype =>
        let defaults :=
          dict_get DEFAULT_THRESHOLDS stype (-999.0, 999.0)%float in
        let lo := match mn with Some v => v | None => fst defaults end in
        let hi := match mx with Some v => v | None => snd defaults end in
        let s := Sensor.mk (uuid_at rt (uuid_draws w)) dev stype unit lo hi
                           off name loc in
        if is_nan lo
        then (drawn w, Raise (not_null_failed "sensors.min_value"))
        else if is_nan hi
        then (drawn w, Raise (not_null_failed "sensors.max_value"))
        else if is_nan off
        then (drawn w, Raise (not_null_failed "sensors.calibration_offset"))
        else if sensor_exists (Sensor.id s) w
        then (drawn w, Raise (unique_failed "sensors.id"))
        else ({| sensors := sensors w ++ [Sensor.as_stored s];
                 readings := readings w; alerts := alerts w;
                 uuid_draws := S (uuid_draws w);
                 clock_reads := clock_reads w |}, Ok (Sensor.as_stored s))
    end.
Proof.
  unfold add_sensor, enum.
  destruct (SensorType_of_string ty) as [stype |]; [| reflexivity].
  cbv zeta.
  unfold bind, ret, uuid4, db_conn, insert_sensor, with_tables. simpl.
  destruct (is_nan match mn with Some v => v | None => _ end);
    [reflexivity |].
  destruct (is_nan match mx with Some v => v | None => _ end);
    [reflexivity |].
  destruct (is_nan off); [reflexivity |].
  unfold sensor_exists. simpl.
  destruct (existsb _ (sensors w)) eqn:Eex; [reflexivity |]. simpl.
  unfold get_sensor, bind, db_conn, select_sensor. simpl.
  erewrite find_app_fresh; [reflexivity | exact Eex |].
  simpl. apply String.eqb_refl.
Qed.

Lemma add_sensor_ok rt dev ty unit mn mx off name loc stype w :
  SensorType_of_string ty = Some stype ->
  sensor_exists (uuid_at rt (uuid_draws w)) w = false ->
  let defaults := dict_get DEFAULT_THRESHOLDS stype (-999.0, 999.0)%float in
  let lo := match mn with Some v => v | None => fst defaults end in
  let hi := match mx with Some v => v | None => snd defaults end in
  let s := Sensor.as_stored
             (Sensor.mk (uuid_at rt (uuid_draws w)) dev stype unit lo hi off
                        name loc) in
  is_nan lo = false -> is_nan hi = false -> is_nan off = false ->
  add_sensor rt dev ty unit mn mx off name loc w
  = ({| sensors := sensors w ++ [s]; readings := readings w;
        alerts := alerts w; uuid_draws := S (uuid_draws w);
        clock_reads := clock_reads w |}, Ok s).
Proof.
  intros Hty Hfresh defaults lo hi s Hlo Hhi Hoff.
  rewrite add_sensor_run, Hty. cbv zeta.
  fold defaults. fold lo. fold hi. rewrite Hlo, Hhi, Hoff.
  simpl Sensor.id. rewrite Hfresh. reflexivity.
Qed.

(** C5, as the program has it: [add_sensor] validates no range.  It stores
    the bounds it is given (as the [REAL] columns keep them: a bound of
    [-0.0] is stored as [0.0]), takes an omitted bound from the per-type
    default table, and raises nothing for a minimum above the maximum;
    every range of the table is in order, so a sensor registered with both
    bounds omitted has [min_value <= max_value]. *)
Theorem add_sensor_stores_range rt w dev ty unit mn mx off name loc stype :
  SensorType_of_string ty = Some stype ->
  sensor_exists (uuid_at rt (uuid_draws w)) w = false ->
  let defaults := dict_get DEFAULT_THRESHOLDS stype (-999.0, 999.0)%float in
  let lo := match mn with Some v => v | None => fst defaults end in
  let hi := match mx with Some v => v | None => snd defaults end in
  is_nan lo = false -> is_nan hi = false -> is_nan off = false ->
  exists s w',
    add_sensor rt dev ty unit mn mx off name loc w = (w', Ok s)
    /\ registered (Sensor.id s) s w'
    /\ Sensor.min_value s = sql_real lo /\ Sensor.max_value s = sql_real hi
    /\ F64.eq (Sensor.min_value s) lo = true
    /\ F64.eq (Sensor.max_value s) hi = true
    /\ (mn = None -> mx = None ->
        F64.le (Sensor.min_value s) (Sensor.max_value s) = true).
Proof.
  intros Hty Hfresh defaults lo hi Hlo Hhi Hoff.
  eexists. eexists. split.
  - apply (add_sensor_ok rt dev ty unit mn mx off name loc stype w);
      assumption.
  - simpl. split.
    { unfold registered. simpl.
      apply find_app_fresh; [exact Hfresh | apply String.eqb_refl]. }
    split; [reflexivity |]. split; [reflexivity |].
    split; [apply F64Facts.eq_sql_real, Hlo |].
    split; [apply F64Facts.eq_sql_real, Hhi |].
    intros -> ->.
    rewrite F64Facts.le_sql_real_l, F64Facts.le_sql_real_r.
    apply (DEFAULT_THRESHOLDS_ordered stype).
Qed.

(** A humidity sensor registered without bounds gets [0, 100]. *)
Lemma add_sensor_stores_range_witness :
  exists s w',
    add_sensor Demo.runtime "dev-1" "humidity" "%" None None 0%float
      (Some "Humidity-1") None Demo.empty = (w', Ok s)
    /\ Sensor.min_value s = 0%float /\ Sensor.max_value s = 100%float
    /\ F64.le (Sensor.min_value s) (Sensor.max_value s) = true.
Proof.
  destruct (add_sensor_stores_range Demo.runtime Demo.empty "dev-1" "humidity"
              "%" None None 0%float (Some "Humidity-1") None HUMIDITY
              eq_refl eq_refl eq_refl eq_refl eq_refl)
    as (s & w' & E & _ & Hlo & Hhi & _ & _ & Hord).
  exists s, w'. repeat split; try assumption.
  apply Hord; reflexivity.
Defined.

(** C5, as the claim has it, fails: a temperature sensor registered with
    the range [10, 5] is accepted and stored with its minimum above its
    maximum. *)
Lemma add_sensor_accepts_inverted_range :
  exists s w',
    add_sensor Demo.runtime "dev-1" "temperature" "C"
      (Some 10%float) (Some 5%float) 0%float None None Demo.empty = (w', Ok s)
    /\ In s (sensors w')
    /\ F64.le (Sensor.min_value s) (Sensor.max_value s) = false.
Proof.
  eexists. eexists. split; [vm_compute; reflexivity |].
  split; [left; reflexivity | vm_compute; reflexivity].
Qed.

(** ** Resolving alerts *)

(** The alerts once [UPDATE alerts SET resolved_at=now WHERE id=aid] ran. *)
Lemma resolve_alert_run rt aid w :
  let now := now_at rt (clock_reads w) in
  let rows := map (fun a => if Alert.id a =? aid
                            then Alert.with_resolved_at a now else a)
                  (alerts w) in
  resolve_alert rt aid w
  = ({| sensors := sensors w; readings := readings w; alerts := rows;
        uuid_draws := uuid_draws w; clock_reads := S (clock_reads w) |},
     match find (fun a => Alert.id a =? aid) (alerts w) with
     | Some a => Ok (Alert.with_resolved_at a now)
     | None => Raise (ValueError ("Alert not found: " ++ aid))
     end).
Proof.
  intros now rows.
  unfold resolve_alert, bind, utcnow, db_conn, update_alert_resolved,
    select_alert, with_tables; simpl. fold now.
  rewrite (find_map_update Alert.id (fun a => Alert.with_resolved_at a now)
             aid aid (alerts w)) by reflexivity.
  destruct (find _ (alerts w)) as [a |] eqn:E; simpl; [| reflexivity].
  apply find_some in E. destruct E as [_ E]. rewrite E. reflexivity.
Qed.

(** C6: [resolve_alert] on an id that no alert has raises the not-found
    [ValueError] and leaves the three tables as they were; on the id of a
    stored alert it returns that alert with [resolved_at] set to the
    current time, hence not active, and stores it so. *)
Theorem resolve_alert_spec rt w aid :
  let now := now_at rt (clock_reads w) in
  let w' := fst (resolve_alert rt aid w) in
  (alert_exists aid w = false ->
     snd (resolve_alert rt aid w)
     = Raise (ValueError ("Alert not found: " ++ aid))
     /\ alerts w' = alerts w /\ sensors w' = sensors w
     /\ readings w' = readings w)
  /\ (forall a0, stored_alert aid a0 w ->
        exists a,
          snd (resolve_alert rt aid w) = Ok a
          /\ a = Alert.with_resolved_at a0 now
          /\ Alert.id a = aid
          /\ Alert.resolved_at a = Some now
          /\ Alert.is_active a = false
          /\ stored_alert aid a w'
          /\ sensors w' = sensors w /\ readings w' = readings w).
Proof.
  intros now w'. subst w'. rewrite resolve_alert_run. fold now. simpl. split.
  - intros Habsent. unfold alert_exists in Habsent.
    rewrite (map_update_absent Alert.id _ aid (alerts w) Habsent).
    rewrite find_existsb in Habsent.
    destruct (find _ (alerts w)); [discriminate | auto].
  - intros a0 Hst. unfold stored_alert in *. rewrite Hst.
    exists (Alert.with_resolved_at a0 now). simpl.
    assert (Hid : Alert.id a0 = aid)
      by (apply find_some in Hst; apply String.eqb_eq, Hst).
    repeat split; auto.
    rewrite (find_map_update Alert.id (fun a => Alert.with_resolved_at a now)
               aid aid (alerts w)) by reflexivity.
    rewrite Hst. simpl. rewrite Hid, String.eqb_refl. reflexivity.
Qed.

(** An unknown id on a world with one alert, and the id of that alert. *)
Lemma resolve_alert_spec_witness :
  (snd (resolve_alert Demo.runtime "no-such-alert" Demo.one_alert)
   = Raise (ValueError "Alert not found: no-such-alert")
   /\ alerts (fst (resolve_alert Demo.runtime "no-such-alert" Demo.one_alert))
      = alerts Demo.one_alert)
  /\ exists a,
       snd (resolve_alert Demo.runtime (Demo.uuid 2) Demo.one_alert) = Ok a
       /\ Alert.resolved_at a = Some (Demo.t0 + 2)%Z
       /\ Alert.is_active a = false.
Proof.
  split.
  - destruct (proj1 (resolve_alert_spec Demo.runtime Demo.one_alert
                       "no-such-alert") eq_refl) as (E & A & _).
    split; [exact E | exact A].
  - destruct (proj2 (resolve_alert_spec Demo.runtime Demo.one_alert
                       (Demo.uuid 2)) _ eq_refl)
      as (a & E & _ & _ & R & I & _).
    exists a. repeat split; assumption.
Defined.

(** [resolve_alert] on the id of a stored alert, in one equation. *)
Lemma resolve_alert_found rt w aid a0 :
  stored_alert aid a0 w ->
  let now := now_at rt (clock_reads w) in
  snd (resolve_alert rt aid w) = Ok (Alert.with_resolved_at a0 now)
  /\ stored_alert aid (Alert.with_resolved_at a0 now)
                  (fst (resolve_alert rt aid w)).
Proof.
  intros Hst now. rewrite resolve_alert_run. fold now. simpl.
  unfold stored_alert in *. rewrite Hst. split; [reflexivity |]. simpl.
  rewrite (find_map_update Alert.id (fun a => Alert.with_resolved_at a now)
             aid aid (alerts w)) by reflexivity.
  rewrite Hst. simpl.
  assert (Hid : Alert.id a0 = aid)
    by (apply find_some in Hst; apply String.eqb_eq, Hst).
  rewrite Hid, String.eqb_refl. reflexivity.
Qed.

(** C10: an alert that is already resolved is resolved again without an
    error: [resolved_at] is overwritten with the current time, whatever it
    held, which is not earlier when the clock did not go back; the alert
    stays resolved. *)
Theorem resolve_alert_again rt w aid a0 t0 :
  stored_alert aid a0 w ->
  Alert.resolved_at a0 = Some t0 ->
  let now := now_at rt (clock_reads w) in
  let w' := fst (resolve_alert rt aid w) in
  exists a,
    snd (resolve_alert rt aid w) = Ok a
    /\ stored_alert aid a w'
    /\ Alert.resolved_at a = Some now
    /\ Alert.is_active a = false
    /\ (now <> t0 -> Alert.resolved_at a <> Alert.resolved_at a0)
    /\ ((t0 <= now)%Z ->
        exists t, Alert.resolved_at a = Some t /\ (t0 <= t)%Z).
Proof.
  intros Hst Hres now w'.
  destruct (resolve_alert_found rt w aid a0 Hst) as [E S].
  exists (Alert.with_resolved_at a0 now). repeat split; auto.
  - intros Hne H. simpl in H. rewrite Hres in H. injection H as H.
    exact (Hne H).
  - intros Hle. exists now. split; [reflexivity | exact Hle].
Qed.

(** The alert resolved at time 2 is resolved again at time 3. *)
Lemma resolve_alert_again_witness :
  exists a,
    snd (resolve_alert Demo.runtime (Demo.uuid 2) Demo.one_resolved) = Ok a
    /\ Alert.resolved_at a = Some (Demo.t0 + 3)%Z
    /\ Alert.is_active a = false.
Proof.
  destruct (resolve_alert_again Demo.runtime Demo.one_resolved (Demo.uuid 2)
              (Alert.mk (Demo.uuid 2) (Demo.uuid 0) THRESHOLD CRITICAL
                        "Value #.### above maximum #" (Demo.t0 + 1)%Z
                        (Some (Demo.t0 + 2)%Z))
              (Demo.t0 + 2)%Z eq_refl eq_refl)
    as (a & E & _ & R & I & _).
  exists a. repeat split; assumption.
Defined.

(** ** The current reading *)

Lemma latest_row_app (l : list Reading.t) (r : Reading.t) :
  latest_row (l ++ [r])
  = match latest_row l with
    | None => Some r
    | Some b => if (Reading.timestamp b <=? Reading.timestamp r)%Z
                then Some r else Some b
    end.
Proof. unfold latest_row. rewrite fold_left_app. reflexivity. Qed.

Lemma latest_row_In (l : list Reading.t) (b : Reading.t) :
  latest_row l = Some b -> In b l.
Proof.
  induction l as [| r l IH] using rev_ind; [discriminate |].
  rewrite latest_row_app. intros H. apply in_or_app.
  destruct (latest_row l) as [b' |].
  - destruct (_ <=? _)%Z; injection H as <-; [right; left; reflexivity |].
    left. apply IH. reflexivity.
  - injection H as <-. right. left. reflexivity.
Qed.

(** When the clock has not gone back, the reading just inserted is the
    current one. *)
Lemma select_current_new rt sid w r :
  clock_not_behind rt sid w ->
  Reading.sensor_id r = sid ->
  Reading.timestamp r = now_at rt (clock_reads w) ->
  latest_row (filter (fun x => Reading.sensor_id x =? sid) (readings w ++ [r]))
  = Some r.
Proof.
  intros Hclock Hsid Hts. rewrite filter_app. simpl.
  rewrite Hsid, String.eqb_refl, latest_row_app.
  destruct (latest_row _) as [b |] eqn:E; [| reflexivity].
  apply latest_row_In, filter_In in E. destruct E as [Hin Hb].
  apply String.eqb_eq in Hb. specialize (Hclock b Hin Hb).
  rewrite Hts. destruct (Z.leb_spec (Reading.timestamp b)
                           (now_at rt (clock_reads w))); [reflexivity | lia].
Qed.

(** ** Threshold checks and ingestion, step by step *)

Section Ingestion.

Context (rt : Runtime).

(** What [check_thresholds] does once the current reading and the sensor
    are known. *)
Lemma check_thresholds_run sid w r s :
  latest_row (filter (fun x => Reading.sensor_id x =? sid) (readings w))
  = Some r ->
  registered sid s w ->
  let val := Reading.calibrated_value r in
  check_thresholds rt sid w
  = if F64.lt val (Sensor.min_value s) then
      bind (_create_alert rt sid THRESHOLD CRITICAL
              ("Value " ++ format_3f rt val ++ " below minimum "
               ++ float_str rt (Sensor.min_value s)))
           (fun a => ret (Some a)) w
    else if F64.gt val (Sensor.max_value s) then
      bind (_create_alert rt sid THRESHOLD CRITICAL
              ("Value " ++ format_3f rt val ++ " above maximum "
               ++ float_str rt (Sensor.max_value s)))
           (fun a => ret (Some a)) w
    else (w, Ok None).
Proof.
  intros Hcur Hreg val.
  unfold check_thresholds, get_current.
  rewrite (bind_ok _ _ w w (Some r))
    by (unfold db_conn, select_current; rewrite Hcur; reflexivity).
  rewrite (bind_ok _ _ w w s) by (apply get_sensor_found, Hreg).
  fold val. destruct (F64.lt _ _); [reflexivity |].
  destruct (F64.gt _ _); reflexivity.
Qed.

(** Whatever the tables hold, [check_thresholds] appends at most one
    alert, a critical threshold alert of the sensor, and touches nothing
    else. *)
Lemma check_thresholds_effect sid w :
  threshold_step sid w (fst (check_thresholds rt sid w)).
Proof.
  unfold check_thresholds, get_current.
  unfold bind at 1. unfold db_conn at 1, select_current at 1.
  destruct (latest_row _) as [r |];
    [| simpl; repeat split; left; reflexivity].
  unfold bind at 1.
  pose proof (get_sensor_world sid w) as Hw.
  destruct (get_sensor sid w) as [w1 [s | e]]; simpl in Hw; subst w1;
    [| simpl; repeat split; left; reflexivity].
  assert (K : forall msg,
    threshold_step sid w
      (fst (bind (_create_alert rt sid THRESHOLD CRITICAL msg)
                 (fun a => ret (Some a)) w))).
  { intros msg.
    pose proof (_create_alert_effect rt sid THRESHOLD CRITICAL msg w) as H.
    unfold bind. destruct (_create_alert _ _ _ _ _ _) as [w1 [a | e]];
      simpl in *; destruct H as (Hs & Hr & [Ha | Ha]); repeat split; auto;
      try (left; exact Ha);
      right; eexists; (split; [exact Ha |]); repeat split. }
  destruct (F64.lt _ _); [apply K |].
  destruct (F64.gt _ _); [apply K | simpl; repeat split; left; reflexivity].
Qed.

(** The first half of [log_reading]: the reading is stored. *)
Lemma log_reading_stores sid value quality w s q :
  registered sid s w ->
  ReadingQuality_of_string quality = Some q ->
  reading_exists (uuid_at rt (uuid_draws w)) w = false ->
  is_nan (value + Sensor.calibration_offset s) = false ->
  let r := new_reading rt w sid value (Sensor.calibration_offset s) q in
  log_reading rt sid value quality w
  = bind (check_thresholds rt sid) (fun _ => ret r)
         (with_reading w (Reading.as_stored r)).
Proof.
  intros Hreg Hq Hfresh Hnan r.
  destruct (F64Facts.add_not_nan _ _ Hnan) as [Hv _].
  unfold log_reading.
  rewrite (bind_ok _ _ w w s) by (apply get_sensor_found, Hreg).
  unfold enum. rewrite Hq.
  unfold bind at 1. unfold ret at 1.
  unfold bind at 1. unfold uuid4 at 1.
  unfold bind at 1. unfold utcnow at 1. simpl.
  unfold bind at 1. unfold db_conn at 1, insert_reading. simpl.
  rewrite Hv, Hnan.
  unfold reading_exists in Hfresh |- *. simpl. rewrite Hfresh.
  pose proof (registered_exists _ _ _ Hreg) as Hex.
  unfold sensor_exists in Hex |- *. simpl. rewrite Hex. simpl.
  reflexivity.
Qed.

(** An unknown sensor: [log_reading] raises before it writes. *)
Lemma log_reading_unknown_sensor sid value quality w :
  sensor_exists sid w = false ->
  log_reading rt sid value quality w
  = (w, Raise (ValueError ("Sensor not found: " ++ sid))).
Proof.
  intros H. unfold log_reading.
  apply bind_raise, get_sensor_missing, H.
Qed.

End Ingestion.

(** [log_reading], case by case, up to the call of [check_thresholds]. *)
Lemma log_reading_run rt sid value quality w :
  log_reading rt sid value quality w
  = match find (fun x => Sensor.id x =? sid) (sensors w) with
    | None => (w, Raise (ValueError ("Sensor not found: " ++ sid)))
    | Some s =>
        match ReadingQuality_of_string quality with
        | None =>
            (w, Raise (ValueError (repr_str rt quality
                                   ++ " is not a valid ReadingQuality")))
        | Some q =>
            let r := new_reading rt w sid value
                       (Sensor.calibration_offset s) q in
            if is_nan value
            then (tick (drawn w),
                  Raise (not_null_failed "readings.raw_value"))
            else if is_nan (value + Sensor.calibration_offset s)
            then (tick (drawn w),
                  Raise (not_null_failed "readings.calibrated_value"))
            else if reading_exists (Reading.id r) w
            then (tick (drawn w), Raise (unique_failed "readings.id"))
            else bind (check_thresholds rt sid) (fun _ => ret r)
                      (with_reading w (Reading.as_stored r))
        end
    end.
Proof.
  destruct (find _ (sensors w)) as [s |] eqn:Hreg.
  2: { apply log_reading_unknown_sensor. unfold sensor_exists.
       rewrite find_existsb, Hreg. reflexivity. }
  unfold log_reading.
  rewrite (bind_ok _ _ w w s) by (apply get_sensor_found, Hreg).
  unfold enum. destruct (ReadingQuality_of_string quality) as [q |];
    [| reflexivity].
  unfold bind at 1. unfold ret at 1.
  unfold bind at 1. unfold uuid4 at 1.
  unfold bind at 1. unfold utcnow at 1. simpl.
  unfold bind at 1. unfold db_conn at 1, insert_reading. simpl.
  destruct (is_nan value); [reflexivity |].
  destruct (is_nan (value + _)); [reflexivity |].
  unfold reading_exists. simpl.
  destruct (existsb _ (readings w)); [reflexivity |].
  pose proof (registered_exists _ _ _ Hreg) as Hex.
  unfold sensor_exists in Hex |- *. simpl. rewrite Hex. reflexivity.
Qed.

Section IngestionRuns.

Context (rt : Runtime).

Variables (sid quality : string) (value : float) (w : World)
          (s : Sensor.t) (q : ReadingQuality).

Hypothesis Hreg : registered sid s w.
Hypothesis Hquality : ReadingQuality_of_string quality = Some q.
Hypothesis Hrid : reading_exists (uuid_at rt (uuid_draws w)) w = false.
Hypothesis Hclock : clock_not_behind rt sid w.

Let calibrated := (value + Sensor.calibration_offset s)%float.
Let r := new_reading rt w sid value (Sensor.calibration_offset s) q.
Let w1 := with_reading w (Reading.as_stored r).

(** A value in range: the reading is stored and that is all. *)
Lemma log_reading_in_range :
  is_nan calibrated = false ->
  F64.lt calibrated (Sensor.min_value s) = false ->
  F64.gt calibrated (Sensor.max_value s) = false ->
  log_reading rt sid value quality w = (w1, Ok r).
Proof.
  intros Hnan Hlo Hhi.
  rewrite (log_reading_stores rt sid value quality w s q Hreg Hquality Hrid Hnan).
  fold r. fold w1.
  rewrite (bind_ok _ _ w1 w1 None); [reflexivity |].
  rewrite (check_thresholds_run rt sid w1 (Reading.as_stored r) s).
  - simpl. fold calibrated.
    rewrite F64Facts.lt_sql_real_l, F64Facts.gt_sql_real_l, Hlo, Hhi.
    reflexivity.
  - apply (select_current_new rt sid w (Reading.as_stored r) Hclock);
      reflexivity.
  - exact Hreg.
Qed.

(** A value out of range: the reading is stored, then one alert. *)
Lemma log_reading_breach :
  alert_exists (uuid_at rt (S (uuid_draws w))) w = false ->
  F64.lt calibrated (Sensor.min_value s) = true
  \/ F64.gt calibrated (Sensor.max_value s) = true ->
  let a := new_alert rt w1 sid THRESHOLD CRITICAL
                     (threshold_message rt (sql_real calibrated) s) in
  log_reading rt sid value quality w = (with_alert w1 a, Ok r).
Proof.
  intros Haid Hout a.
  assert (Hnan : is_nan calibrated = false).
  { destruct Hout as [H | H]; apply F64Facts.lt_not_nan in H; tauto. }
  rewrite (log_reading_stores rt sid value quality w s q Hreg Hquality Hrid Hnan).
  fold r. fold w1.
  assert (Hcreate : forall msg,
    _create_alert rt sid THRESHOLD CRITICAL msg w1
    = (with_alert w1 (new_alert rt w1 sid THRESHOLD CRITICAL msg),
       Ok (new_alert rt w1 sid THRESHOLD CRITICAL msg))).
  { intros msg. apply _create_alert_ok.
    - exact Haid.
    - exact (registered_exists _ _ _ Hreg). }
  rewrite (bind_ok _ _ w1 (with_alert w1 a) (Some a)); [reflexivity |].
  rewrite (check_thresholds_run rt sid w1 (Reading.as_stored r) s).
  - simpl. fold calibrated. subst a. unfold threshold_message.
    rewrite <- (F64Facts.lt_sql_real_l calibrated) in Hout.
    rewrite <- (F64Facts.gt_sql_real_l calibrated) in Hout.
    destruct (F64.lt (sql_real calibrated) (Sensor.min_value s)) eqn:Elo.
    + erewrite bind_ok by apply Hcreate. reflexivity.
    + destruct Hout as [H | H]; [discriminate |]. rewrite H.
      erewrite bind_ok by apply Hcreate. reflexivity.
  - apply (select_current_new rt sid w (Reading.as_stored r) Hclock);
      reflexivity.
  - exact Hreg.
Qed.

End IngestionRuns.

(** C1: when [log_reading] ingests a value for a registered sensor, with a
    fresh uuid for the reading and for the alert and a clock that has not
    gone back behind the sensor's readings, the calibrated value
    [value + calibration_offset] decides the alerts: strictly below the
    minimum or strictly above the maximum, exactly one alert is appended,
    of type threshold and severity CRITICAL; strictly inside the range,
    and likewise anywhere in the closed range, its two bounds included,
    none is. *)
Theorem log_reading_threshold_alert rt w sid value quality s q :
  registered sid s w ->
  ReadingQuality_of_string quality = Some q ->
  reading_exists (uuid_at rt (uuid_draws w)) w = false ->
  alert_exists (uuid_at rt (S (uuid_draws w))) w = false ->
  clock_not_behind rt sid w ->
  let calibrated := (value + Sensor.calibration_offset s)%float in
  let lo := Sensor.min_value s in
  let hi := Sensor.max_value s in
  let w' := fst (log_reading rt sid value quality w) in
  let returned := snd (log_reading rt sid value quality w) in
  (F64.lt calibrated lo = true \/ F64.gt calibrated hi = true ->
     (exists r, returned = Ok r /\ Reading.calibrated_value r = calibrated)
     /\ exists a, alerts w' = alerts w ++ [a] /\ threshold_alert sid a)
  /\ (F64.lt lo calibrated = true /\ F64.lt calibrated hi = true ->
        (exists r, returned = Ok r /\ Reading.calibrated_value r = calibrated)
        /\ alerts w' = alerts w)
  /\ (F64.le lo calibrated = true /\ F64.le calibrated hi = true ->
        (exists r, returned = Ok r /\ Reading.calibrated_value r = calibrated)
        /\ alerts w' = alerts w).
Proof.
  intros Hreg Hq Hrid Haid Hclock calibrated lo hi w' returned.
  assert (Hin : F64.le lo calibrated = true /\ F64.le calibrated hi = true ->
                (exists r, returned = Ok r
                           /\ Reading.calibrated_value r = calibrated)
                /\ alerts w' = alerts w).
  { intros [Hlo Hhi]. subst w' returned.
    rewrite (log_reading_in_range rt sid quality value w s q Hreg Hq Hrid Hclock).
    - simpl. split; [eexists; split; reflexivity | reflexivity].
    - apply F64Facts.le_not_nan in Hlo. tauto.
    - apply F64Facts.le_not_gt, Hlo.
    - apply F64Facts.le_not_gt, Hhi. }
  split; [| split].
  - intros Hout. subst w' returned.
    rewrite (log_reading_breach rt sid quality value w s q Hreg Hq Hrid Hclock
               Haid Hout).
    simpl. split; [eexists; split; reflexivity |].
    eexists. split; [reflexivity | repeat split].
  - intros [Hlo Hhi]. apply Hin. split; apply F64Facts.lt_le; assumption.
  - exact Hin.
Qed.

Lemma clock_not_behind_one_alert :
  clock_not_behind Demo.runtime (Demo.uuid 0) Demo.one_alert.
Proof.
  intros r [<- | []] _. vm_compute. discriminate.
Defined.

(** On the sensor of range [0, 40] that already has one reading and one
    alert: 50 raises an alert, 20 and the bound 40 raise none. *)
Lemma log_reading_threshold_alert_witness :
  (exists a,
     alerts (fst (log_reading Demo.runtime (Demo.uuid 0) 50%float "good"
                    Demo.one_alert))
     = alerts Demo.one_alert ++ [a]
     /\ threshold_alert (Demo.uuid 0) a)
  /\ alerts (fst (log_reading Demo.runtime (Demo.uuid 0) 20%float "good"
                    Demo.one_alert))
     = alerts Demo.one_alert
  /\ alerts (fst (log_reading Demo.runtime (Demo.uuid 0) 40%float "good"
                    Demo.one_alert))
     = alerts Demo.one_alert.
Proof.
  pose (sensor := Sensor.mk (Demo.uuid 0) "dev-3" TEMPERATURE "C"
                            0%float 40%float 0%float None None).
  split; [| split].
  - apply (proj1 (log_reading_threshold_alert Demo.runtime Demo.one_alert
                    (Demo.uuid 0) 50%float "good" sensor GOOD
                    eq_refl eq_refl eq_refl eq_refl
                    clock_not_behind_one_alert)).
    right. reflexivity.
  - apply (proj1 (proj2 (log_reading_threshold_alert Demo.runtime
                    Demo.one_alert (Demo.uuid 0) 20%float "good" sensor GOOD
                    eq_refl eq_refl eq_refl eq_refl
                    clock_not_behind_one_alert))).
    split; reflexivity.
  - apply (proj2 (proj2 (log_reading_threshold_alert Demo.runtime
                    Demo.one_alert (Demo.uuid 0) 40%float "good" sensor GOOD
                    eq_refl eq_refl eq_refl eq_refl
                    clock_not_behind_one_alert))).
    split; reflexivity.
Defined.

(** C1, as the claim has it, fails: [check_thresholds] tests the
    reading of the greatest timestamp, not the one just stored.  When
    50.0 was ingested and the clock is then set back by ten microseconds,
    the value 20.0, which is strictly inside the range [0, 40], raises a
    second alert. *)
Lemma stale_reading_checked :
  let w := Demo.exec (log_reading Demo.clock_set_back (Demo.uuid 0) 50%float
                        "good") Demo.one_sensor in
  List.length (alerts w) = 1
  /\ exists a,
       alerts (fst (log_reading Demo.clock_set_back (Demo.uuid 0) 20%float
                      "good" w))
       = alerts w ++ [a]
       /\ threshold_alert (Demo.uuid 0) a.
Proof.
  split; [reflexivity |].
  eexists. split; [vm_compute; reflexivity | repeat split].
Qed.

(** ** Calibration *)

(** [update_calibration] leaves the readings alone, whatever it is given. *)
Lemma update_calibration_readings sid offset w :
  readings (fst (update_calibration sid offset w)) = readings w.
Proof.
  unfold update_calibration, bind, db_conn, update_sensor_offset, with_tables.
  destruct (sensor_exists sid w && is_nan offset); simpl; [reflexivity |].
  match goal with |- context [get_sensor sid ?x] =>
    pose proof (get_sensor_world sid x) as Hw;
    destruct (get_sensor sid x) as [w1 [s | e]]; simpl in Hw; subst w1
  end; reflexivity.
Qed.

(** On a registered sensor and a number, it installs the new offset. *)
Lemma update_calibration_ok sid offset w s :
  registered sid s w -> is_nan offset = false ->
  let s' := Sensor.with_calibration_offset s (sql_real offset) in
  snd (update_calibration sid offset w) = Ok s'
  /\ registered sid s' (fst (update_calibration sid offset w)).
Proof.
  intros Hreg Hnan s'.
  assert (Hfind :
    find (fun x => Sensor.id x =? sid)
         (map (fun x => if Sensor.id x =? sid
                        then Sensor.with_calibration_offset x
                               (sql_real offset)
                        else x)
              (sensors w)) = Some s').
  { rewrite (find_map_update Sensor.id
               (fun x => Sensor.with_calibration_offset x (sql_real offset))
               sid sid (sensors w)) by reflexivity.
    unfold registered in Hreg. rewrite Hreg. simpl.
    rewrite (registered_id _ _ _ Hreg), String.eqb_refl. reflexivity. }
  unfold update_calibration, bind, db_conn, update_sensor_offset, with_tables.
  rewrite Hnan, andb_false_r. simpl.
  unfold get_sensor, bind, db_conn, select_sensor. simpl.
  unfold registered. rewrite Hfind. simpl. split; [reflexivity | exact Hfind].
Qed.

(** C4: the row [log_reading] stores is the reading it returns, as the
    [REAL] columns keep its floats (a zero loses its sign, nothing else
    changes).  Its [raw_value] equals the value received and its
    [calibrated_value] equals [raw_value + calibration_offset], with the
    offset the sensor has at that moment; the reading returned has
    exactly the value received and the sum.  An [update_calibration]
    afterwards installs the new offset and leaves the readings table,
    that row included, exactly as it was. *)
Theorem calibrated_value_fixed_at_ingestion rt w sid value quality s q :
  registered sid s w ->
  ReadingQuality_of_string quality = Some q ->
  reading_exists (uuid_at rt (uuid_draws w)) w = false ->
  is_nan (value + Sensor.calibration_offset s) = false ->
  let w1 := fst (log_reading rt sid value quality w) in
  let offset0 := Sensor.calibration_offset s in
  exists r,
    readings w1 = readings w ++ [r]
    /\ Reading.sensor_id r = sid
    /\ Reading.raw_value r = sql_real value
    /\ Reading.calibrated_value r = sql_real (value + offset0)
    /\ F64.eq (Reading.raw_value r) value = true
    /\ F64.eq (Reading.calibrated_value r) (value + offset0) = true
    /\ F64.eq (Reading.calibrated_value r) (Reading.raw_value r + offset0)
       = true
    /\ (forall r', snd (log_reading rt sid value quality w) = Ok r' ->
          Reading.as_stored r' = r
          /\ Reading.raw_value r' = value
          /\ Reading.calibrated_value r' = (value + offset0)%float)
    /\ forall offset,
         let w2 := fst (update_calibration sid offset w1) in
         readings w2 = readings w1
         /\ In r (readings w2)
         /\ (is_nan offset = false ->
             exists s', registered sid s' w2
                        /\ Sensor.calibration_offset s' = sql_real offset).
Proof.
  intros Hreg Hq Hrid Hnan w1 offset0.
  destruct (F64Facts.add_not_nan _ _ Hnan) as [Hv _].
  set (r0 := new_reading rt w sid value (Sensor.calibration_offset s) q).
  exists (Reading.as_stored r0).
  subst w1.
  rewrite (log_reading_stores rt sid value quality w s q Hreg Hq Hrid Hnan).
  fold r0.
  pose proof (check_thresholds_effect rt sid
                (with_reading w (Reading.as_stored r0)))
    as (Hs & Hr & _).
  unfold bind.
  destruct (check_thresholds rt sid (with_reading w (Reading.as_stored r0)))
    as [w1 [o | e]]; simpl in *.
  all: rewrite Hr; split; [reflexivity |].
  all: do 3 (split; [reflexivity |]).
  all: split; [apply F64Facts.eq_sql_real, Hv |].
  all: split; [apply F64Facts.eq_sql_real, Hnan |].
  all: split; [apply F64Facts.add_sql_real, Hnan |].
  all: split;
    [intros r' E; try discriminate; injection E as <-; repeat split |].
  all: intros offset; rewrite update_calibration_readings.
  all: split; [exact Hr | split].
  all: try (rewrite Hr; apply in_or_app; right; left; reflexivity).
  all: intros Hoff.
  all: assert (Hreg1 : registered sid s w1)
         by (unfold registered; rewrite Hs; exact Hreg).
  all: destruct (update_calibration_ok sid offset w1 s Hreg1 Hoff) as [_ Hreg2].
  all: eexists; split; [exact Hreg2 | reflexivity].
Qed.

(** A sensor of offset 1.5 reads 20.0, stored as 21.5; the offset is then
    set to 2.0 and the stored reading still says 21.5. *)
Lemma calibrated_value_fixed_at_ingestion_witness :
  let w := Demo.exec (add_sensor Demo.runtime "dev-2" "temperature" "C"
                        None None 1.5%float None None) Demo.empty in
  let w1 := fst (log_reading Demo.runtime (Demo.uuid 0) 20%float "good" w) in
  exists r,
    readings w1 = readings w ++ [r]
    /\ Reading.calibrated_value r = 21.5%float
    /\ In r (readings (fst (update_calibration (Demo.uuid 0) 2%float w1))).
Proof.
  intros w w1.
  destruct (calibrated_value_fixed_at_ingestion Demo.runtime w (Demo.uuid 0)
              20%float "good"
              (Sensor.mk (Demo.uuid 0) "dev-2" TEMPERATURE "C"
                         (-40)%float 85%float 1.5%float None None)
              GOOD eq_refl eq_refl eq_refl eq_refl)
    as (r & Hr & _ & _ & Hc & _ & _ & _ & _ & Hu).
  exists r. split; [exact Hr | split; [exact Hc |]].
  apply (Hu 2%float).
Defined.

(** ** Which method writes which alert *)

Lemma anomaly_ids_threshold sid w w' :
  at_most_threshold_alert sid w w' -> anomaly_ids w' = anomaly_ids w.
Proof.
  unfold anomaly_ids. intros [E | (a & E & Ha & _)]; rewrite E;
    [reflexivity |].
  rewrite filter_app. simpl. rewrite Ha. simpl.
  rewrite app_nil_r. reflexivity.
Qed.

(** Whatever its arguments and the tables, [log_reading] appends at most
    one alert, and that one is a critical threshold alert. *)
Lemma log_reading_effect rt sid value quality w :
  at_most_threshold_alert sid w (fst (log_reading rt sid value quality w)).
Proof.
  rewrite log_reading_run.
  destruct (find _ (sensors w)) as [s |]; [| left; reflexivity].
  destruct (ReadingQuality_of_string quality) as [q |];
    [| left; reflexivity].
  cbv zeta.
  destruct (is_nan value); [left; reflexivity |].
  destruct (is_nan (value + _)); [left; reflexivity |].
  destruct (reading_exists _ _); [left; reflexivity |].
  unfold bind.
  match goal with |- context [check_thresholds rt sid ?x] =>
    pose proof (check_thresholds_effect rt sid x) as (_ & _ & H);
    destruct (check_thresholds rt sid x) as [w1 [o | e]]; exact H
  end.
Qed.

Lemma batch_log_anomaly_ids rt entries w :
  anomaly_ids (fst (batch_log rt entries w)) = anomaly_ids w.
Proof.
  revert w. induction entries as [| e entries IH]; intros w; [reflexivity |].
  simpl. unfold bind at 1.
  pose proof (log_reading_effect rt (entry_sensor_id e) (entry_value e)
                match entry_quality e with Some q => q | None => "good" end w)
    as H.
  apply anomaly_ids_threshold in H.
  destruct (log_reading _ _ _ _ _) as [w1 [r | x]]; simpl in H;
    [| exact H].
  unfold bind. specialize (IH w1).
  destruct (batch_log rt entries w1) as [w2 [rs | x]]; simpl in *; congruence.
Qed.

Lemma mark_sensor_offline_anomaly_ids rt sid w :
  anomaly_ids (fst (mark_sensor_offline rt sid w)) = anomaly_ids w.
Proof.
  unfold mark_sensor_offline, anomaly_ids.
  destruct (_create_alert_effect rt sid OFFLINE WARNING
              ("Sensor " ++ sid ++ " appears offline") w)
    as (_ & _ & [E | E]); rewrite E; [reflexivity |].
  rewrite filter_app. simpl. rewrite app_nil_r. reflexivity.
Qed.

Lemma resolve_alert_anomaly_ids rt aid w :
  anomaly_ids (fst (resolve_alert rt aid w)) = anomaly_ids w.
Proof.
  rewrite resolve_alert_run. unfold anomaly_ids. simpl.
  induction (alerts w) as [| a l IH]; [reflexivity |].
  simpl.
  assert (E : forall now,
    Alert.type (if Alert.id a =? aid
                then Alert.with_resolved_at a now else a) = Alert.type a
    /\ Alert.id (if Alert.id a =? aid
                 then Alert.with_resolved_at a now else a) = Alert.id a)
    by (intros now; destruct (Alert.id a =? aid); split; reflexivity).
  destruct (E (now_at rt (clock_reads w))) as [Ety Eid]. rewrite Ety.
  destruct (AlertType_eqb (Alert.type a) ANOMALY); simpl;
    rewrite ?Eid, IH; reflexivity.
Qed.

Lemma add_sensor_alerts rt dev ty unit mn mx off name loc w :
  alerts (fst (add_sensor rt dev ty unit mn mx off name loc w)) = alerts w.
Proof.
  rewrite add_sensor_run.
  destruct (SensorType_of_string ty) as [stype |]; [| reflexivity].
  cbv zeta.
  repeat match goal with
  | |- context [if ?b then _ else _] => destruct b; [reflexivity |]
  end.
  reflexivity.
Qed.

Lemma update_calibration_alerts sid offset w :
  alerts (fst (update_calibration sid offset w)) = alerts w.
Proof.
  unfold update_calibration, bind, db_conn, update_sensor_offset, with_tables.
  destruct (sensor_exists sid w && is_nan offset); simpl; [reflexivity |].
  match goal with |- context [get_sensor sid ?x] =>
    pose proof (get_sensor_world sid x) as Hw;
    destruct (get_sensor sid x) as [w1 [s | e]]; simpl in Hw; subst w1
  end; reflexivity.
Qed.

(** C8: [log_reading] never runs the anomaly detector.  Whatever it is
    given, it leaves the alerts as they were or appends exactly one alert,
    of type threshold; the stored anomaly alerts are the same before and
    after.  The same holds of every other writing method but
    [detect_anomaly]: [batch_log], [check_thresholds],
    [mark_sensor_offline], [resolve_alert], [add_sensor] and
    [update_calibration] add no anomaly alert. *)
Theorem log_reading_no_anomaly rt w sid value quality :
  let w' := fst (log_reading rt sid value quality w) in
  (alerts w' = alerts w
   \/ exists a, alerts w' = alerts w ++ [a]
                /\ Alert.type a = THRESHOLD /\ Alert.type a <> ANOMALY)
  /\ anomaly_ids w' = anomaly_ids w
  /\ (forall entries,
        anomaly_ids (fst (batch_log rt entries w)) = anomaly_ids w)
  /\ anomaly_ids (fst (check_thresholds rt sid w)) = anomaly_ids w
  /\ anomaly_ids (fst (mark_sensor_offline rt sid w)) = anomaly_ids w
  /\ (forall aid, anomaly_ids (fst (resolve_alert rt aid w)) = anomaly_ids w)
  /\ (forall dev ty unit mn mx off name loc,
        anomaly_ids (fst (add_sensor rt dev ty unit mn mx off name loc w))
        = anomaly_ids w)
  /\ (forall offset,
        anomaly_ids (fst (update_calibration sid offset w)) = anomaly_ids w).
Proof.
  intros w'. subst w'.
  pose proof (log_reading_effect rt sid value quality w) as H.
  split; [| split; [| split; [| split; [| split; [| split; [| split]]]]]].
  - destruct H as [E | (a & E & Ha & _)]; [left; exact E |].
    right. exists a. repeat split; auto. rewrite Ha. discriminate.
  - apply (anomaly_ids_threshold sid), H.
  - intros entries. apply batch_log_anomaly_ids.
  - apply (anomaly_ids_threshold sid), check_thresholds_effect.
  - apply mark_sensor_offline_anomaly_ids.
  - intros aid. apply resolve_alert_anomaly_ids.
  - intros. unfold anomaly_ids. rewrite add_sensor_alerts. reflexivity.
  - intros. unfold anomaly_ids. rewrite update_calibration_alerts.
    reflexivity.
Qed.

(** ** Repeated ingestion *)

Section Repeated.

Context (rt : Runtime).

Lemma uuids_fresh_now w :
  uuids_fresh rt w ->
  reading_exists (uuid_at rt (uuid_draws w)) w = false
  /\ alert_exists (uuid_at rt (S (uuid_draws w))) w = false.
Proof.
  intros [_ H]. split; [apply (H (uuid_draws w)) | apply (H (S (uuid_draws w)))];
    lia.
Qed.

Lemma clock_steady_not_behind sid w :
  clock_steady rt w -> clock_not_behind rt sid w.
Proof. intros [_ H] r Hin _. apply H, Hin. Qed.

(** The assumptions on the uuids and on the clock survive an ingestion
    that raised an alert. *)
Lemma uuids_fresh_step w r a :
  uuids_fresh rt w ->
  Reading.id r = uuid_at rt (uuid_draws w) ->
  Alert.id a = uuid_at rt (S (uuid_draws w)) ->
  uuids_fresh rt (with_alert (with_reading w r) a).
Proof.
  intros [Hinj Hfut] Hr Ha. split; [exact Hinj |].
  intros k Hk. simpl in Hk. destruct (Hfut k ltac:(lia)) as [H1 H2].
  unfold reading_exists, alert_exists in *. simpl.
  rewrite !existsb_app_one, H1, H2, Hr, Ha. simpl. split.
  - apply String.eqb_neq. intros E. apply Hinj in E. lia.
  - apply String.eqb_neq. intros E. apply Hinj in E. lia.
Qed.

Lemma clock_steady_step w r a :
  clock_steady rt w ->
  Reading.timestamp r = now_at rt (clock_reads w) ->
  clock_steady rt (with_alert (with_reading w r) a).
Proof.
  intros [Hmono Hpast] Hr. split; [exact Hmono |].
  intros r' Hin. simpl in *. apply in_app_or in Hin.
  pose proof (Hmono (clock_reads w) (S (S (clock_reads w))) ltac:(lia)) as Hle.
  destruct Hin as [Hin | [<- | []]].
  - specialize (Hpast r' Hin). lia.
  - rewrite Hr. exact Hle.
Qed.

Lemma alert_exists_with_alert aid w r a :
  alert_exists aid (with_alert (with_reading w r) a)
  = alert_exists aid w || (Alert.id a =? aid).
Proof.
  unfold alert_exists. simpl.
  apply (existsb_app_one (fun x => Alert.id x =? aid)).
Qed.

Variables (sid quality : string) (value : float) (s : Sensor.t)
          (q : ReadingQuality).

Hypothesis Hquality : ReadingQuality_of_string quality = Some q.
Hypothesis Hout :
  F64.lt (value + Sensor.calibration_offset s) (Sensor.min_value s) = true
  \/ F64.gt (value + Sensor.calibration_offset s) (Sensor.max_value s) = true.

Let e : Entry :=
  {| entry_sensor_id := sid; entry_value := value;
     entry_quality := Some quality |}.

Lemma batch_log_breaches n w :
  registered sid s w -> uuids_fresh rt w -> clock_steady rt w ->
  exists rs new,
    snd (batch_log rt (repeat e n) w) = Ok rs
    /\ List.length rs = n
    /\ alerts (fst (batch_log rt (repeat e n) w)) = alerts w ++ new
    /\ List.length new = n
    /\ Forall (threshold_alert sid) new
    /\ NoDup (map Alert.id new)
    /\ Forall (fun a => alert_exists (Alert.id a) w = false) new.
Proof.
  revert w. induction n as [| n IH]; intros w Hreg Hfresh Hsteady.
  - exists [], []. simpl. rewrite app_nil_r.
    repeat split; constructor.
  - destruct (uuids_fresh_now w Hfresh) as [Hrid Haid].
    pose proof (log_reading_breach rt sid quality value w s q Hreg Hquality
                  Hrid (clock_steady_not_behind sid w Hsteady) Haid Hout)
      as Hstep.
    cbv zeta in Hstep.
    set (r := new_reading rt w sid value (Sensor.calibration_offset s) q) in *.
    set (a := new_alert rt (with_reading w (Reading.as_stored r)) sid
                THRESHOLD CRITICAL _) in *.
    set (w2 := with_alert (with_reading w (Reading.as_stored r)) a) in *.
    destruct (IH w2) as (rs & new & Hrs & Hlen & Hal & Hnew & Hth & Hnd & Hfr).
    + exact Hreg.
    + apply uuids_fresh_step; [exact Hfresh | reflexivity | reflexivity].
    + apply clock_steady_step; [exact Hsteady | reflexivity].
    + exists (r :: rs), (a :: new).
      change (repeat e (S n)) with (e :: repeat e n).
      cbn [batch_log]. subst e. cbn [entry_sensor_id entry_value entry_quality].
      rewrite (bind_ok _ _ w w2 r Hstep).
      unfold bind. destruct (batch_log rt _ w2) as [w3 [rs' | x]];
        simpl in Hrs, Hal |- *; [| discriminate].
      injection Hrs as ->.
      split; [reflexivity |]. split; [congruence |].
      split; [rewrite Hal; simpl; rewrite <- app_assoc; reflexivity |].
      split; [congruence |].
      split; [constructor; [repeat split | exact Hth] |].
      split.
      * constructor; [| exact Hnd]. intros Hin.
        apply in_map_iff in Hin. destruct Hin as (a' & Eid & Hin).
        rewrite Forall_forall in Hfr. specialize (Hfr a' Hin).
        unfold w2 in Hfr. rewrite alert_exists_with_alert, Eid in Hfr.
        rewrite String.eqb_refl, orb_true_r in Hfr. discriminate.
      * constructor; [exact Haid |].
        rewrite Forall_forall in Hfr |- *. intros a' Hin.
        specialize (Hfr a' Hin). unfold w2 in Hfr.
        rewrite alert_exists_with_alert in Hfr.
        apply orb_false_elim in Hfr. tauto.
Qed.

End Repeated.

(** C7: alerts are not deduplicated.  Ingesting the same out-of-range
    value n times for a registered sensor (by [batch_log], that is n calls
    of [log_reading]), with uuids that do not repeat and a clock that does
    not go back, appends n alerts to whatever alerts there were, active
    ones of the same sensor included: each a critical threshold alert of
    the sensor, their ids different from one another and from the ids
    stored before. *)
Theorem repeated_breach_alerts rt w sid quality value s q n :
  registered sid s w ->
  ReadingQuality_of_string quality = Some q ->
  uuids_fresh rt w ->
  clock_steady rt w ->
  F64.lt (value + Sensor.calibration_offset s) (Sensor.min_value s) = true
  \/ F64.gt (value + Sensor.calibration_offset s) (Sensor.max_value s) = true ->
  let entries :=
    repeat {| entry_sensor_id := sid; entry_value := value;
              entry_quality := Some quality |} n in
  let w' := fst (batch_log rt entries w) in
  exists rs new,
    snd (batch_log rt entries w) = Ok rs
    /\ List.length rs = n
    /\ alerts w' = alerts w ++ new
    /\ List.length new = n
    /\ Forall (threshold_alert sid) new
    /\ NoDup (map Alert.id new)
    /\ Forall (fun a => alert_exists (Alert.id a) w = false) new.
Proof.
  intros Hreg Hq Hfresh Hsteady Hout entries w'.
  exact (batch_log_breaches rt sid quality value s q Hq Hout n w
           Hreg Hfresh Hsteady).
Qed.

Lemma Demo_uuid_inj (i j : nat) : Demo.uuid i = Demo.uuid j -> i = j.
Proof.
  revert j. induction i as [| i IH]; intros [| j] H; simpl in H;
    try reflexivity; try discriminate.
  injection H as H. f_equal. apply IH, H.
Qed.

Lemma Demo_uuids_fresh_one_alert : uuids_fresh Demo.runtime Demo.one_alert.
Proof.
  split; [exact Demo_uuid_inj |].
  intros k Hk. change (uuid_draws Demo.one_alert) with 3 in Hk.
  change (uuid_at Demo.runtime k) with (Demo.uuid k).
  change (reading_exists (Demo.uuid k) Demo.one_alert)
    with ((Demo.uuid 1 =? Demo.uuid k) || false).
  change (alert_exists (Demo.uuid k) Demo.one_alert)
    with ((Demo.uuid 2 =? Demo.uuid k) || false).
  rewrite !orb_false_r.
  split; apply String.eqb_neq; intros E; apply Demo_uuid_inj in E; lia.
Qed.

Lemma Demo_clock_steady_one_alert : clock_steady Demo.runtime Demo.one_alert.
Proof.
  split.
  - intros i j Hij. cbn [now_at Demo.runtime]. lia.
  - intros r [<- | []]. vm_compute. discriminate.
Qed.

(** 50.0 twice more on the sensor of range [0, 40] that already has an
    active alert for 50.0: two more alerts. *)
Lemma repeated_breach_alerts_witness :
  let entries :=
    repeat {| entry_sensor_id := Demo.uuid 0; entry_value := 50%float;
              entry_quality := Some "good" |} 2 in
  exists new,
    alerts (fst (batch_log Demo.runtime entries Demo.one_alert))
    = alerts Demo.one_alert ++ new
    /\ List.length new = 2
    /\ Forall (threshold_alert (Demo.uuid 0)) new
    /\ NoDup (map Alert.id new).
Proof.
  intros entries.
  destruct (repeated_breach_alerts Demo.runtime Demo.one_alert (Demo.uuid 0)
              "good" 50%float
              (Sensor.mk (Demo.uuid 0) "dev-3" TEMPERATURE "C"
                         0%float 40%float 0%float None None)
              GOOD 2 eq_refl eq_refl Demo_uuids_fresh_one_alert
              Demo_clock_steady_one_alert (or_intror eq_refl))
    as (rs & new & _ & _ & Hal & Hlen & Hth & Hnd & _).
  exists new. repeat split; assumption.
Defined.

(** C7, as the claim has it, fails: when 20.0 was ingested and the
    clock is then set back by ten microseconds, three ingestions of
    50.0 on the sensor of range [0, 40] store three readings of 50.0 and
    create no alert, since each time [check_thresholds] tests the reading
    of 20.0, which has the greatest timestamp. *)
Lemma breaches_after_clock_set_back :
  let w := Demo.exec (log_reading Demo.clock_back_once (Demo.uuid 0) 20%float
                        "good") Demo.one_sensor in
  let entries :=
    repeat {| entry_sensor_id := Demo.uuid 0; entry_value := 50%float;
              entry_quality := Some "good" |} 3 in
  let w' := fst (batch_log Demo.clock_back_once entries w) in
  registered (Demo.uuid 0)
    (Sensor.mk (Demo.uuid 0) "dev-3" TEMPERATURE "C"
               0%float 40%float 0%float None None) w
  /\ uuids_fresh Demo.clock_back_once w
  /\ F64.gt (50 + 0)%float 40%float = true
  /\ (exists rs,
        snd (batch_log Demo.clock_back_once entries w) = Ok rs
        /\ List.length rs = 3
        /\ Forall (fun r => Reading.calibrated_value r = 50%float) rs)
  /\ map Reading.calibrated_value (readings w') = [20; 50; 50; 50]%float
  /\ alerts w = []
  /\ alerts w' = [].
Proof.
  cbv zeta. split; [reflexivity |].
  split.
  { split; [exact Demo_uuid_inj |].
    intros k Hk.
    change (uuid_at Demo.clock_back_once k) with (Demo.uuid k).
    split; [| reflexivity].
    match goal with |- reading_exists _ ?w = false =>
      change (reading_exists (Demo.uuid k) w)
        with ((Demo.uuid 1 =? Demo.uuid k) || false)
    end.
    rewrite orb_false_r.
    apply String.eqb_neq. intros E. apply Demo_uuid_inj in E.
    subst k. vm_compute in Hk. lia. }
  split; [reflexivity |].
  split.
  { eexists. split; [vm_compute; reflexivity |].
    split; [reflexivity |]. repeat constructor. }
  split; [vm_compute; reflexivity |].
  split; vm_compute; reflexivity.
Qed.

(** ** ORDER BY timestamp *)

Lemma insert_by_timestamp_perm r l :
  Permutation (insert_by_timestamp r l) (r :: l).
Proof.
  induction l as [| x l IH]; simpl; [reflexivity |].
  destruct (_ <=? _)%Z; [reflexivity |].
  rewrite IH. apply perm_swap.
Qed.

Lemma order_by_timestamp_perm l : Permutation (order_by_timestamp l) l.
Proof.
  induction l as [| x l IH]; simpl; [reflexivity |].
  rewrite insert_by_timestamp_perm. constructor. exact IH.
Qed.

Lemma insert_by_timestamp_sorted r l :
  StronglySorted not_after l ->
  StronglySorted not_after (insert_by_timestamp r l).
Proof.
  induction 1 as [| x l Hs IH Hx]; simpl.
  - constructor; constructor.
  - destruct (Z.leb_spec (Reading.timestamp r) (Reading.timestamp x)).
    + constructor; [constructor; assumption |].
      constructor; [assumption |].
      eapply Forall_impl; [| exact Hx]. unfold not_after. intros; lia.
    + constructor; [exact IH |].
      apply (Permutation_Forall
               (Permutation_sym (insert_by_timestamp_perm r l))).
      constructor; [| exact Hx]. unfold not_after. lia.
Qed.

Lemma order_by_timestamp_sorted l :
  StronglySorted not_after (order_by_timestamp l).
Proof.
  induction l as [| x l IH]; simpl; [constructor |].
  apply insert_by_timestamp_sorted, IH.
Qed.

(** A row that is not after the first of the others goes in front. *)
Lemma insert_by_timestamp_front r l :
  Forall (not_after r) l -> insert_by_timestamp r l = r :: l.
Proof.
  destruct l as [| x l]; [reflexivity |]. intros H. simpl.
  apply Forall_inv in H. unfold not_after in H.
  destruct (Z.leb_spec (Reading.timestamp r) (Reading.timestamp x));
    [reflexivity | lia].
Qed.

(** WHERE commutes with ORDER BY. *)
Lemma filter_insert_by_timestamp (p : Reading.t -> bool) r l :
  StronglySorted not_after l ->
  filter p (insert_by_timestamp r l)
  = if p r then insert_by_timestamp r (filter p l) else filter p l.
Proof.
  induction 1 as [| x l Hs IH Hx]; simpl.
  - destruct (p r); reflexivity.
  - destruct (Z.leb_spec (Reading.timestamp r) (Reading.timestamp x)) as [Hle | Hgt].
    + simpl. destruct (p r); [| reflexivity].
      symmetry. apply insert_by_timestamp_front.
      assert (Hall : Forall (not_after r) (x :: l)).
      { constructor; [exact Hle |].
        eapply Forall_impl; [| exact Hx]. unfold not_after. intros; lia. }
      rewrite Forall_forall in Hall |- *. intros y Hy.
      apply Hall. change (In y (filter p (x :: l))) in Hy.
      apply filter_In in Hy. tauto.
    + simpl. rewrite IH. destruct (p x), (p r); simpl; try reflexivity.
      destruct (Z.leb_spec (Reading.timestamp r) (Reading.timestamp x));
        [lia | reflexivity].
Qed.

Lemma filter_order_by_timestamp (p : Reading.t -> bool) l :
  filter p (order_by_timestamp l) = order_by_timestamp (filter p l).
Proof.
  induction l as [| x l IH]; simpl; [reflexivity |].
  rewrite filter_insert_by_timestamp by apply order_by_timestamp_sorted.
  rewrite IH. destruct (p x); reflexivity.
Qed.

(** The last row of a sorted list is the most recent. *)
Lemma sorted_last_most_recent l d :
  StronglySorted not_after l -> l <> [] ->
  In (last l d) l /\ Forall (fun x => not_after x (last l d)) l.
Proof.
  induction 1 as [| x l Hs IH Hx]; intros Hne; [congruence |].
  destruct l as [| y l].
  - simpl. split; [left; reflexivity |].
    constructor; [unfold not_after; lia | constructor].
  - destruct (IH ltac:(discriminate)) as [Hin Hall].
    change (last (x :: y :: l) d) with (last (y :: l) d).
    split; [right; exact Hin |].
    constructor; [| exact Hall].
    rewrite Forall_forall in Hx. apply Hx, Hin.
Qed.

Lemma last_map {A B} (f : A -> B) (l : list A) (d : A) :
  last (map f l) (f d) = f (last l d).
Proof.
  induction l as [| x l IH]; [reflexivity |].
  destruct l; [reflexivity | exact IH].
Qed.

Lemma last_default {A} (l : list A) (d d' : A) :
  l <> [] -> last l d = last l d'.
Proof.
  induction l as [| x l IH]; [congruence |]. intros _.
  destruct l; [reflexivity |]. apply IH. discriminate.
Qed.

(** Two filters, the inner one implied on what the outer keeps. *)
Lemma filter_filter_implied {A} (p q : A -> bool) (l : list A) :
  (forall x, q x = true -> p x = true) ->
  filter q (filter p l) = filter q l.
Proof.
  intros H. induction l as [| x l IH]; simpl; [reflexivity |].
  destruct (p x) eqn:Ep; simpl; rewrite IH; [reflexivity |].
  destruct (q x) eqn:Eq; [| reflexivity].
  apply H in Eq. congruence.
Qed.

Lemma filter_comm {A} (p q : A -> bool) (l : list A) :
  filter p (filter q l) = filter q (filter p l).
Proof.
  induction l as [| x l IH]; simpl; [reflexivity |].
  destruct (p x) eqn:Ep, (q x) eqn:Eq; simpl; rewrite ?Ep, ?Eq, IH;
    reflexivity.
Qed.

(** ** Dates *)

Lemma minus_timedelta_since now amount unit_us since :
  minus_timedelta now amount unit_us = Ok since ->
  since = (now - amount * unit_us)%Z /\ in_datetime_range since.
Proof.
  unfold minus_timedelta, in_datetime_range. cbv zeta.
  destruct (_ || _); [discriminate |].
  destruct (_ || _); [discriminate |].
  destruct (_ || _) eqn:E; [discriminate |].
  intros H. injection H as <-. apply orb_false_elim in E.
  destruct E as [E1 E2]. apply Z.ltb_ge in E1, E2.
  split; [reflexivity | lia].
Qed.

(** Between two datetimes there are fewer days than a [timedelta]
    holds. *)
Lemma minus_timedelta_ok now amount unit_us :
  in_datetime_range now -> in_datetime_range (now - amount * unit_us) ->
  minus_timedelta now amount unit_us = Ok (now - amount * unit_us)%Z.
Proof.
  unfold minus_timedelta, in_datetime_range, DATETIME_MAX.
  intros Hn Hs. cbv zeta.
  set (us := (amount * unit_us)%Z) in *.
  pose proof (Z.div_mod us 86400000000 ltac:(lia)) as Hd.
  pose proof (Z.mod_pos_bound us 86400000000 ltac:(lia)) as Hm.
  set (d := (us / 86400000000)%Z) in *.
  assert (Hdays : (-3652060 <= d <= 3652059)%Z) by lia.
  destruct (Z.ltb_spec d (-2147483648)); [lia |].
  destruct (Z.ltb_spec 2147483647 d); [lia |].
  destruct (Z.ltb_spec d (-999999999)); [lia |].
  destruct (Z.ltb_spec 999999999 d); [lia |].
  destruct (Z.ltb_spec (now - us) 0); [lia |].
  destruct (Z.ltb_spec 315537897599999999 (now - us)); [lia |].
  reflexivity.
Qed.

Lemma minus_timedelta_raises now amount unit_us e :
  minus_timedelta now amount unit_us = Raise e ->
  exists msg, e = OverflowError msg.
Proof.
  unfold minus_timedelta. cbv zeta.
  destruct (_ || _); [intros H; injection H as <-; eauto |].
  destruct (_ || _); [intros H; injection H as <-; eauto |].
  destruct (_ || _); [intros H; injection H as <-; eauto | discriminate].
Qed.

Lemma minus_timedelta_overflow now amount unit_us :
  ~ in_datetime_range (now - amount * unit_us) ->
  exists msg, minus_timedelta now amount unit_us = Raise (OverflowError msg).
Proof.
  intros H. destruct (minus_timedelta now amount unit_us) as [t | e] eqn:E.
  - apply minus_timedelta_since in E. destruct E as [-> E]. contradiction.
  - destruct (minus_timedelta_raises _ _ _ _ E) as [msg ->]. eauto.
Qed.

(** ** Anomaly detection, step by step *)

Section Anomaly.

Context (rt : Runtime).

(** [detect_anomaly] once the clock was read, the start of the window
    computed and the values fetched. *)
Lemma detect_anomaly_run sid window z_threshold w :
  detect_anomaly rt sid window z_threshold w
  = match minus_timedelta (now_at rt (clock_reads w)) window 60000000 with
    | Raise e => (tick w, Raise e)
    | Ok since =>
        let values :=
          map Reading.calibrated_value
              (order_by_timestamp (qualifying_rows sid since w)) in
        if (List.length values <? 5)%nat then (tick w, Ok None)
        else
          match statistics_mean rt values, statistics_stdev rt values with
          | Raise e, _ => (tick w, Raise e)
          | Ok _, Raise e => (tick w, Raise e)
          | Ok mean, Ok stdev =>
              if F64.eq stdev 0%float then (tick w, Ok None)
              else
                let latest := last values 0%float in
                let z := abs ((latest - mean) / stdev)%float in
                if F64.gt z z_threshold then
                  bind (_create_alert rt sid ANOMALY
                          (if F64.gt z (z_threshold * 1.5)%float
                           then CRITICAL else WARNING)
                          (anomaly_message rt latest z mean stdev))
                       (fun a => ret (Some a)) (tick w)
                else (tick w, Ok None)
          end
    end.
Proof.
  unfold detect_anomaly.
  unfold bind at 1. unfold utcnow at 1.
  unfold bind at 1. unfold call at 1. cbn [readings clock_reads].
  fold (tick w).
  destruct (minus_timedelta _ _ _) as [since | e]; [| reflexivity].
  unfold bind at 1. unfold db_conn at 1, select_qualifying_values.
  cbn [readings].
  change (filter (qualifying sid since) (readings w))
    with (qualifying_rows sid since w).
  cbv zeta.
  destruct (_ <? _)%nat; [reflexivity |].
  unfold bind at 1. unfold call at 1.
  destruct (statistics_mean rt _) as [mean | e]; [| reflexivity].
  unfold bind at 1. unfold call at 1.
  destruct (statistics_stdev rt _) as [stdev | e]; [| reflexivity].
  destruct (F64.eq _ _); [reflexivity |].
  destruct (F64.gt _ z_threshold); reflexivity.
Qed.

(** The same when the window starts at a datetime. *)
Lemma detect_anomaly_in_range sid window z_threshold w :
  in_datetime_range (now_at rt (clock_reads w)) ->
  in_datetime_range (window_start rt w window) ->
  let values :=
    map Reading.calibrated_value
        (order_by_timestamp
           (qualifying_rows sid (window_start rt w window) w)) in
  detect_anomaly rt sid window z_threshold w
  = if (List.length values <? 5)%nat then (tick w, Ok None)
    else
      match statistics_mean rt values, statistics_stdev rt values with
      | Raise e, _ => (tick w, Raise e)
      | Ok _, Raise e => (tick w, Raise e)
      | Ok mean, Ok stdev =>
          if F64.eq stdev 0%float then (tick w, Ok None)
          else
            let latest := last values 0%float in
            let z := abs ((latest - mean) / stdev)%float in
            if F64.gt z z_threshold then
              bind (_create_alert rt sid ANOMALY
                      (if F64.gt z (z_threshold * 1.5)%float
                       then CRITICAL else WARNING)
                      (anomaly_message rt latest z mean stdev))
                   (fun a => ret (Some a)) (tick w)
            else (tick w, Ok None)
      end.
Proof.
  intros Hnow Hstart values. rewrite detect_anomaly_run.
  rewrite (minus_timedelta_ok _ _ _ Hnow Hstart). reflexivity.
Qed.

(** A window that starts outside the range of [datetime]: the call
    raises [OverflowError] once the clock was read. *)
Lemma detect_anomaly_overflow sid window z_threshold w :
  ~ in_datetime_range (window_start rt w window) ->
  exists msg,
    detect_anomaly rt sid window z_threshold w
    = (tick w, Raise (OverflowError msg)).
Proof.
  intros H. rewrite detect_anomaly_run.
  destruct (minus_timedelta_overflow _ _ _ H) as [msg ->]. eauto.
Qed.

End Anomaly.

(** C2, as the program has it: when the window starts at a datetime and
    there are fewer than 5 qualifying points (readings of the sensor in
    the window whose quality is not "error"), and likewise when the
    sample standard deviation [statistics.stdev] returns for the
    qualifying values equals 0, [detect_anomaly] returns [None] and
    writes nothing.  When the window starts outside the range of
    [datetime] it raises [OverflowError], whatever the points, and writes
    nothing either. *)
Theorem detect_anomaly_none rt w sid window z_threshold :
  in_datetime_range (now_at rt (clock_reads w)) ->
  let points := qualifying_rows sid (window_start rt w window) w in
  let values := map Reading.calibrated_value (order_by_timestamp points) in
  (in_datetime_range (window_start rt w window) ->
   List.length points < 5
   \/ (exists mean stdev,
         statistics_mean rt values = Ok mean
         /\ statistics_stdev rt values = Ok stdev
         /\ F64.eq stdev 0%float = true) ->
   detect_anomaly rt sid window z_threshold w = (tick w, Ok None)
   /\ alerts (fst (detect_anomaly rt sid window z_threshold w)) = alerts w)
  /\ (~ in_datetime_range (window_start rt w window) ->
      (exists msg,
         detect_anomaly rt sid window z_threshold w
         = (tick w, Raise (OverflowError msg)))
      /\ alerts (fst (detect_anomaly rt sid window z_threshold w))
         = alerts w).
Proof.
  intros Hnow points values. split.
  - intros Hstart H.
    assert (E : detect_anomaly rt sid window z_threshold w
                = (tick w, Ok None)).
    { rewrite (detect_anomaly_in_range rt sid window z_threshold w Hnow
                 Hstart).
      fold points. fold values.
      destruct (Nat.ltb_spec (List.length values) 5) as [Hlt | Hge];
        [reflexivity |].
      destruct H as [H | (mean & stdev & Hm & Hs & H0)].
      - exfalso. unfold values in Hge.
        rewrite length_map,
          (Permutation_length (order_by_timestamp_perm _)) in Hge.
        lia.
      - rewrite Hm, Hs, H0. reflexivity. }
    rewrite E. split; reflexivity.
  - intros Hstart.
    destruct (detect_anomaly_overflow rt sid window z_threshold w Hstart)
      as [msg E].
    rewrite E. split; [eauto | reflexivity].
Qed.

Lemma Demo_now_in_range (n : nat) :
  n <= 1000 -> in_datetime_range (now_at Demo.runtime n).
Proof.
  intros H. unfold in_datetime_range, DATETIME_MAX.
  cbn [now_at Demo.runtime]. unfold Demo.t0. lia.
Qed.

Lemma Demo_window_in_range (w : World) (window : Z) :
  clock_reads w <= 1000 -> (0 <= window <= 1000000)%Z ->
  in_datetime_range (window_start Demo.runtime w window).
Proof.
  intros H Hw. unfold in_datetime_range, DATETIME_MAX, window_start.
  cbn [now_at Demo.runtime]. unfold Demo.t0. lia.
Qed.

(** Two points only; and five equal points, of standard deviation 0. *)
Lemma detect_anomaly_none_witness :
  detect_anomaly Demo.runtime (Demo.uuid 0) 60 2.5%float Demo.few
  = (tick Demo.few, Ok None)
  /\ detect_anomaly Demo.runtime (Demo.uuid 0) 60 2.5%float Demo.flat
     = (tick Demo.flat, Ok None).
Proof.
  assert (Hfew : in_datetime_range
                   (now_at Demo.runtime (clock_reads Demo.few)))
    by (apply Demo_now_in_range; vm_compute; lia).
  assert (Hflat : in_datetime_range
                    (now_at Demo.runtime (clock_reads Demo.flat)))
    by (apply Demo_now_in_range; vm_compute; lia).
  split.
  - apply (proj1 (detect_anomaly_none Demo.runtime Demo.few (Demo.uuid 0) 60
                    2.5%float Hfew)).
    + apply Demo_window_in_range; [vm_compute |]; lia.
    + left. vm_compute. lia.
  - apply (proj1 (detect_anomaly_none Demo.runtime Demo.flat (Demo.uuid 0) 60
                    2.5%float Hflat)).
    + apply Demo_window_in_range; [vm_compute |]; lia.
    + right. eexists. eexists. repeat split; reflexivity.
Defined.

(** C2, as the claim has it, fails: with two readings and a window of
    minus 10^12 minutes, no reading is in the window, which would start
    after the year 9999, and [detect_anomaly] does not return [None]: it
    raises [OverflowError]. *)
Lemma detect_anomaly_window_overflow :
  List.length (qualifying_rows (Demo.uuid 0)
                 (window_start Demo.runtime Demo.few (-1000000000000))
                 Demo.few) < 5
  /\ detect_anomaly Demo.runtime (Demo.uuid 0) (-1000000000000) 2.5%float
       Demo.few
     = (tick Demo.few, Raise (OverflowError "date value out of range")).
Proof.
  split; [vm_compute; lia | vm_compute; reflexivity].
Qed.

(** ** The sample statistics do not depend on the order of the sample *)

Module ExactFacts.

Import QArith_base Qabs Exact.

Lemma exact_values_perm xs ys :
  Permutation xs ys ->
  forall qs, exact_values xs = Some qs ->
  exists qs', exact_values ys = Some qs' /\ Permutation qs qs'.
Proof.
  induction 1 as [| x l l' Hp IH | x y l | l l' l'' H1 IH1 H2 IH2];
    intros qs E.
  - exists qs. split; [exact E | reflexivity].
  - simpl in E |- *. destruct (Q_of_float x) as [q |]; [| discriminate].
    destruct (exact_values l) as [ql |]; [| discriminate].
    injection E as <-. destruct (IH ql eq_refl) as (ql' & -> & Hq).
    exists (q :: ql'). split; [reflexivity | constructor; exact Hq].
  - simpl in E |- *.
    destruct (Q_of_float y) as [qy |]; [| discriminate].
    destruct (Q_of_float x) as [qx |]; [| discriminate].
    destruct (exact_values l) as [ql |]; [| discriminate].
    injection E as <-. exists (qx :: qy :: ql).
    split; [reflexivity | apply perm_swap].
  - destruct (IH1 qs E) as (q1 & E1 & P1).
    destruct (IH2 q1 E1) as (q2 & E2 & P2).
    exists q2. split; [exact E2 | exact (perm_trans P1 P2)].
Qed.

Lemma Qsum_perm qs qs' : Permutation qs qs' -> (Qsum qs == Qsum qs')%Q.
Proof.
  induction 1 as [| x l l' Hp IH | x y l | l l' l'' H1 IH1 H2 IH2]; simpl.
  - reflexivity.
  - rewrite IH. reflexivity.
  - ring.
  - rewrite IH1. exact IH2.
Qed.

Lemma Qsum_map_ext (f g : Q -> Q) (l : list Q) :
  (forall q, (f q == g q)%Q) -> (Qsum (map f l) == Qsum (map g l))%Q.
Proof.
  intros H. induction l as [| x l IH]; simpl; [reflexivity |].
  rewrite IH, (H x). reflexivity.
Qed.

Lemma exact_mean_perm qs qs' :
  Permutation qs qs' -> (exact_mean qs == exact_mean qs')%Q.
Proof.
  intros H. unfold exact_mean.
  rewrite (Qsum_perm _ _ H), (Permutation_length H). reflexivity.
Qed.

Lemma bessel_variance_perm qs qs' :
  Permutation qs qs' -> (bessel_variance qs == bessel_variance qs')%Q.
Proof.
  intros H. unfold bessel_variance.
  rewrite (Permutation_length H).
  rewrite (Qsum_perm _ _ (Permutation_map _ H)).
  rewrite (Qsum_map_ext
             (fun q => (q - exact_mean qs) * (q - exact_mean qs))%Q
             (fun q => (q - exact_mean qs') * (q - exact_mean qs'))%Q).
  - reflexivity.
  - intros q. rewrite (exact_mean_perm _ _ H). reflexivity.
Qed.

Lemma is_sample_mean_perm xs ys m :
  Permutation xs ys -> is_sample_mean xs m -> is_sample_mean ys m.
Proof.
  intros Hp (qs & mq & E & Em & H).
  destruct (exact_values_perm _ _ Hp qs E) as (qs' & E' & Hq).
  exists qs', mq. split; [exact E' |]. split; [exact Em |].
  rewrite <- (exact_mean_perm _ _ Hq). exact H.
Qed.

Lemma is_sample_stdev_perm xs ys s :
  Permutation xs ys -> is_sample_stdev xs s -> is_sample_stdev ys s.
Proof.
  intros Hp (qs & sq & E & Es & H0 & Hlo & Hhi).
  destruct (exact_values_perm _ _ Hp qs E) as (qs' & E' & Hq).
  exists qs', sq. split; [exact E' |]. split; [exact Es |].
  split; [exact H0 |].
  rewrite <- (bessel_variance_perm _ _ Hq). split; assumption.
Qed.

End ExactFacts.

(** C3, as the program has it: when the window starts at a datetime, with
    at least 5 qualifying points whose standard deviation is not 0,
    [detect_anomaly] takes all the qualifying readings of the window, the
    most recent one included, and computes
    [z = |latest - mean| / stddev] where [latest] is the value of the most
    recent of them and [mean] and [stddev] are what [statistics.mean] and
    [statistics.stdev] return for all their values: the mean and the
    Bessel-corrected sample standard deviation (the square root of the
    sum of the squared deviations divided by n-1), as the library
    promises for the sample it is given.  So [mean] and [stddev] are the
    mean and the Bessel-corrected standard deviation of the values of all
    the qualifying points.  It appends an anomaly alert exactly when
    [z > z_threshold]: CRITICAL when [z > z_threshold * 1.5], WARNING
    otherwise. *)
Theorem detect_anomaly_z_score rt w sid window z_threshold s mean stddev :
  registered sid s w ->
  alert_exists (uuid_at rt (uuid_draws w)) w = false ->
  in_datetime_range (now_at rt (clock_reads w)) ->
  in_datetime_range (window_start rt w window) ->
  let points := qualifying_rows sid (window_start rt w window) w in
  let values := map Reading.calibrated_value (order_by_timestamp points) in
  5 <= List.length points ->
  statistics_mean rt values = Ok mean ->
  statistics_stdev rt values = Ok stddev ->
  Exact.is_sample_mean values mean ->
  Exact.is_sample_stdev values stddev ->
  F64.eq stddev 0%float = false ->
  let latest := last values 0%float in
  let z := abs ((latest - mean) / stddev)%float in
  let w' := fst (detect_anomaly rt sid window z_threshold w) in
  let returned := snd (detect_anomaly rt sid window z_threshold w) in
  Permutation values (map Reading.calibrated_value points)
  /\ List.length values = List.length points
  /\ Exact.is_sample_mean (map Reading.calibrated_value points) mean
  /\ Exact.is_sample_stdev (map Reading.calibrated_value points) stddev
  /\ (exists r, In r points /\ Reading.calibrated_value r = latest
                /\ Forall (fun r' => not_after r' r) points)
  /\ (F64.gt z z_threshold = true ->
        exists a,
          returned = Ok (Some a)
          /\ alerts w' = alerts w ++ [a]
          /\ Alert.type a = ANOMALY
          /\ Alert.sensor_id a = sid
          /\ Alert.severity a
             = if F64.gt z (z_threshold * 1.5)%float
               then CRITICAL else WARNING)
  /\ (F64.gt z z_threshold = false ->
        returned = Ok None /\ alerts w' = alerts w).
Proof.
  intros Hreg Haid Hnow Hstart points values Hlen Hmean Hstd Hm_spec Hsd_spec
    Hsd latest z w' returned.
  assert (Hperm : Permutation (order_by_timestamp points) points)
    by apply order_by_timestamp_perm.
  assert (Hne : order_by_timestamp points <> []).
  { intros E. rewrite E in Hperm. apply Permutation_length in Hperm.
    simpl in Hperm. lia. }
  split; [apply Permutation_map, Hperm |].
  split; [unfold values; rewrite length_map;
          apply Permutation_length, Hperm |].
  split; [exact (ExactFacts.is_sample_mean_perm _ _ _
                   (Permutation_map _ Hperm) Hm_spec) |].
  split; [exact (ExactFacts.is_sample_stdev_perm _ _ _
                   (Permutation_map _ Hperm) Hsd_spec) |].
  split.
  { set (d := Reading.mk "" "" 0%float 0%float 0%Z GOOD).
    destruct (sorted_last_most_recent (order_by_timestamp points) d
                (order_by_timestamp_sorted points) Hne) as [Hin Hall].
    exists (last (order_by_timestamp points) d). split; [| split].
    - apply (Permutation_in _ Hperm), Hin.
    - subst latest values.
      rewrite <- (last_map Reading.calibrated_value _ d).
      apply last_default. intros E. apply map_eq_nil in E. exact (Hne E).
    - apply (Permutation_Forall Hperm), Hall. }
  subst w' returned.
  rewrite (detect_anomaly_in_range rt sid window z_threshold w Hnow Hstart).
  fold points. fold values.
  assert (Hn : (List.length values <? 5)%nat = false).
  { apply Nat.ltb_ge. subst values.
    rewrite length_map, (Permutation_length Hperm). exact Hlen. }
  rewrite Hn, Hmean, Hstd, Hsd. cbv zeta. fold latest. fold z.
  split.
  - intros Hz. rewrite Hz.
    rewrite (bind_ok _ _ _ _ _
               (_create_alert_ok rt sid ANOMALY _ _ (tick w) Haid
                  (registered_exists _ _ _ Hreg))).
    simpl. eexists. repeat split.
  - intros Hz. rewrite Hz. split; reflexivity.
Qed.

(** The textbook formulas of the example runtime give the sample
    statistics of the two samples of the test suite. *)
Lemma Demo_sample_statistics (xs : list float) (m sd : float) :
  Demo.mean xs = Ok m -> Demo.stdev xs = Ok sd ->
  xs = (repeat 22 10 ++ [100])%float
  \/ xs = [22; 22.125; 22.25; 22; 21.875]%float ->
  Exact.is_sample_mean xs m /\ Exact.is_sample_stdev xs sd.
Proof.
  intros Hm Hsd [-> | ->]; vm_compute in Hm, Hsd;
    injection Hm as <-; injection Hsd as <-.
  all: split.
  all: eexists; eexists.
  all: (split; [vm_compute; reflexivity |]).
  all: (split; [vm_compute; reflexivity |]).
  all: repeat split; vm_compute; discriminate.
Qed.

(** The two anomaly scenarios of the test suite: ten readings of 22.0 and
    one of 100.0 with threshold 2.0 raise an alert (z is about 3.02, above
    2.0 * 1.5), five readings close to 22 with threshold 2.5 raise none. *)
Lemma detect_anomaly_z_score_witness :
  (exists a,
     snd (detect_anomaly Demo.runtime (Demo.uuid 0) 60 2%float Demo.spiked)
     = Ok (Some a)
     /\ Alert.type a = ANOMALY /\ Alert.severity a = CRITICAL)
  /\ snd (detect_anomaly Demo.runtime (Demo.uuid 0) 60 2.5%float Demo.steady)
     = Ok None.
Proof.
  pose (sensor := Sensor.mk (Demo.uuid 0) "dev-1" TEMPERATURE "C"
                            (-40)%float 85%float 0%float
                            (Some "Room Temp") (Some "Office")).
  split.
  - edestruct (detect_anomaly_z_score Demo.runtime Demo.spiked (Demo.uuid 0)
                 60 2%float sensor)
      as (_ & _ & _ & _ & _ & H & _).
    + reflexivity.
    + reflexivity.
    + apply Demo_now_in_range. vm_compute. lia.
    + apply Demo_window_in_range; [vm_compute |]; lia.
    + vm_compute. lia.
    + vm_compute. reflexivity.
    + vm_compute. reflexivity.
    + exact (proj1 (Demo_sample_statistics (repeat 22 10 ++ [100])%float
                      _ _ eq_refl eq_refl (or_introl eq_refl))).
    + exact (proj2 (Demo_sample_statistics (repeat 22 10 ++ [100])%float
                      _ _ eq_refl eq_refl (or_introl eq_refl))).
    + reflexivity.
    + destruct (H eq_refl) as (a & E & _ & Ty & _ & Sev).
      exists a. split; [exact E | split; [exact Ty | exact Sev]].
  - edestruct (detect_anomaly_z_score Demo.runtime Demo.steady (Demo.uuid 0)
                 60 2.5%float sensor)
      as (_ & _ & _ & _ & _ & _ & H).
    + reflexivity.
    + reflexivity.
    + apply Demo_now_in_range. vm_compute. lia.
    + apply Demo_window_in_range; [vm_compute |]; lia.
    + vm_compute. lia.
    + vm_compute. reflexivity.
    + vm_compute. reflexivity.
    + exact (proj1 (Demo_sample_statistics
                      [22; 22.125; 22.25; 22; 21.875]%float
                      _ _ eq_refl eq_refl (or_intror eq_refl))).
    + exact (proj2 (Demo_sample_statistics
                      [22; 22.125; 22.25; 22; 21.875]%float
                      _ _ eq_refl eq_refl (or_intror eq_refl))).
    + reflexivity.
    + apply (H eq_refl).
Defined.

(** C3, as the claim has it, fails: with ten readings of 22.0 and one of
    100.0 and a window of 10^12 minutes, every reading is later than the
    start of the window, the sample statistics give a z-score above the
    threshold 2.0, and [detect_anomaly] emits no alert: the window would
    start before the year 1 and the call raises [OverflowError]. *)
Lemma detect_anomaly_z_score_overflow :
  let points := qualifying_rows (Demo.uuid 0)
                  (window_start Demo.runtime Demo.spiked 1000000000000)
                  Demo.spiked in
  let values := map Reading.calibrated_value (order_by_timestamp points) in
  List.length points = 11
  /\ (exists mean stddev,
        statistics_mean Demo.runtime values = Ok mean
        /\ statistics_stdev Demo.runtime values = Ok stddev
        /\ F64.eq stddev 0%float = false
        /\ F64.gt (abs ((last values 0 - mean) / stddev))%float 2%float
           = true)
  /\ detect_anomaly Demo.runtime (Demo.uuid 0) 1000000000000 2%float
       Demo.spiked
     = (tick Demo.spiked, Raise (OverflowError "date value out of range"))
  /\ alerts (fst (detect_anomaly Demo.runtime (Demo.uuid 0) 1000000000000
                    2%float Demo.spiked))
     = alerts Demo.spiked.
Proof.
  split; [vm_compute; reflexivity |].
  split; [eexists; eexists; repeat split; vm_compute; reflexivity |].
  split; vm_compute; reflexivity.
Qed.

(** ** Readings of quality "error" *)

Lemma qualifying_without_errors sid since w :
  qualifying_rows sid since (without_errors w) = qualifying_rows sid since w.
Proof.
  unfold qualifying_rows, without_errors. cbn [readings].
  apply filter_filter_implied. intros x H. unfold qualifying in H.
  apply andb_prop in H. tauto.
Qed.

(** The rows [get_stats] keeps are the same with and without the error
    readings in the table. *)
Lemma stats_rows_without_errors (p : Reading.t -> bool) l :
  let ok := fun r => negb (is_error (Reading.quality r)) in
  filter ok (order_by_timestamp (filter p (filter ok l)))
  = filter ok (order_by_timestamp (filter p l)).
Proof.
  intros ok. rewrite !filter_order_by_timestamp. f_equal.
  rewrite (filter_comm p ok l).
  apply filter_filter_implied. intros x H. exact H.
Qed.

(** [get_history] once the clock was read and the start of the window
    computed. *)
Lemma get_history_run rt sid hours quality_filter w :
  get_history rt sid hours quality_filter w
  = match minus_timedelta (now_at rt (clock_reads w)) hours 3600000000 with
    | Raise e => (tick w, Raise e)
    | Ok since =>
        (tick w,
         Ok (order_by_timestamp
               (filter
                  (fun r =>
                     (Reading.sensor_id r =? sid)
                     && (since <=? Reading.timestamp r)%Z
                     && match quality_filter with
                        | None | Some EmptyString => true
                        | Some q =>
                            ReadingQuality_value (Reading.quality r) =? q
                        end)
                  (readings w))))
    end.
Proof.
  unfold get_history.
  unfold bind at 1. unfold utcnow at 1.
  unfold bind at 1. unfold call at 1. fold (tick w).
  destruct (minus_timedelta _ _ _) as [since | e]; [| reflexivity].
  unfold db_conn, select_history. cbn [readings fst snd].
  destruct quality_filter as [[| c q] |]; reflexivity.
Qed.

(** [get_stats] computes its statistics from the values of the fetched
    rows whose quality is not "error". *)
Lemma get_stats_run rt sid hours w :
  snd (get_stats rt sid hours w)
  = match minus_timedelta (now_at rt (clock_reads w)) hours 3600000000 with
    | Raise e => Raise e
    | Ok _ =>
        stats_of rt
          (map Reading.calibrated_value
               (filter (fun r => negb (is_error (Reading.quality r)))
                       (history_rows rt sid hours w)))
    end.
Proof.
  unfold get_stats. unfold bind at 1. rewrite get_history_run.
  destruct (minus_timedelta _ _ _) as [since | e] eqn:E; [| reflexivity].
  apply minus_timedelta_since in E. destruct E as [-> _].
  fold (history_rows rt sid hours w).
  unfold stats_of.
  destruct (map _ _) as [| v vs]; [reflexivity |].
  unfold bind at 1. unfold call at 1.
  destruct (statistics_mean rt (v :: vs)) as [mean | e]; [| reflexivity].
  unfold bind at 1.
  destruct (1 <? _)%nat; [unfold call |]; simpl;
    [destruct (statistics_stdev rt (v :: vs)) |]; reflexivity.
Qed.

Lemma get_stats_in_range rt sid hours w :
  in_datetime_range (now_at rt (clock_reads w)) ->
  in_datetime_range (history_start rt w hours) ->
  snd (get_stats rt sid hours w)
  = stats_of rt
      (map Reading.calibrated_value
           (filter (fun r => negb (is_error (Reading.quality r)))
                   (history_rows rt sid hours w))).
Proof.
  intros Hnow Hstart. rewrite get_stats_run.
  rewrite (minus_timedelta_ok _ _ _ Hnow Hstart). reflexivity.
Qed.

Lemma get_stats_without_errors rt sid hours w :
  snd (get_stats rt sid hours (without_errors w))
  = snd (get_stats rt sid hours w).
Proof.
  rewrite !get_stats_run.
  change (clock_reads (without_errors w)) with (clock_reads w).
  destruct (minus_timedelta _ _ _); [| reflexivity].
  f_equal. f_equal.
  unfold history_rows, without_errors. cbn [readings clock_reads].
  apply stats_rows_without_errors.
Qed.

Lemma detect_anomaly_without_errors rt sid window z_threshold w :
  snd (detect_anomaly rt sid window z_threshold (without_errors w))
  = snd (detect_anomaly rt sid window z_threshold w)
  /\ alerts (fst (detect_anomaly rt sid window z_threshold (without_errors w)))
     = alerts (fst (detect_anomaly rt sid window z_threshold w)).
Proof.
  rewrite !detect_anomaly_run.
  change (clock_reads (without_errors w)) with (clock_reads w).
  destruct (minus_timedelta _ _ _) as [since | e]; [| split; reflexivity].
  cbv zeta.
  rewrite qualifying_without_errors.
  destruct (_ <? _)%nat; [split; reflexivity |].
  destruct (statistics_mean rt _) as [mean | e]; [| split; reflexivity].
  destruct (statistics_stdev rt _) as [stdev | e]; [| split; reflexivity].
  destruct (F64.eq _ _); [split; reflexivity |].
  match goal with |- context [F64.gt ?z z_threshold] =>
    destruct (F64.gt z z_threshold); [| split; reflexivity]
  end.
  unfold bind, _create_alert, bind, uuid4, utcnow, db_conn, insert_alert,
    alert_exists, sensor_exists. cbn.
  destruct (existsb _ (alerts w)); [split; reflexivity |].
  destruct (existsb _ (sensors w)); split; reflexivity.
Qed.

(** C9: a reading of quality "error" is stored by [log_reading] as a
    reading of any quality is: the row appended is the reading built, as
    the [REAL] columns keep its floats.  [get_stats] returns the same,
    whether a record or an exception, and [detect_anomaly] returns the
    same and leaves the same alerts, as on the database from which the
    readings of quality "error" were removed; the record [get_stats]
    returns for a window that starts at a datetime has count, min, max,
    avg and stddev computed from the values of the fetched rows whose
    quality is not "error". *)
Theorem error_readings_stored_not_counted rt w sid value quality s q :
  registered sid s w ->
  ReadingQuality_of_string quality = Some q ->
  reading_exists (uuid_at rt (uuid_draws w)) w = false ->
  is_nan (value + Sensor.calibration_offset s) = false ->
  ReadingQuality_of_string "error" = Some ERROR
  /\ readings (fst (log_reading rt sid value quality w))
     = readings w
         ++ [Reading.as_stored
               (new_reading rt w sid value (Sensor.calibration_offset s) q)]
  /\ readings (fst (log_reading rt sid value "error" w))
     = readings w
         ++ [Reading.as_stored
               (new_reading rt w sid value (Sensor.calibration_offset s)
                  ERROR)]
  /\ (forall hours,
        snd (get_stats rt sid hours (without_errors w))
        = snd (get_stats rt sid hours w)
        /\ (in_datetime_range (now_at rt (clock_reads w)) ->
            in_datetime_range (history_start rt w hours) ->
            snd (get_stats rt sid hours w)
            = stats_of rt
                (map Reading.calibrated_value
                     (filter (fun r => negb (is_error (Reading.quality r)))
                             (history_rows rt sid hours w)))))
  /\ (forall window z_threshold,
        snd (detect_anomaly rt sid window z_threshold (without_errors w))
        = snd (detect_anomaly rt sid window z_threshold w)
        /\ alerts (fst (detect_anomaly rt sid window z_threshold
                          (without_errors w)))
           = alerts (fst (detect_anomaly rt sid window z_threshold w))).
Proof.
  intros Hreg Hq Hrid Hnan.
  assert (Hstore : forall quality' q',
    ReadingQuality_of_string quality' = Some q' ->
    readings (fst (log_reading rt sid value quality' w))
    = readings w
        ++ [Reading.as_stored
              (new_reading rt w sid value (Sensor.calibration_offset s) q')]).
  { intros quality' q' Hq'.
    rewrite (log_reading_stores rt sid value quality' w s q' Hreg Hq' Hrid Hnan).
    set (r := new_reading rt w sid value (Sensor.calibration_offset s) q').
    pose proof (check_thresholds_effect rt sid
                  (with_reading w (Reading.as_stored r)))
      as (_ & Hr & _).
    unfold bind.
    destruct (check_thresholds rt sid (with_reading w (Reading.as_stored r)))
      as [w1 [o | e]]; exact Hr. }
  split; [reflexivity |].
  split; [apply Hstore, Hq |].
  split; [apply Hstore; reflexivity |].
  split.
  - intros hours.
    split; [apply get_stats_without_errors | apply get_stats_in_range].
  - intros window z_threshold. apply detect_anomaly_without_errors.
Qed.

(** With readings 10, 20, 30 and an "error" reading of 1000 in the table:
    one more "error" reading is stored, and the statistics are those of
    10, 20 and 30. *)
Lemma error_readings_stored_not_counted_witness :
  readings (fst (log_reading Demo.runtime (Demo.uuid 0) 500%float "error"
                   Demo.with_error))
  = readings Demo.with_error
      ++ [new_reading Demo.runtime Demo.with_error (Demo.uuid 0) 500%float
            0%float ERROR]
  /\ snd (get_stats Demo.runtime (Demo.uuid 0) 1
            (without_errors Demo.with_error))
     = snd (get_stats Demo.runtime (Demo.uuid 0) 1 Demo.with_error)
  /\ snd (get_stats Demo.runtime (Demo.uuid 0) 1 Demo.with_error)
     = Ok {| count := 3; min := Some 10%float; max := Some 30%float;
             avg := Some 20%float; stddev := Some 10%float |}.
Proof.
  destruct (error_readings_stored_not_counted Demo.runtime Demo.with_error
              (Demo.uuid 0) 500%float "error"
              (Sensor.mk (Demo.uuid 0) "dev-1" TEMPERATURE "C"
                         (-40)%float 85%float 0%float
                         (Some "Room Temp") (Some "Office"))
              ERROR eq_refl eq_refl eq_refl eq_refl)
    as (_ & _ & Hstore & Hstats & _).
  split; [exact Hstore |].
  split; [apply Hstats | reflexivity].
Defined.

(** ** Properties kept by the methods *)

Section Keeps.

(** A property of the tables only. *)
Variable P : World -> Prop.
Hypothesis P_tables : forall w w', same_tables w w' -> P w -> P w'.

Lemma keeps_ret {A} (a : A) : keeps P (ret a).
Proof. intros w H. exact H. Qed.

Lemma keeps_raise {A} (e : Exc) : keeps P (@raise A e).
Proof. intros w H. exact H. Qed.

Lemma keeps_call {A} (r : result A) : keeps P (call r).
Proof. intros w H. exact H. Qed.

Lemma keeps_bind {A B} (c : M A) (k : A -> M B) :
  keeps P c -> (forall a, keeps P (k a)) -> keeps P (bind c k).
Proof.
  intros Hc Hk w H. unfold bind. specialize (Hc w H).
  destruct (c w) as [w1 [a | e]]; simpl in *; [apply Hk, Hc | exact Hc].
Qed.

Lemma keeps_db_conn {A} (body : M A) : keeps P body -> keeps P (db_conn body).
Proof.
  intros Hb w H. unfold db_conn. specialize (Hb w H).
  destruct (body w) as [w1 [a | e]]; simpl in *; [exact Hb |].
  apply (P_tables w); [repeat split | exact H].
Qed.

Lemma keeps_uuid4 rt : keeps P (uuid4 rt).
Proof. intros w H. apply (P_tables w); [repeat split | exact H]. Qed.

Lemma keeps_utcnow rt : keeps P (utcnow rt).
Proof. intros w H. apply (P_tables w); [repeat split | exact H]. Qed.

(** A statement that only reads. *)
Lemma keeps_select {A} (q : World -> A) : keeps P (fun w => (w, Ok (q w))).
Proof. intros w H. exact H. Qed.

End Keeps.

(** Breaks a method down to the statements it runs. *)
Ltac keeps_steps :=
  repeat first
    [ match goal with |- forall _, _ => intro end
    | progress cbv zeta
    | apply keeps_ret
    | apply keeps_raise
    | apply keeps_call
    | apply keeps_uuid4; assumption
    | apply keeps_utcnow; assumption
    | apply keeps_select
    | apply keeps_db_conn; [assumption |]
    | apply keeps_bind
    | assumption
    | match goal with
      | |- keeps _ (match ?x with _ => _ end) => destruct x
      end ].

Section ReadersKeep.

Variable P : World -> Prop.
Hypothesis P_tables : forall w w', same_tables w w' -> P w -> P w'.

Lemma get_sensor_keeps sid : keeps P (get_sensor sid).
Proof. unfold get_sensor, select_sensor. keeps_steps. Qed.

Lemma get_current_keeps sid : keeps P (get_current sid).
Proof. unfold get_current, select_current. keeps_steps. Qed.

Lemma get_history_keeps rt sid hours qf : keeps P (get_history rt sid hours qf).
Proof. unfold get_history, select_history. keeps_steps. Qed.

Lemma get_stats_keeps rt sid hours : keeps P (get_stats rt sid hours).
Proof.
  unfold get_stats. apply keeps_bind; [apply get_history_keeps |].
  keeps_steps.
Qed.

Lemma list_sensors_keeps device_id : keeps P (list_sensors device_id).
Proof. unfold list_sensors, select_sensors. keeps_steps. Qed.

Lemma get_active_alerts_keeps : keeps P get_active_alerts.
Proof. unfold get_active_alerts, select_active_alerts. keeps_steps. Qed.

Lemma get_all_alerts_keeps : keeps P get_all_alerts.
Proof. unfold get_all_alerts, select_all_alerts. keeps_steps. Qed.

Lemma summarize_all_keeps rt active rows : keeps P (summarize_all rt active rows).
Proof.
  induction rows as [| s rows IH]; simpl; [apply keeps_ret |].
  apply keeps_bind.
  - unfold summarize.
    apply keeps_bind; [apply get_current_keeps | intros current].
    apply keeps_bind; [apply get_stats_keeps | intros stats].
    apply keeps_ret.
  - intros x. apply keeps_bind; [exact IH | intros xs; apply keeps_ret].
Qed.

Lemma get_dashboard_data_keeps rt : keeps P (get_dashboard_data rt).
Proof.
  unfold get_dashboard_data.
  apply keeps_bind; [apply list_sensors_keeps | intros rows].
  apply keeps_bind; [apply get_active_alerts_keeps | intros active].
  apply keeps_bind; [apply summarize_all_keeps | intros xs].
  keeps_steps.
Qed.

End ReadersKeep.

Section WritersKeep.

Variable P : World -> Prop.
Hypothesis P_tables : forall w w', same_tables w w' -> P w -> P w'.
Hypothesis P_insert_sensor : forall s, keeps P (insert_sensor s).
Hypothesis P_update_offset :
  forall offset sid, keeps P (update_sensor_offset offset sid).
Hypothesis P_insert_reading : forall r, keeps P (insert_reading r).
Hypothesis P_insert_alert :
  forall a, Alert.severity a <> INFO -> Alert.resolved_at a = None ->
            keeps P (insert_alert a).
Hypothesis P_update_alert :
  forall now aid, keeps P (update_alert_resolved now aid).

Lemma add_sensor_keeps rt dev ty unit mn mx off name loc :
  keeps P (add_sensor rt dev ty unit mn mx off name loc).
Proof.
  unfold add_sensor, enum. keeps_steps. apply P_insert_sensor.
Qed.

Lemma update_calibration_keeps sid offset :
  keeps P (update_calibration sid offset).
Proof.
  unfold update_calibration. keeps_steps. apply P_update_offset.
Qed.

Lemma _create_alert_keeps rt sid ty sev msg :
  sev <> INFO -> keeps P (_create_alert rt sid ty sev msg).
Proof.
  intros Hsev. unfold _create_alert. keeps_steps.
  exact (P_insert_alert (Alert.mk _ _ _ _ _ _ _) Hsev eq_refl).
Qed.

Lemma check_thresholds_keeps rt sid : keeps P (check_thresholds rt sid).
Proof.
  unfold check_thresholds.
  apply keeps_bind; [apply get_current_keeps; try exact P_tables | intros [r |]];
    [| apply keeps_ret].
  apply keeps_bind; [apply get_sensor_keeps; try exact P_tables | intros s].
  cbv zeta.
  destruct (F64.lt _ _);
    [apply keeps_bind;
       [apply _create_alert_keeps; discriminate | intros; apply keeps_ret] |].
  destruct (F64.gt _ _);
    [apply keeps_bind;
       [apply _create_alert_keeps; discriminate | intros; apply keeps_ret]
    | apply keeps_ret].
Qed.

Lemma log_reading_keeps rt sid value quality :
  keeps P (log_reading rt sid value quality).
Proof.
  unfold log_reading.
  apply keeps_bind; [apply get_sensor_keeps; try exact P_tables | intros s].
  cbv zeta. unfold enum.
  apply keeps_bind; [keeps_steps | intros q].
  apply keeps_bind; [apply keeps_uuid4; try exact P_tables | intros rid].
  apply keeps_bind; [apply keeps_utcnow; try exact P_tables | intros now].
  apply keeps_bind;
    [apply keeps_db_conn; [exact P_tables | apply P_insert_reading] | intros _].
  apply keeps_bind; [apply check_thresholds_keeps | intros _; apply keeps_ret].
Qed.

Lemma batch_log_keeps rt entries : keeps P (batch_log rt entries).
Proof.
  induction entries as [| e entries IH]; simpl; [apply keeps_ret |].
  apply keeps_bind; [apply log_reading_keeps | intros r].
  apply keeps_bind; [exact IH | intros rs; apply keeps_ret].
Qed.

Lemma detect_anomaly_keeps rt sid window z_threshold :
  keeps P (detect_anomaly rt sid window z_threshold).
Proof.
  unfold detect_anomaly, select_qualifying_values.
  apply keeps_bind; [apply keeps_utcnow; try exact P_tables | intros now].
  apply keeps_bind; [apply keeps_call | intros since].
  apply keeps_bind;
    [apply keeps_db_conn; [exact P_tables | apply keeps_select] | intros values].
  destruct (_ <? _)%nat; [apply keeps_ret |].
  apply keeps_bind; [apply keeps_call | intros mean].
  apply keeps_bind; [apply keeps_call | intros stdev].
  destruct (F64.eq _ _); [apply keeps_ret |].
  cbv zeta.
  destruct (F64.gt _ z_threshold); [| apply keeps_ret].
  apply keeps_bind; [| intros; apply keeps_ret].
  apply _create_alert_keeps. destruct (F64.gt _ _); discriminate.
Qed.

Lemma resolve_alert_keeps rt aid : keeps P (resolve_alert rt aid).
Proof.
  unfold resolve_alert, select_alert. keeps_steps. apply P_update_alert.
Qed.

Lemma mark_sensor_offline_keeps rt sid : keeps P (mark_sensor_offline rt sid).
Proof.
  unfold mark_sensor_offline. apply _create_alert_keeps. discriminate.
Qed.

End WritersKeep.

(** ** The schema is kept *)

Lemma exists_key_In {A} (key : A -> string) (k : string) (l : list A) :
  existsb (fun x => key x =? k) l = true <-> In k (map key l).
Proof.
  rewrite existsb_exists, in_map_iff. split.
  - intros (x & Hin & E). apply String.eqb_eq in E. exists x. auto.
  - intros (x & E & Hin). exists x. split; [exact Hin |].
    apply String.eqb_eq, E.
Qed.

Lemma NoDup_snoc {A} (l : list A) (x : A) :
  NoDup l -> ~ In x l -> NoDup (l ++ [x]).
Proof.
  intros Hl Hx. induction Hl as [| y l Hy Hl IH]; simpl.
  - constructor; [intros [] | constructor].
  - constructor.
    + intros Hin. apply in_app_or in Hin. destruct Hin as [Hin | [E | []]].
      * exact (Hy Hin).
      * apply Hx. left. symmetry. exact E.
    + apply IH. intros Hin. apply Hx. right. exact Hin.
Qed.

(** A fresh key added at the end of a table keeps its keys distinct. *)
Lemma NoDup_keys_snoc {A} (key : A -> string) (l : list A) (x : A) :
  NoDup (map key l) ->
  existsb (fun y => key y =? key x) l = false ->
  NoDup (map key (l ++ [x])).
Proof.
  intros Hl Hx. rewrite map_app. apply NoDup_snoc; [exact Hl |].
  intros Hin. apply exists_key_In in Hin. congruence.
Qed.

(** An update that keeps the keys keeps what is looked up by key. *)
Lemma existsb_key_map {A} (key : A -> string) (f : A -> A) (k : string)
    (l : list A) :
  (forall x, key (f x) = key x) ->
  existsb (fun x => key x =? k) (map f l) = existsb (fun x => key x =? k) l.
Proof.
  intros Hf. induction l as [| x l IH]; simpl; [reflexivity |].
  rewrite Hf, IH. reflexivity.
Qed.

Lemma schema_ok_tables w w' : same_tables w w' -> schema_ok w -> schema_ok w'.
Proof.
  intros (Hs & Hr & Ha).
  unfold schema_ok, reading_row_ok, alert_row_ok, sensor_exists.
  rewrite Hs, Hr, Ha. auto.
Qed.

Lemma insert_sensor_schema s : keeps schema_ok (insert_sensor s).
Proof.
  intros w (Ns & Nr & Na & Fs & Fr & Fa). unfold insert_sensor.
  destruct (is_nan (Sensor.min_value s)) eqn:Emin;
    [repeat split; assumption |].
  destruct (is_nan (Sensor.max_value s)) eqn:Emax;
    [repeat split; assumption |].
  destruct (is_nan (Sensor.calibration_offset s)) eqn:Eoff;
    [repeat split; assumption |].
  destruct (sensor_exists _ _) eqn:Eex; [repeat split; assumption |].
  unfold schema_ok, reading_row_ok, alert_row_ok, sensor_exists in *. simpl.
  repeat split.
  - apply NoDup_keys_snoc; assumption.
  - exact Nr.
  - exact Na.
  - apply Forall_app. split; [exact Fs |].
    constructor; [| constructor].
    repeat split; simpl; rewrite F64Facts.is_nan_sql_real; assumption.
  - eapply Forall_impl; [| exact Fr]. intros r (H1 & H2 & H3).
    repeat split; auto. rewrite existsb_app, H3. reflexivity.
  - eapply Forall_impl; [| exact Fa]. intros a H.
    rewrite existsb_app, H. reflexivity.
Qed.

Lemma update_sensor_offset_schema offset sid :
  keeps schema_ok (update_sensor_offset offset sid).
Proof.
  intros w (Ns & Nr & Na & Fs & Fr & Fa). unfold update_sensor_offset.
  destruct (_ && _) eqn:E; [repeat split; assumption |].
  set (f := fun s => if Sensor.id s =? sid
                     then Sensor.with_calibration_offset s (sql_real offset)
                     else s).
  assert (Hid : forall x, Sensor.id (f x) = Sensor.id x)
    by (intros x; unfold f; destruct (_ =? _); reflexivity).
  unfold schema_ok, reading_row_ok, alert_row_ok, sensor_exists in *. simpl.
  repeat split.
  - rewrite map_map. rewrite (map_ext _ Sensor.id Hid). exact Ns.
  - exact Nr.
  - exact Na.
  - apply Forall_map. rewrite Forall_forall in Fs |- *. intros x Hin.
    specialize (Fs x Hin). unfold f.
    destruct (Sensor.id x =? sid) eqn:Ex; [| exact Fs].
    destruct Fs as (H1 & H2 & _). repeat split; auto. simpl.
    assert (Hex : existsb (fun s => Sensor.id s =? sid) (sensors w) = true).
    { apply existsb_exists. exists x. auto. }
    rewrite Hex in E. rewrite F64Facts.is_nan_sql_real. exact E.
  - eapply Forall_impl; [| exact Fr]. intros r (H1 & H2 & H3).
    repeat split; auto. rewrite (existsb_key_map Sensor.id f _ _ Hid). exact H3.
  - eapply Forall_impl; [| exact Fa]. intros a H.
    rewrite (existsb_key_map Sensor.id f _ _ Hid). exact H.
Qed.

Lemma insert_reading_schema r : keeps schema_ok (insert_reading r).
Proof.
  intros w (Ns & Nr & Na & Fs & Fr & Fa). unfold insert_reading.
  destruct (is_nan (Reading.raw_value r)) eqn:Eraw;
    [repeat split; assumption |].
  destruct (is_nan (Reading.calibrated_value r)) eqn:Ecal;
    [repeat split; assumption |].
  destruct (reading_exists _ _) eqn:Eex; [repeat split; assumption |].
  destruct (sensor_exists _ _) eqn:Es; simpl; [| repeat split; assumption].
  unfold schema_ok, reading_row_ok, alert_row_ok, sensor_exists,
    reading_exists in *. simpl.
  repeat split; try assumption.
  - apply NoDup_keys_snoc; assumption.
  - apply Forall_app. split; [exact Fr |].
    constructor; [| constructor].
    repeat split; simpl; rewrite ?F64Facts.is_nan_sql_real; assumption.
Qed.

Lemma insert_alert_schema a : keeps schema_ok (insert_alert a).
Proof.
  intros w (Ns & Nr & Na & Fs & Fr & Fa). unfold insert_alert.
  destruct (alert_exists _ _) eqn:Eex; [repeat split; assumption |].
  destruct (sensor_exists _ _) eqn:Es; simpl; [| repeat split; assumption].
  unfold schema_ok, reading_row_ok, alert_row_ok, sensor_exists,
    alert_exists in *. simpl.
  repeat split; try assumption.
  - apply NoDup_keys_snoc; assumption.
  - apply Forall_app. split; [exact Fa |].
    constructor; [assumption | constructor].
Qed.

Lemma update_alert_resolved_schema now aid :
  keeps schema_ok (update_alert_resolved now aid).
Proof.
  intros w (Ns & Nr & Na & Fs & Fr & Fa). unfold update_alert_resolved.
  set (f := fun a => if Alert.id a =? aid
                     then Alert.with_resolved_at a now else a).
  assert (Hid : forall x, Alert.id (f x) = Alert.id x)
    by (intros x; unfold f; destruct (_ =? _); reflexivity).
  unfold schema_ok, reading_row_ok, alert_row_ok, sensor_exists in *. simpl.
  repeat split; try assumption.
  - rewrite map_map. rewrite (map_ext _ Alert.id Hid). exact Na.
  - apply Forall_map. eapply Forall_impl; [| exact Fa].
    intros a H. unfold f. destruct (_ =? _); exact H.
Qed.

(** The database is created empty by [init_db], and every writing method
    keeps the constraints of its schema, whether it returns or raises:
    the ids of each table stay distinct, no stored real is a NaN, and
    every reading and alert refers to a stored sensor. *)
Theorem schema_kept rt w :
  schema_ok w ->
  (forall dev ty unit mn mx off name loc,
     schema_ok (fst (add_sensor rt dev ty unit mn mx off name loc w)))
  /\ (forall sid offset, schema_ok (fst (update_calibration sid offset w)))
  /\ (forall sid value quality,
        schema_ok (fst (log_reading rt sid value quality w)))
  /\ (forall entries, schema_ok (fst (batch_log rt entries w)))
  /\ (forall sid, schema_ok (fst (check_thresholds rt sid w)))
  /\ (forall sid window z_threshold,
        schema_ok (fst (detect_anomaly rt sid window z_threshold w)))
  /\ (forall aid, schema_ok (fst (resolve_alert rt aid w)))
  /\ (forall sid, schema_ok (fst (mark_sensor_offline rt sid w))).
Proof.
  intros H.
  pose proof schema_ok_tables as T.
  pose proof insert_sensor_schema as S1.
  pose proof update_sensor_offset_schema as S2.
  pose proof insert_reading_schema as S3.
  assert (S4 : forall a, Alert.severity a <> INFO ->
                         Alert.resolved_at a = None ->
                         keeps schema_ok (insert_alert a))
    by (intros a _ _; apply insert_alert_schema).
  pose proof update_alert_resolved_schema as S5.
  repeat match goal with |- _ /\ _ => split end; intros.
  - apply (add_sensor_keeps schema_ok); assumption.
  - apply (update_calibration_keeps schema_ok); assumption.
  - apply (log_reading_keeps schema_ok); assumption.
  - apply (batch_log_keeps schema_ok); assumption.
  - apply (check_thresholds_keeps schema_ok); assumption.
  - apply (detect_anomaly_keeps schema_ok); assumption.
  - apply (resolve_alert_keeps schema_ok); assumption.
  - apply (mark_sensor_offline_keeps schema_ok); assumption.
Qed.

(** From the empty database: registering a sensor, then ingesting 50.0
    (one reading, one alert). *)
Lemma schema_kept_witness : schema_ok Demo.one_sensor /\ schema_ok Demo.one_alert.
Proof.
  assert (E : schema_ok Demo.empty) by (repeat split; constructor).
  assert (E1 : schema_ok Demo.one_sensor).
  { exact (proj1 (schema_kept Demo.runtime Demo.empty E)
             "dev-3" "temperature" "C" (Some 0%float) (Some 40%float)
             0%float None None). }
  split; [exact E1 |].
  exact (proj1 (proj2 (proj2 (schema_kept Demo.runtime Demo.one_sensor E1)))
           (Demo.uuid 0) 50%float "good").
Defined.

(** ** Queries *)

Lemma same_tables_refl w : same_tables w w.
Proof. repeat split. Qed.

Lemma same_tables_trans w w1 w2 :
  same_tables w1 w2 -> same_tables w w1 -> same_tables w w2.
Proof.
  intros (A1 & A2 & A3) (B1 & B2 & B3). repeat split; congruence.
Qed.

(** The query methods never write: whatever their arguments, and also
    when [get_stats] or [get_dashboard_data] raise out of the statistics
    module, the three tables are left as they were. *)
Theorem queries_write_nothing rt w :
  (forall sid, same_tables w (fst (get_sensor sid w)))
  /\ (forall sid, same_tables w (fst (get_current sid w)))
  /\ (forall sid hours quality_filter,
        same_tables w (fst (get_history rt sid hours quality_filter w)))
  /\ (forall sid hours, same_tables w (fst (get_stats rt sid hours w)))
  /\ (forall device_id, same_tables w (fst (list_sensors device_id w)))
  /\ same_tables w (fst (get_active_alerts w))
  /\ same_tables w (fst (get_all_alerts w))
  /\ same_tables w (fst (get_dashboard_data rt w)).
Proof.
  pose proof (same_tables_trans w) as T.
  pose proof (same_tables_refl w) as R.
  repeat match goal with |- _ /\ _ => split end; intros.
  - apply (get_sensor_keeps (same_tables w)); assumption.
  - apply (get_current_keeps (same_tables w)); assumption.
  - apply (get_history_keeps (same_tables w)); assumption.
  - apply (get_stats_keeps (same_tables w)); assumption.
  - apply (list_sensors_keeps (same_tables w)); assumption.
  - apply (get_active_alerts_keeps (same_tables w)); assumption.
  - apply (get_all_alerts_keeps (same_tables w)); assumption.
  - apply (get_dashboard_data_keeps (same_tables w)); assumption.
Qed.

(** ** Severities *)

Lemma no_info_alert_tables w w' :
  same_tables w w' -> no_info_alert w -> no_info_alert w'.
Proof. intros (_ & _ & Ha). unfold no_info_alert. rewrite Ha. auto. Qed.

Lemma insert_alert_no_info a :
  Alert.severity a <> INFO -> keeps no_info_alert (insert_alert a).
Proof.
  intros Hsev w H. unfold insert_alert, no_info_alert in *.
  destruct (alert_exists _ _); [exact H |].
  destruct (negb _); [exact H |]. simpl.
  apply Forall_app. split; [exact H | constructor; [exact Hsev | constructor]].
Qed.

Lemma update_alert_resolved_no_info now aid :
  keeps no_info_alert (update_alert_resolved now aid).
Proof.
  intros w H. unfold update_alert_resolved, no_info_alert in *. simpl.
  apply Forall_map. eapply Forall_impl; [| exact H].
  intros a Ha. destruct (_ =? _); exact Ha.
Qed.

(** The severity INFO is never stored: when no alert of the database has
    it, none has it after any of the methods that write alerts (they
    create WARNING and CRITICAL alerts only, and resolving changes no
    severity). *)
Theorem severity_never_info rt w :
  no_info_alert w ->
  (forall sid value quality,
     no_info_alert (fst (log_reading rt sid value quality w)))
  /\ (forall entries, no_info_alert (fst (batch_log rt entries w)))
  /\ (forall sid, no_info_alert (fst (check_thresholds rt sid w)))
  /\ (forall sid window z_threshold,
        no_info_alert (fst (detect_anomaly rt sid window z_threshold w)))
  /\ (forall aid, no_info_alert (fst (resolve_alert rt aid w)))
  /\ (forall sid, no_info_alert (fst (mark_sensor_offline rt sid w))).
Proof.
  intros H.
  pose proof no_info_alert_tables as T.
  assert (S3 : forall r, keeps no_info_alert (insert_reading r)).
  { intros r w0 H0. unfold insert_reading.
    repeat match goal with
    | |- context [if ?b then _ else _] => destruct b; [exact H0 |]
    end.
    exact H0. }
  assert (S4 : forall a, Alert.severity a <> INFO ->
                         Alert.resolved_at a = None ->
                         keeps no_info_alert (insert_alert a))
    by (intros a Hs _; apply insert_alert_no_info, Hs).
  pose proof update_alert_resolved_no_info as S5.
  repeat match goal with |- _ /\ _ => split end; intros.
  - apply (log_reading_keeps no_info_alert); assumption.
  - apply (batch_log_keeps no_info_alert); assumption.
  - apply (check_thresholds_keeps no_info_alert); assumption.
  - apply (detect_anomaly_keeps no_info_alert); assumption.
  - apply (resolve_alert_keeps no_info_alert); assumption.
  - apply (mark_sensor_offline_keeps no_info_alert); assumption.
Qed.

(** The alerts after two breaches and one resolution. *)
Lemma severity_never_info_witness :
  no_info_alert
    (fst (log_reading Demo.runtime (Demo.uuid 0) 50%float "good"
            Demo.one_resolved)).
Proof.
  apply (severity_never_info Demo.runtime Demo.one_resolved).
  repeat constructor; discriminate.
Defined.

(** ** Rejected calls *)

Lemma same_tables_drawn w : same_tables w (drawn w).
Proof. unfold same_tables, drawn. simpl. auto. Qed.

(** [add_sensor] raises the [ValueError] of the enumeration for a type
    that is no member of [SensorType], before anything is drawn or
    written; it raises [IntegrityError] for a bound or an offset that is
    a NaN, with the message of SQLite for the first such column; and
    whenever it raises, whatever the reason, the three tables are as they
    were. *)
Theorem add_sensor_rejects rt w dev ty unit mn mx off name loc :
  (SensorType_of_string ty = None ->
     add_sensor rt dev ty unit mn mx off name loc w
     = (w, Raise (ValueError (repr_str rt ty
                              ++ " is not a valid SensorType"))))
  /\ (forall stype, SensorType_of_string ty = Some stype ->
        let defaults :=
          dict_get DEFAULT_THRESHOLDS stype (-999.0, 999.0)%float in
        let lo := match mn with Some v => v | None => fst defaults end in
        let hi := match mx with Some v => v | None => snd defaults end in
        (is_nan lo = true ->
         snd (add_sensor rt dev ty unit mn mx off name loc w)
         = Raise (IntegrityError
                    "NOT NULL constraint failed: sensors.min_value"))
        /\ (is_nan lo = false -> is_nan hi = true ->
            snd (add_sensor rt dev ty unit mn mx off name loc w)
            = Raise (IntegrityError
                       "NOT NULL constraint failed: sensors.max_value"))
        /\ (is_nan lo = false -> is_nan hi = false -> is_nan off = true ->
            snd (add_sensor rt dev ty unit mn mx off name loc w)
            = Raise (IntegrityError
                       "NOT NULL constraint failed: sensors.calibration_offset")))
  /\ (forall e, snd (add_sensor rt dev ty unit mn mx off name loc w) = Raise e ->
        same_tables w (fst (add_sensor rt dev ty unit mn mx off name loc w))).
Proof.
  rewrite add_sensor_run.
  destruct (SensorType_of_string ty) as [stype |].
  2: { split; [reflexivity |]. split; [discriminate |].
       intros e _. apply same_tables_refl. }
  split; [discriminate |]. cbv zeta. split.
  - intros stype' E. injection E as <-.
    split; [intros ->; reflexivity |].
    split; [intros -> ->; reflexivity | intros -> -> ->; reflexivity].
  - repeat match goal with
    | |- context [if ?b then _ else _] =>
        destruct b; [intros; apply same_tables_drawn |]
    end.
    discriminate.
Qed.

Lemma add_sensor_rejects_witness :
  snd (add_sensor Demo.runtime "dev-1" "voltage" "V" None None 0%float
         None None Demo.one_sensor)
  = Raise (ValueError "'voltage' is not a valid SensorType")
  /\ snd (add_sensor Demo.runtime "dev-1" "power" "W" None None nan
            None None Demo.one_sensor)
     = Raise (IntegrityError
                "NOT NULL constraint failed: sensors.calibration_offset").
Proof.
  split.
  - rewrite (proj1 (add_sensor_rejects Demo.runtime Demo.one_sensor "dev-1"
                      "voltage" "V" None None 0%float None None) eq_refl).
    reflexivity.
  - apply (proj2 (proj2 (proj1 (proj2 (add_sensor_rejects Demo.runtime
                                         Demo.one_sensor "dev-1" "power" "W"
                                         None None nan None None))
                           POWER eq_refl))); reflexivity.
Defined.

Lemma same_tables_tick w : same_tables w (tick w).
Proof. unfold same_tables, tick. simpl. auto. Qed.

Lemma latest_row_None (l : list Reading.t) : latest_row l = None -> l = [].
Proof.
  destruct l as [| r l] using rev_ind; [reflexivity |].
  rewrite latest_row_app.
  destruct (latest_row l); [destruct (_ <=? _)%Z |]; discriminate.
Qed.

(** With a reading of the sensor stored and fresh uuids,
    [check_thresholds] does not raise. *)
Lemma check_thresholds_returns rt sid s w r :
  registered sid s w ->
  In r (readings w) -> Reading.sensor_id r = sid ->
  alert_exists (uuid_at rt (uuid_draws w)) w = false ->
  exists o, snd (check_thresholds rt sid w) = Ok o.
Proof.
  intros Hreg Hin Hsid Hfresh.
  destruct (latest_row (filter (fun x => Reading.sensor_id x =? sid)
                               (readings w))) as [r0 |] eqn:Hcur.
  2: { apply latest_row_None in Hcur.
       assert (Hr : In r (filter (fun x => Reading.sensor_id x =? sid)
                                 (readings w)))
         by (apply filter_In; split; [exact Hin |];
             apply String.eqb_eq, Hsid).
       rewrite Hcur in Hr. destruct Hr. }
  rewrite (check_thresholds_run rt sid w r0 s Hcur Hreg). cbv zeta.
  pose proof (registered_exists _ _ _ Hreg) as Hex.
  destruct (F64.lt _ _);
    [| destruct (F64.gt _ _); [| eexists; reflexivity]];
    unfold bind; rewrite (_create_alert_ok rt _ _ _ _ w Hfresh Hex);
    eexists; reflexivity.
Qed.

(** With fresh uuids, a [log_reading] that raises has written nothing. *)
Lemma log_reading_raises_clean rt sid value quality w e :
  uuids_fresh rt w ->
  snd (log_reading rt sid value quality w) = Raise e ->
  same_tables w (fst (log_reading rt sid value quality w)).
Proof.
  rewrite log_reading_run. intros [_ Hfresh].
  destruct (find _ (sensors w)) as [s |] eqn:Hreg;
    [| intros _; apply same_tables_refl].
  destruct (ReadingQuality_of_string quality) as [q |];
    [| intros _; apply same_tables_refl].
  cbv zeta.
  do 3 (match goal with
        | |- context [if ?b then _ else _] =>
            destruct b;
            [intros _; eapply same_tables_trans;
               [apply same_tables_drawn | apply same_tables_tick] |]
        end).
  set (r := Reading.as_stored
              (new_reading rt w sid value (Sensor.calibration_offset s) q)).
  destruct (check_thresholds_returns rt sid s (with_reading w r) r)
    as [o Ho].
  - exact Hreg.
  - simpl. apply in_or_app. right. left. reflexivity.
  - reflexivity.
  - destruct (Hfresh (S (uuid_draws w))) as [_ Ha]; [lia |]. exact Ha.
  - unfold bind. destruct (check_thresholds _ _ _) as [w1 [o1 | e1]];
      simpl in *; discriminate.
Qed.

(** A [log_reading] that returns has stored the reading it returns, at
    the end of the table and as the [REAL] columns keep it, for a
    registered sensor and a valid quality. *)
Lemma log_reading_returns rt sid value quality w w' r :
  log_reading rt sid value quality w = (w', Ok r) ->
  exists s q,
    registered sid s w /\ ReadingQuality_of_string quality = Some q
    /\ r = new_reading rt w sid value (Sensor.calibration_offset s) q
    /\ sensors w' = sensors w
    /\ readings w' = readings w ++ [Reading.as_stored r].
Proof.
  rewrite log_reading_run. unfold registered.
  destruct (find _ (sensors w)) as [s |]; [| discriminate].
  destruct (ReadingQuality_of_string quality) as [q |]; [| discriminate].
  cbv zeta.
  do 3 (match goal with
        | |- context [if ?b then _ else _] => destruct b; [discriminate |]
        end).
  set (r0 := new_reading rt w sid value (Sensor.calibration_offset s) q).
  pose proof (check_thresholds_effect rt sid
                (with_reading w (Reading.as_stored r0)))
    as (Hs & Hr & _).
  unfold bind. destruct (check_thresholds _ _ _) as [w1 [o | e]];
    [| discriminate].
  unfold ret. intros H. injection H as <- <-.
  exists s, q. simpl in Hs, Hr. auto.
Qed.

(** [log_reading] raises the not-found [ValueError] for an unknown sensor
    and the [ValueError] of the enumeration for a quality that is none of
    good, degraded and error, in both cases before it reads the clock or
    writes; it raises [IntegrityError], with the message of SQLite for
    the column, when the value or the calibrated value is a NaN.  When
    the uuids are fresh, a call that raises, whatever the reason, leaves
    the three tables as they were. *)
Theorem log_reading_rejects rt w sid value quality :
  (sensor_exists sid w = false ->
     log_reading rt sid value quality w
     = (w, Raise (ValueError ("Sensor not found: " ++ sid))))
  /\ (forall s, registered sid s w ->
        ReadingQuality_of_string quality = None ->
        log_reading rt sid value quality w
        = (w, Raise (ValueError (repr_str rt quality
                                 ++ " is not a valid ReadingQuality"))))
  /\ (forall s q, registered sid s w ->
        ReadingQuality_of_string quality = Some q ->
        (is_nan value = true ->
         snd (log_reading rt sid value quality w)
         = Raise (IntegrityError
                    "NOT NULL constraint failed: readings.raw_value"))
        /\ (is_nan value = false ->
            is_nan (value + Sensor.calibration_offset s) = true ->
            snd (log_reading rt sid value quality w)
            = Raise (IntegrityError
                       "NOT NULL constraint failed: readings.calibrated_value")))
  /\ (forall e, uuids_fresh rt w ->
        snd (log_reading rt sid value quality w) = Raise e ->
        same_tables w (fst (log_reading rt sid value quality w))).
Proof.
  split; [apply log_reading_unknown_sensor |].
  split; [| split; [| intros e; apply log_reading_raises_clean]].
  - rewrite log_reading_run. unfold registered. intros s -> ->. reflexivity.
  - rewrite log_reading_run. unfold registered.
    intros s q -> ->. cbv zeta.
    split; [intros ->; reflexivity | intros -> ->; reflexivity].
Qed.

Lemma log_reading_rejects_witness :
  log_reading Demo.runtime "nowhere" 1%float "good" Demo.one_sensor
  = (Demo.one_sensor, Raise (ValueError "Sensor not found: nowhere"))
  /\ log_reading Demo.runtime (Demo.uuid 0) 1%float "fine" Demo.one_sensor
     = (Demo.one_sensor,
        Raise (ValueError "'fine' is not a valid ReadingQuality"))
  /\ snd (log_reading Demo.runtime (Demo.uuid 0) nan "good" Demo.one_sensor)
     = Raise (IntegrityError "NOT NULL constraint failed: readings.raw_value")
  /\ same_tables Demo.one_alert
       (fst (log_reading Demo.runtime (Demo.uuid 0) nan "good"
               Demo.one_alert)).
Proof.
  pose proof (log_reading_rejects Demo.runtime Demo.one_sensor) as H.
  split; [| split; [| split]].
  - apply (proj1 (H "nowhere" 1%float "good")). reflexivity.
  - destruct (H (Demo.uuid 0) 1%float "fine") as (_ & H2 & _).
    eapply H2; reflexivity.
  - destruct (H (Demo.uuid 0) nan "good") as (_ & _ & H3 & _).
    eapply (proj1 (H3 _ GOOD eq_refl eq_refl)). reflexivity.
  - destruct (log_reading_rejects Demo.runtime Demo.one_alert (Demo.uuid 0)
                nan "good") as (_ & _ & _ & H4).
    apply (H4 (IntegrityError
                 "NOT NULL constraint failed: readings.raw_value")
              Demo_uuids_fresh_one_alert).
    reflexivity.
Defined.

(** [update_calibration] runs its UPDATE before it looks the sensor up. *)
Lemma update_calibration_run sid offset w :
  update_calibration sid offset w
  = if sensor_exists sid w && is_nan offset
    then (with_tables w (sensors w) (readings w) (alerts w),
          Raise (not_null_failed "sensors.calibration_offset"))
    else
      get_sensor sid
        (with_tables w
           (map (fun s => if Sensor.id s =? sid
                          then Sensor.with_calibration_offset s
                                 (sql_real offset)
                          else s)
                (sensors w))
           (readings w) (alerts w)).
Proof.
  unfold update_calibration, bind, db_conn, update_sensor_offset.
  destruct (sensor_exists sid w && is_nan offset); reflexivity.
Qed.

(** [update_calibration] raises the not-found [ValueError] for an unknown
    sensor, whatever the offset, and [IntegrityError] for an offset that
    is a NaN on a registered sensor; a call that raises leaves the three
    tables as they were. *)
Theorem update_calibration_rejects w sid offset :
  (sensor_exists sid w = false ->
     snd (update_calibration sid offset w)
     = Raise (ValueError ("Sensor not found: " ++ sid)))
  /\ (sensor_exists sid w = true -> is_nan offset = true ->
        snd (update_calibration sid offset w)
        = Raise (IntegrityError
                   "NOT NULL constraint failed: sensors.calibration_offset"))
  /\ (forall e, snd (update_calibration sid offset w) = Raise e ->
        same_tables w (fst (update_calibration sid offset w))).
Proof.
  rewrite update_calibration_run.
  assert (Habsent : sensor_exists sid w = false ->
    get_sensor sid
      (with_tables w
         (map (fun s => if Sensor.id s =? sid
                        then Sensor.with_calibration_offset s
                               (sql_real offset)
                        else s)
              (sensors w))
         (readings w) (alerts w))
    = (with_tables w (sensors w) (readings w) (alerts w),
       Raise (ValueError ("Sensor not found: " ++ sid)))).
  { intros Hex.
    rewrite (map_update_absent Sensor.id
               (fun s => Sensor.with_calibration_offset s (sql_real offset))
               sid (sensors w) Hex).
    apply get_sensor_missing. exact Hex. }
  split; [| split].
  - intros Hex. rewrite Hex. simpl. rewrite (Habsent Hex). reflexivity.
  - intros -> ->. reflexivity.
  - intros e. destruct (sensor_exists sid w) eqn:Hex; simpl.
    + destruct (is_nan offset) eqn:Hnan;
        [intros _; repeat split |].
      unfold sensor_exists in Hex. rewrite find_existsb in Hex.
      destruct (find _ (sensors w)) as [s |] eqn:Hreg; [| discriminate].
      pose proof (update_calibration_ok sid offset w s Hreg Hnan) as [Hok _].
      rewrite update_calibration_run in Hok.
      unfold sensor_exists in Hok. rewrite find_existsb, Hreg, Hnan in Hok.
      simpl in Hok. rewrite Hok. discriminate.
    + rewrite (Habsent eq_refl). intros _. repeat split.
Qed.

Lemma update_calibration_rejects_witness :
  snd (update_calibration "nowhere" nan Demo.one_sensor)
  = Raise (ValueError "Sensor not found: nowhere")
  /\ snd (update_calibration (Demo.uuid 0) nan Demo.one_sensor)
     = Raise (IntegrityError
                "NOT NULL constraint failed: sensors.calibration_offset")
  /\ same_tables Demo.one_sensor
       (fst (update_calibration (Demo.uuid 0) nan Demo.one_sensor)).
Proof.
  split; [| split].
  - apply (proj1 (update_calibration_rejects Demo.one_sensor "nowhere" nan)).
    reflexivity.
  - apply (proj1 (proj2 (update_calibration_rejects Demo.one_sensor
                           (Demo.uuid 0) nan))); reflexivity.
  - apply (proj2 (proj2 (update_calibration_rejects Demo.one_sensor
                           (Demo.uuid 0) nan))
             (IntegrityError
                "NOT NULL constraint failed: sensors.calibration_offset")).
    reflexivity.
Defined.

(** ** Calibration, then ingestion *)

(** After [update_calibration] installed an offset, [log_reading] on that
    sensor calibrates with the new offset as the database returns it (an
    offset of [-0.0] is read back as [0.0]), and the sensors of other ids
    are the rows they were. *)
Theorem update_calibration_then_log_reading rt w sid offset value quality
    s w2 r :
  registered sid s w -> is_nan offset = false ->
  log_reading rt sid value quality (fst (update_calibration sid offset w))
  = (w2, Ok r) ->
  Reading.raw_value r = value
  /\ Reading.calibrated_value r = (value + sql_real offset)%float
  /\ forall sid' s', sid' <> sid -> registered sid' s' w ->
       registered sid' s' (fst (update_calibration sid offset w)).
Proof.
  intros Hreg Hnan Hlog.
  destruct (update_calibration_ok sid offset w s Hreg Hnan) as [_ Hreg'].
  apply log_reading_returns in Hlog.
  destruct Hlog as (s1 & q & Hreg1 & _ & -> & _).
  unfold registered in Hreg', Hreg1. rewrite Hreg' in Hreg1.
  injection Hreg1 as <-.
  split; [reflexivity |]. split; [reflexivity |].
  intros sid' s' Hne Hreg0.
  rewrite update_calibration_run.
  rewrite Hnan, andb_false_r.
  match goal with |- registered _ _ (fst (get_sensor sid ?x)) =>
    rewrite (get_sensor_world sid x)
  end.
  unfold registered in *. simpl.
  rewrite (find_map_update Sensor.id
             (fun x => Sensor.with_calibration_offset x (sql_real offset))
             sid sid' (sensors w)) by reflexivity.
  rewrite Hreg0. simpl.
  pose proof (registered_id _ _ _ Hreg0) as Hid. rewrite Hid.
  destruct (String.eqb_spec sid' sid); [contradiction | reflexivity].
Qed.

Lemma update_calibration_then_log_reading_witness :
  exists r,
    snd (log_reading Demo.runtime (Demo.uuid 0) 20%float "good"
           (fst (update_calibration (Demo.uuid 0) 1.5%float Demo.room)))
    = Ok r
    /\ Reading.calibrated_value r = (20 + 1.5)%float.
Proof.
  set (p := log_reading Demo.runtime (Demo.uuid 0) 20%float "good"
              (fst (update_calibration (Demo.uuid 0) 1.5%float Demo.room))).
  set (r := match snd p with
            | Ok r => r
            | Raise _ =>
                Reading.mk EmptyString EmptyString 0%float 0%float 0%Z GOOD
            end).
  exists r. split; [reflexivity |].
  apply (update_calibration_then_log_reading Demo.runtime Demo.room
           (Demo.uuid 0) 1.5%float 20%float "good"
           (Sensor.mk (Demo.uuid 0) "dev-1" TEMPERATURE "C"
                      (-40)%float 85%float 0%float
                      (Some "Room Temp") (Some "Office"))
           (fst p) r eq_refl eq_refl eq_refl).
Defined.

(** ** Batches *)

Lemma batch_log_app_run rt es1 es2 w :
  batch_log rt (es1 ++ es2) w
  = bind (batch_log rt es1)
         (fun rs1 => bind (batch_log rt es2) (fun rs2 => ret (rs1 ++ rs2))) w.
Proof.
  revert w. induction es1 as [| e es1 IH]; intros w.
  - simpl. unfold bind, ret.
    destruct (batch_log rt es2 w) as [w2 [rs2 | x]]; reflexivity.
  - simpl. unfold bind.
    destruct (log_reading _ _ _ _ _) as [w1 [r | x]]; [| reflexivity].
    rewrite IH. unfold bind.
    destruct (batch_log rt es1 w1) as [w2 [rs1 | x]]; [| reflexivity].
    unfold ret.
    destruct (batch_log rt es2 w2) as [w3 [rs2 | x]]; reflexivity.
Qed.

Lemma batch_log_returns rt entries w w' rs :
  batch_log rt entries w = (w', Ok rs) ->
  sensors w' = sensors w
  /\ readings w' = readings w ++ map Reading.as_stored rs
  /\ Forall2
       (fun e r =>
          Reading.sensor_id r = entry_sensor_id e
          /\ Reading.raw_value r = entry_value e
          /\ ReadingQuality_of_string
               match entry_quality e with Some q => q | None => "good" end
             = Some (Reading.quality r))
       entries rs.
Proof.
  revert w w' rs. induction entries as [| e entries IH]; intros w w' rs.
  - simpl. unfold ret. intros H. injection H as <- <-.
    rewrite app_nil_r. auto.
  - simpl. unfold bind at 1.
    destruct (log_reading _ _ _ _ _) as [w1 [r | x]] eqn:Hlog;
      [| discriminate].
    unfold bind. destruct (batch_log rt entries w1) as [w2 [rs' | x]] eqn:Hb;
      [| discriminate].
    unfold ret. intros H. injection H as <- <-.
    apply log_reading_returns in Hlog.
    destruct Hlog as (s & q & _ & Hq & Hr & Hs1 & Hr1).
    destruct (IH _ _ _ Hb) as (Hs2 & Hr2 & Hall).
    split; [congruence |].
    split; [rewrite Hr2, Hr1, <- app_assoc; reflexivity |].
    constructor; [| exact Hall].
    subst r. simpl. auto.
Qed.

(** A batch is the sequence of its parts: logging [es1 ++ es2] is logging
    [es1], then [es2] in the world that leaves, and joining the results;
    a failure in [es1] keeps [es2] from being logged at all. *)
Theorem batch_log_app rt es1 es2 w :
  batch_log rt (es1 ++ es2) w
  = bind (batch_log rt es1)
         (fun rs1 => bind (batch_log rt es2) (fun rs2 => ret (rs1 ++ rs2))) w.
Proof. apply batch_log_app_run. Qed.

(** A [batch_log] that returns has returned one reading for each entry,
    in their order, with the sensor, the raw value and the quality of
    the entry (good when the entry has none); these readings are stored
    after the former ones, in the same order and as the [REAL] columns
    keep them, and no sensor changed. *)
Theorem batch_log_stores rt entries w w' rs :
  batch_log rt entries w = (w', Ok rs) ->
  sensors w' = sensors w
  /\ readings w' = readings w ++ map Reading.as_stored rs
  /\ Forall2
       (fun e r =>
          Reading.sensor_id r = entry_sensor_id e
          /\ Reading.raw_value r = entry_value e
          /\ ReadingQuality_of_string
               match entry_quality e with Some q => q | None => "good" end
             = Some (Reading.quality r))
       entries rs.
Proof. apply batch_log_returns. Qed.

Lemma batch_log_stores_witness :
  exists rs,
    snd (batch_log Demo.runtime (map Demo.entry [10; 20; 30]%float) Demo.room)
    = Ok rs
    /\ readings Demo.room = []
    /\ readings (fst (batch_log Demo.runtime
                        (map Demo.entry [10; 20; 30]%float) Demo.room))
       = map Reading.as_stored rs
    /\ map Reading.raw_value rs = [10; 20; 30]%float.
Proof.
  set (p := batch_log Demo.runtime (map Demo.entry [10; 20; 30]%float)
              Demo.room).
  set (rs := match snd p with Ok rs => rs | Raise _ => [] end).
  exists rs.
  destruct (batch_log_stores Demo.runtime
              (map Demo.entry [10; 20; 30]%float) Demo.room (fst p) rs
              eq_refl) as (_ & Hr & _).
  split; [reflexivity |]. split; [reflexivity |].
  split; [exact Hr | reflexivity].
Defined.

(** [batch_log] is no transaction.  When the entries [es1] were logged
    and the next entry is refused, the whole call raises the exception
    of that entry, the entries after it are never tried, and the
    readings of [es1] stay stored: with fresh uuids the readings are
    then exactly the former ones and those of [es1], as the [REAL]
    columns keep them. *)
Theorem batch_log_stops rt es1 e es2 w w1 rs w2 x :
  batch_log rt es1 w = (w1, Ok rs) ->
  uuids_fresh rt w1 ->
  log_reading rt (entry_sensor_id e) (entry_value e)
    match entry_quality e with Some q => q | None => "good" end w1
  = (w2, Raise x) ->
  batch_log rt (es1 ++ e :: es2) w = (w2, Raise x)
  /\ readings w2 = readings w ++ map Reading.as_stored rs.
Proof.
  intros H1 Hfresh Hlog. split.
  - rewrite batch_log_app_run. rewrite (bind_ok _ _ _ _ _ H1).
    simpl. unfold bind. rewrite Hlog. reflexivity.
  - pose proof (log_reading_raises_clean rt (entry_sensor_id e)
                  (entry_value e)
                  match entry_quality e with Some q => q | None => "good" end
                  w1 x Hfresh) as Hclean.
    rewrite Hlog in Hclean. destruct (Hclean eq_refl) as (_ & Hr & _).
    simpl in Hr. rewrite Hr.
    apply batch_log_returns in H1. apply H1.
Qed.

Lemma batch_log_stops_witness :
  let first := {| entry_sensor_id := Demo.uuid 0; entry_value := 50%float;
                  entry_quality := Some "good" |} in
  let bad := {| entry_sensor_id := "nowhere"; entry_value := 1%float;
                entry_quality := None |} in
  snd (batch_log Demo.runtime [first; bad; Demo.entry 2%float]
         Demo.one_sensor)
  = Raise (ValueError "Sensor not found: nowhere")
  /\ map Reading.raw_value
       (readings (fst (batch_log Demo.runtime
                         [first; bad; Demo.entry 2%float] Demo.one_sensor)))
     = [50%float].
Proof.
  intros first bad.
  set (p := batch_log Demo.runtime [first] Demo.one_sensor).
  set (rs := match snd p with Ok rs => rs | Raise _ => [] end).
  destruct (batch_log_stops Demo.runtime [first] bad [Demo.entry 2%float]
              Demo.one_sensor Demo.one_alert rs Demo.one_alert
              (ValueError "Sensor not found: nowhere")
              eq_refl Demo_uuids_fresh_one_alert eq_refl) as [H1 H2].
  split.
  - change ([first; bad; Demo.entry 2%float])
      with ([first] ++ bad :: [Demo.entry 2%float]).
    rewrite H1. reflexivity.
  - change ([first; bad; Demo.entry 2%float])
      with ([first] ++ bad :: [Demo.entry 2%float]).
    rewrite H1. reflexivity.
Defined.

(** ** The current reading and the history *)

Lemma latest_row_max (l : list Reading.t) (b : Reading.t) :
  latest_row l = Some b -> Forall (fun r => not_after r b) l.
Proof.
  revert b. induction l as [| r l IH] using rev_ind; intros b;
    [constructor |].
  rewrite latest_row_app. intros H. apply Forall_app.
  destruct (latest_row l) as [b' |] eqn:E.
  - specialize (IH b' eq_refl).
    destruct (Z.leb_spec (Reading.timestamp b') (Reading.timestamp r));
      injection H as <-.
    + split; [| constructor; [unfold not_after; lia | constructor]].
      eapply Forall_impl; [| exact IH]. unfold not_after. intros; lia.
    + split; [exact IH |].
      constructor; [unfold not_after; lia | constructor].
  - injection H as <-. apply latest_row_None in E. subst l.
    split; [constructor |].
    constructor; [unfold not_after; lia | constructor].
Qed.

(** [get_current] returns and writes nothing.  What it returns is a
    stored reading of the sensor that none of the sensor's readings is
    more recent than; it returns [None] only for a sensor that has no
    reading. *)
Theorem get_current_latest sid w :
  fst (get_current sid w) = w
  /\ match snd (get_current sid w) with
     | Ok (Some r) =>
         In r (readings w) /\ Reading.sensor_id r = sid
         /\ forall r', In r' (readings w) -> Reading.sensor_id r' = sid ->
              not_after r' r
     | Ok None =>
         forall r', In r' (readings w) -> Reading.sensor_id r' <> sid
     | Raise _ => False
     end.
Proof.
  unfold get_current, db_conn, select_current. simpl.
  split; [reflexivity |].
  destruct (latest_row _) as [r |] eqn:E.
  - pose proof (latest_row_max _ _ E) as Hmax.
    apply latest_row_In, filter_In in E. destruct E as [Hin Hsid].
    apply String.eqb_eq in Hsid. repeat split; try assumption.
    intros r' Hin' Hsid'. rewrite Forall_forall in Hmax. apply Hmax.
    apply filter_In. split; [exact Hin' | apply String.eqb_eq, Hsid'].
  - apply latest_row_None in E. intros r' Hin' Hsid'.
    assert (Hr : In r' (filter (fun r => Reading.sensor_id r =? sid)
                               (readings w)))
      by (apply filter_In; split; [exact Hin' | apply String.eqb_eq, Hsid']).
    rewrite E in Hr. destruct Hr.
Qed.

(** The sensor of [Demo.one_alert] has one reading, of 50. *)
Lemma get_current_latest_witness :
  fst (get_current (Demo.uuid 0) Demo.one_alert) = Demo.one_alert
  /\ not_after
       (Reading.mk (Demo.uuid 1) (Demo.uuid 0) 50%float (50 + 0)%float
                   Demo.t0
                   GOOD)
       (Reading.mk (Demo.uuid 1) (Demo.uuid 0) 50%float (50 + 0)%float
                   Demo.t0
                   GOOD).
Proof.
  destruct (get_current_latest (Demo.uuid 0) Demo.one_alert) as [H1 H2].
  split; [exact H1 |].
  apply (proj2 (proj2 H2)); [left; reflexivity | reflexivity].
Defined.

(** When the clock has not gone back behind the readings of the sensor,
    the reading [get_current] returns right after a [log_reading] is the
    one [log_reading] returned, as the database returns it: the same id,
    sensor, timestamp and quality, and the same [raw_value] and
    [calibrated_value] but for the sign of a zero, so that they are
    equal as [==] compares. *)
Theorem log_reading_then_get_current rt w sid value quality w' r :
  clock_not_behind rt sid w ->
  log_reading rt sid value quality w = (w', Ok r) ->
  get_current sid w' = (w', Ok (Some (Reading.as_stored r)))
  /\ F64.eq (Reading.raw_value (Reading.as_stored r)) (Reading.raw_value r)
     = true
  /\ F64.eq (Reading.calibrated_value (Reading.as_stored r))
            (Reading.calibrated_value r)
     = true.
Proof.
  intros Hclock Hlog.
  assert (Hnan : is_nan (Reading.raw_value r) = false
                 /\ is_nan (Reading.calibrated_value r) = false).
  { rewrite log_reading_run in Hlog.
    destruct (find _ (sensors w)) as [s |]; [| discriminate].
    destruct (ReadingQuality_of_string quality) as [q |]; [| discriminate].
    cbv zeta in Hlog.
    destruct (is_nan value) eqn:E1; [discriminate |].
    destruct (is_nan (value + _)) eqn:E2; [discriminate |].
    destruct (reading_exists _ w); [discriminate |].
    unfold bind in Hlog.
    destruct (check_thresholds _ _ _) as [w1 [o | e]]; [| discriminate].
    unfold ret in Hlog. injection Hlog as _ <-. simpl. auto. }
  apply log_reading_returns in Hlog.
  destruct Hlog as (s & q & _ & _ & Hr & _ & Hrs).
  split.
  - unfold get_current, db_conn, select_current. rewrite Hrs.
    rewrite (select_current_new rt sid w (Reading.as_stored r) Hclock);
      subst r; reflexivity.
  - simpl. split; apply F64Facts.eq_sql_real, Hnan.
Qed.

Lemma log_reading_then_get_current_witness :
  option_map Reading.raw_value
    match snd (get_current (Demo.uuid 0) Demo.one_alert) with
    | Ok o => o
    | Raise _ => None
    end
  = Some 50%float.
Proof.
  set (p := log_reading Demo.runtime (Demo.uuid 0) 50%float "good"
              Demo.one_sensor).
  set (r := match snd p with
            | Ok r => r
            | Raise _ =>
                Reading.mk EmptyString EmptyString 0%float 0%float 0%Z GOOD
            end).
  assert (Hclock : clock_not_behind Demo.runtime (Demo.uuid 0)
                     Demo.one_sensor) by (intros x []).
  pose proof (proj1 (log_reading_then_get_current Demo.runtime
                       Demo.one_sensor (Demo.uuid 0) 50%float "good"
                       Demo.one_alert r Hclock eq_refl)) as H.
  rewrite H. reflexivity.
Defined.

(** [get_history] reads the clock once and writes nothing.  When the
    window starts at a datetime, the rows it returns are the stored
    readings of the sensor that are not older than [hours] hours and,
    when a non-empty quality is asked for, have that quality; each as
    often as it is stored, and none before an older one.  When the window
    starts outside the range of [datetime] it raises [OverflowError].  An
    empty quality string is no filter. *)
Theorem get_history_sorted rt w sid hours quality_filter :
  in_datetime_range (now_at rt (clock_reads w)) ->
  (in_datetime_range (history_start rt w hours) ->
   exists rows,
     get_history rt sid hours quality_filter w = (tick w, Ok rows)
     /\ StronglySorted not_after rows
     /\ Permutation rows
          (filter
             (fun r =>
                (Reading.sensor_id r =? sid)
                && (history_start rt w hours <=? Reading.timestamp r)%Z
                && match quality_filter with
                   | None | Some EmptyString => true
                   | Some q => ReadingQuality_value (Reading.quality r) =? q
                   end)
             (readings w)))
  /\ (~ in_datetime_range (history_start rt w hours) ->
      exists msg,
        get_history rt sid hours quality_filter w
        = (tick w, Raise (OverflowError msg)))
  /\ get_history rt sid hours (Some EmptyString) w
     = get_history rt sid hours None w.
Proof.
  intros Hnow. rewrite !get_history_run. split; [| split].
  - intros Hstart. rewrite (minus_timedelta_ok _ _ _ Hnow Hstart).
    eexists. split; [reflexivity |].
    split; [apply order_by_timestamp_sorted |].
    apply order_by_timestamp_perm.
  - intros Hstart.
    destruct (minus_timedelta_overflow _ _ _ Hstart) as [msg ->]. eauto.
  - reflexivity.
Qed.

(** The four readings of the last hour, and a window of 10^9 hours. *)
Lemma get_history_sorted_witness :
  (exists rows,
     snd (get_history Demo.runtime (Demo.uuid 0) 1 None Demo.with_error)
     = Ok rows
     /\ List.length rows = 4 /\ StronglySorted not_after rows)
  /\ snd (get_history Demo.runtime (Demo.uuid 0) 1000000000 None
            Demo.with_error)
     = Raise (OverflowError "date value out of range").
Proof.
  assert (Hnow : in_datetime_range
                   (now_at Demo.runtime (clock_reads Demo.with_error)))
    by (apply Demo_now_in_range; vm_compute; lia).
  split.
  - destruct (proj1 (get_history_sorted Demo.runtime Demo.with_error
                       (Demo.uuid 0) 1 None Hnow))
      as (rows & E & Hs & Hp).
    + unfold in_datetime_range, history_start, DATETIME_MAX.
      vm_compute. split; discriminate.
    + exists rows. rewrite E. split; [reflexivity |].
      split; [| exact Hs].
      rewrite (Permutation_length Hp). reflexivity.
  - destruct (proj1 (proj2 (get_history_sorted Demo.runtime Demo.with_error
                              (Demo.uuid 0) 1000000000 None Hnow)))
      as (msg & E).
    + unfold in_datetime_range, history_start. vm_compute.
      intros [H _]. apply H. reflexivity.
    + reflexivity.
Defined.

(** ** The order of binary64 on numbers *)

Module F64Order.

Import F64.

Lemma SFleb_trans (x y z : spec_float) :
  SFleb x y = true -> SFleb y z = true -> SFleb x z = true.
Proof.
  unfold SFleb.
  destruct x as [s | s | | s m e], y as [t | t | | t n f],
    z as [u | u | | u o g]; simpl;
    try discriminate; try reflexivity;
    try (destruct s; try discriminate; try reflexivity);
    try (destruct t; try discriminate; try reflexivity);
    try (destruct u; try discriminate; try reflexivity);
    change (PosDef.Pos.compare_cont Eq) with Pos.compare;
    destruct (Z.compare_spec e f), (Z.compare_spec f g),
      (Z.compare_spec e g); try lia; try discriminate; try reflexivity;
    destruct (Pos.compare_spec m n), (Pos.compare_spec n o),
      (Pos.compare_spec m o); simpl; try lia; try discriminate;
      try reflexivity.
Qed.

Lemma le_trans (x y z : float) :
  le x y = true -> le y z = true -> le x z = true.
Proof. unfold le. rewrite !leb_spec. apply SFleb_trans. Qed.

Lemma le_refl (x : float) : is_nan x = false -> le x x = true.
Proof.
  unfold le. rewrite leb_spec, F64Facts.is_nan_Prim2SF. unfold SFleb.
  intros H. rewrite (F64Facts.SFcompare_refl _ H). reflexivity.
Qed.

End F64Order.

(** ** Statistics *)

(** [min] returns an element that is at most every element. *)
Lemma py_min_spec (x : float) (xs : list float) :
  Forall (fun v => is_nan v = false) (x :: xs) ->
  In (py_min x xs) (x :: xs)
  /\ Forall (fun v => F64.le (py_min x xs) v = true) (x :: xs).
Proof.
  revert x. induction xs as [| y ys IH]; intros x Hn.
  - simpl. split; [left; reflexivity |].
    constructor; [| constructor].
    apply F64Order.le_refl. apply (Forall_inv Hn).
  - pose proof (Forall_inv Hn) as Hx.
    pose proof (Forall_inv (Forall_inv_tail Hn)) as Hy.
    pose proof (Forall_inv_tail (Forall_inv_tail Hn)) as Hys.
    change (py_min x (y :: ys))
      with (py_min (if F64.lt y x then y else x) ys).
    destruct (F64.lt y x) eqn:E.
    + destruct (IH y (Forall_cons _ Hy Hys)) as [Hin Hall].
      split; [right; exact Hin |].
      constructor; [| exact Hall].
      apply (F64Order.le_trans _ y x); [apply (Forall_inv Hall) |].
      apply F64Facts.lt_le, E.
    + destruct (IH x (Forall_cons _ Hx Hys)) as [Hin Hall].
      split; [destruct Hin as [<- | Hin]; [left; reflexivity |
                                           right; right; exact Hin] |].
      constructor; [apply (Forall_inv Hall) |].
      constructor; [| apply (Forall_inv_tail Hall)].
      apply (F64Order.le_trans _ x y); [apply (Forall_inv Hall) |].
      apply F64Facts.not_lt_le; assumption.
Qed.

(** [max] returns an element that is at least every element. *)
Lemma py_max_spec (x : float) (xs : list float) :
  Forall (fun v => is_nan v = false) (x :: xs) ->
  In (py_max x xs) (x :: xs)
  /\ Forall (fun v => F64.le v (py_max x xs) = true) (x :: xs).
Proof.
  revert x. induction xs as [| y ys IH]; intros x Hn.
  - simpl. split; [left; reflexivity |].
    constructor; [| constructor].
    apply F64Order.le_refl. apply (Forall_inv Hn).
  - pose proof (Forall_inv Hn) as Hx.
    pose proof (Forall_inv (Forall_inv_tail Hn)) as Hy.
    pose proof (Forall_inv_tail (Forall_inv_tail Hn)) as Hys.
    change (py_max x (y :: ys))
      with (py_max (if F64.gt y x then y else x) ys).
    destruct (F64.gt y x) eqn:E.
    + destruct (IH y (Forall_cons _ Hy Hys)) as [Hin Hall].
      split; [right; exact Hin |].
      constructor; [| exact Hall].
      apply (F64Order.le_trans _ y _); [| apply (Forall_inv Hall)].
      apply F64Facts.lt_le, E.
    + destruct (IH x (Forall_cons _ Hx Hys)) as [Hin Hall].
      split; [destruct Hin as [<- | Hin]; [left; reflexivity |
                                           right; right; exact Hin] |].
      constructor; [apply (Forall_inv Hall) |].
      constructor; [| apply (Forall_inv_tail Hall)].
      apply (F64Order.le_trans _ x _); [| apply (Forall_inv Hall)].
      apply F64Facts.not_lt_le; assumption.
Qed.

Lemma filter_filter_and {A} (p q : A -> bool) (l : list A) :
  filter q (filter p l) = filter (fun x => p x && q x) l.
Proof.
  induction l as [| x l IH]; simpl; [reflexivity |].
  destruct (p x); simpl; [destruct (q x) |]; rewrite IH; reflexivity.
Qed.

(** The rows [get_stats] counts are the qualifying rows of the window. *)
Lemma stats_rows_perm rt sid hours w :
  Permutation
    (filter (fun r => negb (is_error (Reading.quality r)))
            (history_rows rt sid hours w))
    (qualifying_rows sid (now_at rt (clock_reads w) - hours * 3600000000) w).
Proof.
  unfold history_rows, qualifying_rows.
  rewrite filter_order_by_timestamp, order_by_timestamp_perm.
  rewrite filter_filter_and.
  erewrite filter_ext; [reflexivity |].
  intros r. unfold qualifying. rewrite andb_true_r. reflexivity.
Qed.

Lemma add_sensor_schema rt dev ty unit mn mx off name loc :
  keeps schema_ok (add_sensor rt dev ty unit mn mx off name loc).
Proof.
  pose proof schema_ok_tables as T.
  pose proof insert_sensor_schema as S1.
  apply (add_sensor_keeps schema_ok); assumption.
Qed.

Lemma batch_log_schema rt entries : keeps schema_ok (batch_log rt entries).
Proof.
  pose proof schema_ok_tables as T.
  pose proof insert_reading_schema as S3.
  assert (S4 : forall a, Alert.severity a <> INFO ->
                         Alert.resolved_at a = None ->
                         keeps schema_ok (insert_alert a))
    by (intros a _ _; apply insert_alert_schema).
  apply (batch_log_keeps schema_ok); assumption.
Qed.

Lemma Demo_schema_ok_room : schema_ok Demo.room.
Proof.
  apply add_sensor_schema. repeat split; constructor.
Qed.

Lemma Demo_schema_ok_with_error : schema_ok Demo.with_error.
Proof. apply batch_log_schema, Demo_schema_ok_room. Qed.

(** [get_stats] never looks the sensor up.  When the window starts at a
    datetime, for a sensor that has no reading in the window whose
    quality is not "error", and so for an id that no sensor has, it
    returns the empty statistics and does not raise.  When the window
    starts outside the range of [datetime] it raises [OverflowError],
    whatever is stored. *)
Theorem get_stats_no_reading rt w sid hours :
  in_datetime_range (now_at rt (clock_reads w)) ->
  (in_datetime_range (history_start rt w hours) ->
   ((forall r, In r (readings w) -> Reading.sensor_id r = sid ->
       (history_start rt w hours <= Reading.timestamp r)%Z ->
       Reading.quality r = ERROR) ->
    snd (get_stats rt sid hours w)
    = Ok {| count := 0; min := None; max := None;
            avg := None; stddev := None |})
   /\ (schema_ok w -> sensor_exists sid w = false ->
       snd (get_stats rt sid hours w)
       = Ok {| count := 0; min := None; max := None;
               avg := None; stddev := None |}))
  /\ (~ in_datetime_range (history_start rt w hours) ->
      exists msg,
        snd (get_stats rt sid hours w) = Raise (OverflowError msg)).
Proof.
  intros Hnow. split.
  - intros Hstart.
    assert (K :
      (forall r, In r (readings w) -> Reading.sensor_id r = sid ->
         (history_start rt w hours <= Reading.timestamp r)%Z ->
         Reading.quality r = ERROR) ->
      snd (get_stats rt sid hours w)
      = Ok {| count := 0; min := None; max := None;
              avg := None; stddev := None |}).
    { intros H. rewrite (get_stats_in_range _ _ _ _ Hnow Hstart).
      assert (Hq : qualifying_rows sid (history_start rt w hours) w = []).
      { unfold qualifying_rows.
        destruct (filter (qualifying _ _) (readings w)) as [| r l] eqn:E;
          [reflexivity |].
        assert (Hin : In r (filter (qualifying sid (history_start rt w hours))
                              (readings w)))
          by (rewrite E; left; reflexivity).
        apply filter_In in Hin. destruct Hin as [Hin Hr].
        unfold qualifying in Hr.
        apply andb_prop in Hr. destruct Hr as [Hr Hok].
        apply andb_prop in Hr. destruct Hr as [Hsid Hts].
        apply String.eqb_eq in Hsid. apply Z.leb_le in Hts.
        rewrite (H r Hin Hsid Hts) in Hok. discriminate. }
      pose proof (stats_rows_perm rt sid hours w) as Hp.
      unfold history_start in Hq.
      rewrite Hq in Hp. apply Permutation_sym, Permutation_nil in Hp.
      rewrite Hp. reflexivity. }
    split; [exact K |].
    intros (_ & _ & _ & _ & Hrows & _) Hex. apply K.
    intros r Hin Hsid _. rewrite Forall_forall in Hrows.
    destruct (Hrows r Hin) as (_ & _ & Hfk).
    rewrite Hsid in Hfk. congruence.
  - intros Hstart. rewrite get_stats_run.
    destruct (minus_timedelta_overflow _ _ _ Hstart) as [msg ->]. eauto.
Qed.

Lemma get_stats_no_reading_witness :
  snd (get_stats Demo.runtime (Demo.uuid 0) 1 Demo.room)
  = Ok {| count := 0; min := None; max := None;
          avg := None; stddev := None |}
  /\ snd (get_stats Demo.runtime "nowhere" 1 Demo.with_error)
     = Ok {| count := 0; min := None; max := None;
             avg := None; stddev := None |}
  /\ snd (get_stats Demo.runtime "nowhere" 1000000000 Demo.with_error)
     = Raise (OverflowError "date value out of range").
Proof.
  assert (Hroom : in_datetime_range
                    (now_at Demo.runtime (clock_reads Demo.room)))
    by (apply Demo_now_in_range; vm_compute; lia).
  assert (Hnow : in_datetime_range
                   (now_at Demo.runtime (clock_reads Demo.with_error)))
    by (apply Demo_now_in_range; vm_compute; lia).
  assert (Sroom : in_datetime_range (history_start Demo.runtime Demo.room 1))
    by (unfold in_datetime_range, history_start, DATETIME_MAX;
        vm_compute; split; discriminate).
  assert (Sstart : in_datetime_range
                     (history_start Demo.runtime Demo.with_error 1))
    by (unfold in_datetime_range, history_start, DATETIME_MAX;
        vm_compute; split; discriminate).
  split; [| split].
  - apply (proj1 (proj1 (get_stats_no_reading Demo.runtime Demo.room
                           (Demo.uuid 0) 1 Hroom) Sroom)).
    intros r [].
  - apply (proj2 (proj1 (get_stats_no_reading Demo.runtime Demo.with_error
                           "nowhere" 1 Hnow) Sstart)).
    + exact Demo_schema_ok_with_error.
    + reflexivity.
  - destruct (proj2 (get_stats_no_reading Demo.runtime Demo.with_error
                       "nowhere" 1000000000 Hnow)) as (msg & E).
    + unfold in_datetime_range, history_start. vm_compute.
      intros [H _]. apply H. reflexivity.
    + reflexivity.
Defined.

(** On a database that meets the schema, the statistics [get_stats]
    returns count the readings of the sensor in the window whose quality
    is not "error"; when there is one, [min] and [max] are calibrated
    values of such readings, and the calibrated value of every such
    reading lies between them. *)
Theorem get_stats_bounds rt w sid hours st :
  schema_ok w ->
  snd (get_stats rt sid hours w) = Ok st ->
  let rows :=
    qualifying_rows sid (now_at rt (clock_reads w) - hours * 3600000000) w in
  count st = List.length rows
  /\ (rows = [] -> min st = None /\ max st = None)
  /\ (rows <> [] ->
      exists lo hi,
        min st = Some lo /\ max st = Some hi
        /\ In lo (map Reading.calibrated_value rows)
        /\ In hi (map Reading.calibrated_value rows)
        /\ forall r, In r rows ->
             F64.le lo (Reading.calibrated_value r) = true
             /\ F64.le (Reading.calibrated_value r) hi = true).
Proof.
  intros (_ & _ & _ & _ & Hrows & _) Hst rows.
  rewrite get_stats_run in Hst.
  destruct (minus_timedelta _ _ _) as [since | e]; [| discriminate].
  pose proof (stats_rows_perm rt sid hours w) as Hp. fold rows in Hp.
  set (kept := filter (fun r => negb (is_error (Reading.quality r)))
                      (history_rows rt sid hours w)) in *.
  assert (Hnan : Forall (fun v => is_nan v = false)
                        (map Reading.calibrated_value kept)).
  { apply Forall_forall. intros v Hv. apply in_map_iff in Hv.
    destruct Hv as (r & <- & Hr).
    apply (Permutation_in _ Hp) in Hr. apply filter_In in Hr.
    rewrite Forall_forall in Hrows. apply (Hrows r), Hr. }
  assert (Hlen : List.length (map Reading.calibrated_value kept)
                 = List.length rows)
    by (rewrite length_map; apply Permutation_length, Hp).
  assert (Hin : forall v, In v (map Reading.calibrated_value kept) ->
                          In v (map Reading.calibrated_value rows))
    by (intros v; apply Permutation_in, Permutation_map, Hp).
  assert (Hall : forall r, In r rows ->
                   In (Reading.calibrated_value r)
                      (map Reading.calibrated_value kept))
    by (intros r Hr; apply in_map;
        apply (Permutation_in _ (Permutation_sym Hp)), Hr).
  unfold stats_of in Hst.
  destruct (map Reading.calibrated_value kept) as [| v vs] eqn:Ev.
  - injection Hst as <-. simpl in *.
    split; [exact Hlen |]. split; [auto |].
    intros Hne. destruct rows; [congruence | discriminate].
  - destruct (statistics_mean rt (v :: vs)) as [mean | e]; [| discriminate].
    destruct (if (1 <? _)%nat then _ else _) as [stdev | e];
      [| discriminate].
    injection Hst as <-. simpl count. simpl min. simpl max.
    split; [exact Hlen |].
    split; [intros E; rewrite E in Hlen; discriminate |].
    intros _. exists (py_min v vs), (py_max v vs).
    destruct (py_min_spec v vs Hnan) as [Hmin_in Hmin].
    destruct (py_max_spec v vs Hnan) as [Hmax_in Hmax].
    rewrite Forall_forall in Hmin, Hmax.
    repeat match goal with |- _ /\ _ => split end; auto.
Qed.

(** Readings of 10, 20 and 30 and an error reading of 1000: the minimum
    is 10 and the maximum 30. *)
Lemma get_stats_bounds_witness :
  exists st,
    snd (get_stats Demo.runtime (Demo.uuid 0) 1 Demo.with_error) = Ok st
    /\ count st = 3
    /\ min st = Some 10%float /\ max st = Some 30%float.
Proof.
  set (st := match snd (get_stats Demo.runtime (Demo.uuid 0) 1
                          Demo.with_error) with
             | Ok st => st
             | Raise _ => {| count := 0; min := None; max := None;
                             avg := None; stddev := None |}
             end).
  exists st.
  destruct (get_stats_bounds Demo.runtime Demo.with_error (Demo.uuid 0) 1 st
              Demo_schema_ok_with_error eq_refl) as (Hc & _ & _).
  split; [reflexivity |]. split; [exact Hc |]. split; reflexivity.
Defined.

(** ** Raising alerts *)

(** [_create_alert], case by case. *)
Lemma _create_alert_run rt sid ty sev msg w :
  _create_alert rt sid ty sev msg w
  = let a := new_alert rt w sid ty sev msg in
    if alert_exists (Alert.id a) w
    then (tick (drawn w), Raise (unique_failed "alerts.id"))
    else if sensor_exists sid w then (with_alert w a, Ok a)
    else (tick (drawn w), Raise foreign_key_failed).
Proof.
  unfold _create_alert, bind, uuid4, utcnow, db_conn, insert_alert,
    alert_exists, sensor_exists; simpl.
  destruct (existsb _ (alerts w)); [reflexivity |].
  destruct (existsb _ (sensors w)); reflexivity.
Qed.

Lemma _create_alert_outcome rt sid ty sev msg w :
  alert_outcome
    (fun a => Alert.sensor_id a = sid /\ Alert.type a = ty
              /\ Alert.severity a = sev)
    w (bind (_create_alert rt sid ty sev msg) (fun a => ret (Some a)) w).
Proof.
  unfold bind. rewrite _create_alert_run. cbv zeta.
  destruct (alert_exists _ w); [repeat split |].
  destruct (sensor_exists sid w); repeat split.
Qed.

Lemma alert_outcome_impl (ok ok' : Alert.t -> Prop) w p :
  (forall a, ok a -> ok' a) -> alert_outcome ok w p -> alert_outcome ok' w p.
Proof.
  unfold alert_outcome. intros Himp (Hs & Hr & H).
  split; [exact Hs |]. split; [exact Hr |].
  destruct (snd p) as [[a |] | e]; try exact H.
  destruct H as (Ha & Hact & Hok). auto.
Qed.

Lemma alert_outcome_tick (ok : Alert.t -> Prop) w p :
  alert_outcome ok (tick w) p -> alert_outcome ok w p.
Proof. exact (fun H => H). Qed.

(** The two methods that may raise an alert of their own do so in one
    way.  [check_thresholds] and [detect_anomaly] never touch the sensors
    or the readings; the alert either returns is active and is stored as
    the new last row of the alerts; when either returns [None], or
    raises, the alerts are as they were.  An alert of [check_thresholds]
    is a critical threshold alert of the sensor, one of [detect_anomaly]
    an anomaly alert of the sensor that is a warning or critical. *)
Theorem returned_alert_is_stored rt w sid :
  alert_outcome
    (fun a => Alert.sensor_id a = sid /\ Alert.type a = THRESHOLD
              /\ Alert.severity a = CRITICAL)
    w (check_thresholds rt sid w)
  /\ forall window z_threshold,
       alert_outcome
         (fun a => Alert.sensor_id a = sid /\ Alert.type a = ANOMALY
                   /\ (Alert.severity a = WARNING
                       \/ Alert.severity a = CRITICAL))
         w (detect_anomaly rt sid window z_threshold w).
Proof.
  split.
  - unfold check_thresholds, get_current.
    unfold bind at 1. unfold db_conn at 1, select_current at 1.
    destruct (latest_row _) as [r |]; [| repeat split].
    unfold bind at 1.
    pose proof (get_sensor_world sid w) as Hw.
    destruct (get_sensor sid w) as [w1 [s | e]]; simpl in Hw; subst w1;
      [| repeat split].
    destruct (F64.lt _ _); [apply _create_alert_outcome |].
    destruct (F64.gt _ _); [apply _create_alert_outcome | repeat split].
  - intros window z_threshold. rewrite detect_anomaly_run.
    destruct (minus_timedelta _ _ _) as [since | e]; [| repeat split].
    cbv zeta.
    destruct (_ <? _)%nat; [repeat split |].
    destruct (statistics_mean rt _) as [mean | e]; [| repeat split].
    destruct (statistics_stdev rt _) as [stdev | e]; [| repeat split].
    destruct (F64.eq _ _); [repeat split |].
    destruct (F64.gt _ z_threshold); [| repeat split].
    apply alert_outcome_tick.
    eapply alert_outcome_impl; [| apply _create_alert_outcome].
    simpl. intros a (Hs & Ht & Hsev). split; [exact Hs |].
    split; [exact Ht |].
    destruct (F64.gt _ _); auto.
Qed.

(** [mark_sensor_offline] does not look the sensor up.  With a fresh
    uuid, on a registered sensor it stores and returns an active warning
    of type offline, triggered at the time read; on an id that no sensor
    has it is the foreign key of the alerts table that refuses the row:
    the call raises [IntegrityError], not the not-found [ValueError], and
    stores nothing. *)
Theorem mark_sensor_offline_spec rt w sid :
  alert_exists (uuid_at rt (uuid_draws w)) w = false ->
  (sensor_exists sid w = true ->
     exists a,
       mark_sensor_offline rt sid w = (with_alert w a, Ok a)
       /\ Alert.sensor_id a = sid /\ Alert.type a = OFFLINE
       /\ Alert.severity a = WARNING /\ Alert.is_active a = true
       /\ Alert.triggered_at a = now_at rt (clock_reads w))
  /\ (sensor_exists sid w = false ->
      snd (mark_sensor_offline rt sid w) = Raise foreign_key_failed
      /\ same_tables w (fst (mark_sensor_offline rt sid w))).
Proof.
  intros Hfresh. unfold mark_sensor_offline. rewrite _create_alert_run.
  cbv zeta. simpl Alert.id. rewrite Hfresh. split; intros ->.
  - eexists. split; [reflexivity |]. repeat split.
  - split; [reflexivity |]. repeat split.
Qed.

Lemma mark_sensor_offline_spec_witness :
  (exists a, snd (mark_sensor_offline Demo.runtime (Demo.uuid 0)
                    Demo.one_alert) = Ok a
             /\ Alert.type a = OFFLINE /\ Alert.severity a = WARNING)
  /\ snd (mark_sensor_offline Demo.runtime "nowhere" Demo.one_alert)
     = Raise foreign_key_failed.
Proof.
  split.
  - destruct (proj1 (mark_sensor_offline_spec Demo.runtime Demo.one_alert
                       (Demo.uuid 0) eq_refl) eq_refl)
      as (a & E & _ & Hty & Hsev & _).
    exists a. rewrite E. auto.
  - apply (proj2 (mark_sensor_offline_spec Demo.runtime Demo.one_alert
                    "nowhere" eq_refl) eq_refl).
Defined.

(** ** ORDER BY triggered_at DESC *)

Lemma insert_by_triggered_desc_perm a l :
  Permutation (insert_by_triggered_desc a l) (a :: l).
Proof.
  induction l as [| x l IH]; simpl; [reflexivity |].
  destruct (_ <=? _)%Z; [reflexivity |].
  rewrite IH. apply perm_swap.
Qed.

Lemma order_by_triggered_desc_perm l :
  Permutation (order_by_triggered_desc l) l.
Proof.
  induction l as [| x l IH]; simpl; [reflexivity |].
  rewrite insert_by_triggered_desc_perm. constructor. exact IH.
Qed.

Lemma insert_by_triggered_desc_sorted a l :
  StronglySorted not_before l ->
  StronglySorted not_before (insert_by_triggered_desc a l).
Proof.
  induction 1 as [| x l Hs IH Hx]; simpl.
  - constructor; constructor.
  - destruct (Z.leb_spec (Alert.triggered_at x) (Alert.triggered_at a)).
    + constructor; [constructor; assumption |].
      constructor; [assumption |].
      eapply Forall_impl; [| exact Hx]. unfold not_before. intros; lia.
    + constructor; [exact IH |].
      apply (Permutation_Forall
               (Permutation_sym (insert_by_triggered_desc_perm a l))).
      constructor; [| exact Hx]. unfold not_before. lia.
Qed.

Lemma order_by_triggered_desc_sorted l :
  StronglySorted not_before (order_by_triggered_desc l).
Proof.
  induction l as [| x l IH]; simpl; [constructor |].
  apply insert_by_triggered_desc_sorted, IH.
Qed.

Lemma insert_by_triggered_desc_front a l :
  Forall (not_before a) l -> insert_by_triggered_desc a l = a :: l.
Proof.
  destruct l as [| x l]; [reflexivity |]. intros H. simpl.
  apply Forall_inv in H. unfold not_before in H.
  destruct (Z.leb_spec (Alert.triggered_at x) (Alert.triggered_at a));
    [reflexivity | lia].
Qed.

Lemma filter_insert_by_triggered_desc (p : Alert.t -> bool) a l :
  StronglySorted not_before l ->
  filter p (insert_by_triggered_desc a l)
  = if p a then insert_by_triggered_desc a (filter p l) else filter p l.
Proof.
  induction 1 as [| x l Hs IH Hx]; simpl.
  - destruct (p a); reflexivity.
  - destruct (Z.leb_spec (Alert.triggered_at x) (Alert.triggered_at a))
      as [Hle | Hgt].
    + simpl. destruct (p a); [| reflexivity].
      symmetry. apply insert_by_triggered_desc_front.
      assert (Hall : Forall (not_before a) (x :: l)).
      { constructor; [exact Hle |].
        eapply Forall_impl; [| exact Hx]. unfold not_before. intros; lia. }
      rewrite Forall_forall in Hall |- *. intros y Hy.
      apply Hall. change (In y (filter p (x :: l))) in Hy.
      apply filter_In in Hy. tauto.
    + simpl. rewrite IH. destruct (p x), (p a); simpl; try reflexivity.
      destruct (Z.leb_spec (Alert.triggered_at x) (Alert.triggered_at a));
        [lia | reflexivity].
Qed.

Lemma filter_order_by_triggered_desc (p : Alert.t -> bool) l :
  filter p (order_by_triggered_desc l) = order_by_triggered_desc (filter p l).
Proof.
  induction l as [| x l IH]; simpl; [reflexivity |].
  rewrite filter_insert_by_triggered_desc
    by apply order_by_triggered_desc_sorted.
  rewrite IH. destruct (p x); reflexivity.
Qed.

(** ** Listing and resolving alerts *)

(** [get_all_alerts] and [get_active_alerts] return and write nothing.
    The first returns every stored alert, each as often as it is stored,
    none before one that was triggered later; the second returns, in the
    same order, those of them that are not resolved. *)
Theorem alert_listings w :
  exists every active,
    get_all_alerts w = (w, Ok every)
    /\ get_active_alerts w = (w, Ok active)
    /\ Permutation every (alerts w)
    /\ StronglySorted not_before every
    /\ active = filter Alert.is_active every.
Proof.
  exists (order_by_triggered_desc (alerts w)),
         (order_by_triggered_desc (filter Alert.is_active (alerts w))).
  split; [reflexivity |]. split; [reflexivity |].
  split; [apply order_by_triggered_desc_perm |].
  split; [apply order_by_triggered_desc_sorted |].
  symmetry. apply filter_order_by_triggered_desc.
Qed.

Lemma resolve_alert_world rt aid w :
  fst (resolve_alert rt aid w)
  = {| sensors := sensors w; readings := readings w;
       alerts := map (fun a => if Alert.id a =? aid
                               then Alert.with_resolved_at a
                                      (now_at rt (clock_reads w))
                               else a)
                     (alerts w);
       uuid_draws := uuid_draws w; clock_reads := S (clock_reads w) |}.
Proof. rewrite resolve_alert_run. reflexivity. Qed.

(** [resolve_alert] touches the alerts of the given id only.  Whether it
    returns or raises, the sensors and the readings are as they were, the
    alerts have the ids they had, in the same rows, every alert of
    another id is the row it was, and [get_active_alerts] then lists the
    alerts that were active before and have another id. *)
Theorem resolve_alert_frame rt w aid :
  let w' := fst (resolve_alert rt aid w) in
  sensors w' = sensors w /\ readings w' = readings w
  /\ map Alert.id (alerts w') = map Alert.id (alerts w)
  /\ (forall x, In x (alerts w) -> Alert.id x <> aid -> In x (alerts w'))
  /\ exists rows,
       get_active_alerts w' = (w', Ok rows)
       /\ forall x, In x rows <->
            In x (alerts w) /\ Alert.is_active x = true /\ Alert.id x <> aid.
Proof.
  intros w'. subst w'. rewrite resolve_alert_world. cbn [sensors readings alerts].
  set (upd := fun a => if Alert.id a =? aid
                       then Alert.with_resolved_at a
                              (now_at rt (clock_reads w))
                       else a).
  split; [reflexivity |]. split; [reflexivity |].
  split.
  { rewrite map_map. apply map_ext. intros a. unfold upd.
    destruct (Alert.id a =? aid); reflexivity. }
  split.
  { intros x Hin Hne. apply in_map_iff. exists x. split; [| exact Hin].
    unfold upd. destruct (String.eqb_spec (Alert.id x) aid);
      [contradiction | reflexivity]. }
  eexists. split; [reflexivity |].
  intros x. cbn [alerts].
  split.
  - intros Hx.
    apply (Permutation_in _ (order_by_triggered_desc_perm _)) in Hx.
    apply filter_In in Hx. destruct Hx as [Hx Hact].
    apply in_map_iff in Hx. destruct Hx as (y & <- & Hy).
    unfold upd in *. destruct (String.eqb_spec (Alert.id y) aid) as [E | E].
    + discriminate.
    + auto.
  - intros (Hin & Hact & Hne).
    apply (Permutation_in _
             (Permutation_sym (order_by_triggered_desc_perm _))).
    apply filter_In. split; [| exact Hact].
    apply in_map_iff. exists x. split; [| exact Hin].
    unfold upd. destruct (String.eqb_spec (Alert.id x) aid);
      [contradiction | reflexivity].
Qed.

(** Resolving the alert of [Demo.one_alert] leaves no active alert;
    resolving an id that no alert has leaves it in place. *)
Lemma resolve_alert_frame_witness :
  snd (get_active_alerts Demo.one_resolved) = Ok []
  /\ In (Alert.mk (Demo.uuid 2) (Demo.uuid 0) THRESHOLD CRITICAL
                  "Value #.### above maximum #" (Demo.t0 + 1)%Z None)
        (alerts (fst (resolve_alert Demo.runtime "nowhere" Demo.one_alert))).
Proof.
  split; [reflexivity |].
  destruct (resolve_alert_frame Demo.runtime Demo.one_alert "nowhere")
    as (_ & _ & _ & H & _).
  apply H; [left; reflexivity | discriminate].
Defined.

(** ** Registration, read back *)

Lemma filter_all_true {A} (p : A -> bool) (l : list A) :
  (forall x, p x = true) -> filter p l = l.
Proof.
  intros H. induction l as [| x l IH]; simpl; [reflexivity |].
  rewrite H, IH. reflexivity.
Qed.

(** A sensor [add_sensor] returns is stored under an id that no sensor
    had: [get_sensor] on that id returns it, [list_sensors] without a
    device lists it after the sensors there were, and [list_sensors] on
    its device lists it after the sensors that device had.  It has the
    device, unit, name and location that were given, and the offset that
    was given as the [REAL] column keeps it: equal to the one given, with
    [-0.0] read back as [0.0].  The readings and the alerts are as they
    were. *)
Theorem add_sensor_then_read rt w dev ty unit mn mx off name loc w' s :
  add_sensor rt dev ty unit mn mx off name loc w = (w', Ok s) ->
  sensor_exists (Sensor.id s) w = false
  /\ get_sensor (Sensor.id s) w' = (w', Ok s)
  /\ list_sensors None w' = (w', Ok (sensors w ++ [s]))
  /\ (forall rows, dev <> EmptyString ->
        snd (list_sensors (Some dev) w) = Ok rows ->
        snd (list_sensors (Some dev) w') = Ok (rows ++ [s]))
  /\ (Sensor.device_id s = dev /\ Sensor.unit s = unit
      /\ Sensor.calibration_offset s = sql_real off
      /\ F64.eq (Sensor.calibration_offset s) off = true
      /\ Sensor.name s = name /\ Sensor.location s = loc)
  /\ readings w' = readings w /\ alerts w' = alerts w.
Proof.
  rewrite add_sensor_run.
  destruct (SensorType_of_string ty) as [stype |]; [| discriminate].
  cbv zeta.
  destruct (is_nan match mn with Some v => v | None => _ end);
    [discriminate |].
  destruct (is_nan match mx with Some v => v | None => _ end);
    [discriminate |].
  destruct (is_nan off) eqn:Hoff; [discriminate |].
  destruct (sensor_exists _ w) eqn:Hex; [discriminate |].
  intros H. injection H as <- <-. simpl Sensor.id in *.
  split; [exact Hex |].
  split.
  { apply get_sensor_found. unfold registered. simpl.
    apply find_app_fresh; [exact Hex | apply String.eqb_refl]. }
  split.
  { unfold list_sensors, db_conn, select_sensors. cbn [sensors].
    rewrite filter_all_true; reflexivity. }
  split.
  { intros rows Hdev. destruct dev as [| c dev]; [congruence |].
    unfold list_sensors, db_conn, select_sensors. simpl.
    intros H. injection H as <-.
    rewrite filter_app. simpl. rewrite Ascii.eqb_refl, String.eqb_refl.
    reflexivity. }
  split.
  { simpl. repeat split. apply F64Facts.eq_sql_real, Hoff. }
  repeat split.
Qed.

Lemma add_sensor_then_read_witness :
  exists s,
    snd (add_sensor Demo.runtime "dev-1" "temperature" "C" None None 0%float
           (Some "Room Temp") (Some "Office") Demo.empty) = Ok s
    /\ snd (list_sensors (Some "dev-1") Demo.room) = Ok [s]
    /\ snd (get_sensor (Sensor.id s) Demo.room) = Ok s.
Proof.
  set (p := add_sensor Demo.runtime "dev-1" "temperature" "C" None None
              0%float (Some "Room Temp") (Some "Office") Demo.empty).
  set (s := Sensor.mk (Demo.uuid 0) "dev-1" TEMPERATURE "C"
                      (-40)%float 85%float 0%float
                      (Some "Room Temp") (Some "Office")).
  destruct (add_sensor_then_read Demo.runtime Demo.empty "dev-1"
              "temperature" "C" None None 0%float (Some "Room Temp")
              (Some "Office") Demo.room s eq_refl)
    as (_ & Hget & _ & Hdev & _).
  exists s. split; [reflexivity |].
  split; [apply (Hdev []); [discriminate | reflexivity] |].
  rewrite Hget. reflexivity.
Defined.

(** ** The dashboard *)

(** [get_stats] reads the clock once and writes nothing. *)
Lemma get_stats_world rt sid hours w : fst (get_stats rt sid hours w) = tick w.
Proof.
  unfold get_stats. unfold bind at 1. rewrite get_history_run.
  destruct (minus_timedelta _ _ _) as [since | e]; [| reflexivity].
  destruct (map _ _) as [| v vs]; [reflexivity |].
  unfold bind at 1. unfold call at 1.
  destruct (statistics_mean rt (v :: vs)) as [mean | e]; [| reflexivity].
  unfold bind at 1.
  destruct (1 <? _)%nat; [unfold call |]; simpl;
    [destruct (statistics_stdev rt (v :: vs)) |]; reflexivity.
Qed.

Lemma summarize_all_returns rt active rows w w' xs :
  summarize_all rt active rows w = (w', Ok xs) ->
  same_tables w w'
  /\ clock_reads w' = clock_reads w + List.length rows
  /\ map Summary.sensor_id xs = map Sensor.id rows
  /\ map Summary.alert_count xs
     = map (fun s => List.length
                       (filter (fun a => Alert.sensor_id a =? Sensor.id s)
                               active))
           rows
  /\ map Summary.current_value xs
     = map (fun s => option_map Reading.calibrated_value
                       (latest_row
                          (filter (fun r => Reading.sensor_id r
                                            =? Sensor.id s)
                                  (readings w))))
           rows.
Proof.
  revert w w' xs. induction rows as [| s rows IH]; intros w w' xs.
  - simpl. unfold ret. intros H. injection H as <- <-.
    split; [apply same_tables_refl |]. split; [lia |]. auto.
  - simpl. unfold bind at 1. unfold summarize at 1.
    unfold bind at 1. unfold get_current at 1, db_conn at 1,
      select_current at 1.
    unfold bind at 1.
    pose proof (get_stats_world rt (Sensor.id s) 1 w) as Hw.
    destruct (get_stats rt (Sensor.id s) 1 w) as [w1 [st | e]];
      simpl in Hw; subst w1; [| discriminate].
    unfold ret at 1. unfold bind at 1.
    destruct (summarize_all rt active rows (tick w)) as [w2 [xs' | e]] eqn:E;
      [| discriminate].
    unfold ret. intros H. injection H as <- <-.
    destruct (IH _ _ _ E) as (Ht & Hc & Hid & Hcount & Hcur).
    split; [exact Ht |].
    split; [rewrite Hc; simpl; lia |].
    simpl. rewrite Hid, Hcount, Hcur. auto.
Qed.

Lemma list_sum_indicator (ids : list string) (k : string) :
  NoDup ids -> In k ids ->
  list_sum (map (fun i => if k =? i then 1 else 0) ids) = 1.
Proof.
  induction 1 as [| i ids Hni Hnd IH]; intros Hin; [destruct Hin |].
  simpl. destruct (String.eqb_spec k i) as [-> | Hne].
  - assert (Z0 : list_sum (map (fun j => if i =? j then 1 else 0) ids) = 0).
    { clear IH Hnd Hin. induction ids as [| j ids IH]; [reflexivity |].
      simpl. destruct (String.eqb_spec i j) as [-> | _];
        [exfalso; apply Hni; left; reflexivity |].
      apply IH. intros H. apply Hni. right. exact H. }
    rewrite Z0. reflexivity.
  - destruct Hin as [-> | Hin]; [congruence |]. apply IH, Hin.
Qed.

(** When every alert belongs to one of the sensors and no two sensors
    share an id, the numbers of alerts of the sensors add up to the
    number of alerts. *)
Lemma alert_count_sum (ids : list string) (active : list Alert.t) :
  NoDup ids ->
  Forall (fun a => In (Alert.sensor_id a) ids) active ->
  list_sum
    (map (fun i => List.length
                     (filter (fun a => Alert.sensor_id a =? i) active))
         ids)
  = List.length active.
Proof.
  intros Hnd. induction 1 as [| a active Ha Hall IH].
  - simpl. induction ids as [| i ids IHi]; [reflexivity |].
    simpl. apply IHi. inversion Hnd; assumption.
  - assert (E : list_sum
                  (map (fun i => List.length
                                   (filter (fun x => Alert.sensor_id x =? i)
                                           (a :: active)))
                       ids)
                = list_sum (map (fun i => if Alert.sensor_id a =? i
                                          then 1 else 0) ids)
                  + list_sum
                      (map (fun i => List.length
                                       (filter (fun x => Alert.sensor_id x =? i)
                                               active))
                           ids)).
    { clear. induction ids as [| i ids IHi]; [reflexivity |].
      cbn [map].
      repeat match goal with
      | |- context [list_sum (?x :: ?l)] =>
          change (list_sum (x :: l)) with (x + list_sum l)
      end.
      rewrite IHi. cbn [filter].
      destruct (Alert.sensor_id a =? i); cbn [List.length]; lia. }
    rewrite E, IH, (list_sum_indicator ids (Alert.sensor_id a) Hnd Ha).
    reflexivity.
Qed.

(** A dashboard [get_dashboard_data] returns was assembled without a
    write.  It has one summary for each sensor, in registration order,
    with the current value [get_current] gives; its alerts are those
    [get_active_alerts] lists, counted by [active_alerts], and
    [critical_alerts] counts the critical ones among them, so it is at
    most [active_alerts]; [generated_at] is read after the clock was read
    once for each sensor.  On a database that meets the schema the
    [alert_count]s of the summaries add up to [active_alerts]. *)
Theorem get_dashboard_data_counts rt w w' d :
  get_dashboard_data rt w = (w', Ok d) ->
  same_tables w w'
  /\ DashboardData.total_sensors d = List.length (sensors w)
  /\ map Summary.sensor_id (DashboardData.sensors d)
     = map Sensor.id (sensors w)
  /\ map Summary.current_value (DashboardData.sensors d)
     = map (fun s => option_map Reading.calibrated_value
                       match snd (get_current (Sensor.id s) w) with
                       | Ok cur => cur
                       | Raise _ => None
                       end)
           (sensors w)
  /\ snd (get_active_alerts w) = Ok (DashboardData.alerts d)
  /\ DashboardData.active_alerts d
     = List.length (filter Alert.is_active (alerts w))
  /\ DashboardData.critical_alerts d
     = List.length (filter is_critical (filter Alert.is_active (alerts w)))
  /\ DashboardData.critical_alerts d <= DashboardData.active_alerts d
  /\ DashboardData.generated_at d
     = now_at rt (clock_reads w + List.length (sensors w))
  /\ (schema_ok w ->
      list_sum (map Summary.alert_count (DashboardData.sensors d))
      = DashboardData.active_alerts d).
Proof.
  unfold get_dashboard_data.
  unfold bind at 1. unfold list_sensors at 1, db_conn at 1,
    select_sensors at 1. cbn [sensors].
  rewrite (filter_all_true (fun _ : Sensor.t => true)) by reflexivity.
  unfold bind at 1. unfold get_active_alerts at 1, db_conn at 1,
    select_active_alerts at 1.
  set (active := order_by_triggered_desc (filter Alert.is_active (alerts w))).
  unfold bind at 1.
  destruct (summarize_all rt active (sensors w) w) as [w1 [xs | e]] eqn:E;
    [| discriminate].
  unfold bind, utcnow, ret. intros H. injection H as <- <-.
  destruct (summarize_all_returns _ _ _ _ _ _ E)
    as (Ht & Hc & Hid & Hcount & Hcur).
  cbn [DashboardData.total_sensors DashboardData.sensors DashboardData.alerts
       DashboardData.active_alerts DashboardData.critical_alerts
       DashboardData.generated_at].
  assert (Hlen : List.length active
                 = List.length (filter Alert.is_active (alerts w)))
    by apply Permutation_length, order_by_triggered_desc_perm.
  assert (Hcrit : List.length (filter is_critical active)
                  = List.length (filter is_critical
                                   (filter Alert.is_active (alerts w)))).
  { unfold active. rewrite filter_order_by_triggered_desc.
    apply Permutation_length, order_by_triggered_desc_perm. }
  split; [exact Ht |].
  split; [reflexivity |].
  split; [exact Hid |].
  split; [exact Hcur |].
  split; [reflexivity |].
  split; [exact Hlen |].
  split; [exact Hcrit |].
  split; [rewrite Hcrit, Hlen; apply filter_length_le |].
  split; [rewrite Hc; reflexivity |].
  intros (Hnd & _ & _ & _ & _ & Hfk).
  rewrite Hcount.
  rewrite <- (alert_count_sum (map Sensor.id (sensors w)) active Hnd).
  - rewrite map_map. reflexivity.
  - apply Forall_forall. intros a Ha.
    apply (Permutation_in _ (order_by_triggered_desc_perm _)) in Ha.
    apply filter_In in Ha. rewrite Forall_forall in Hfk.
    apply (exists_key_In Sensor.id). apply (Hfk a), Ha.
Qed.

(** One sensor, one reading of 50, one active critical alert. *)
Lemma get_dashboard_data_counts_witness :
  exists d,
    snd (get_dashboard_data Demo.runtime Demo.one_alert) = Ok d
    /\ DashboardData.total_sensors d = 1
    /\ DashboardData.active_alerts d = 1
    /\ list_sum (map Summary.alert_count (DashboardData.sensors d)) = 1.
Proof.
  set (p := get_dashboard_data Demo.runtime Demo.one_alert).
  set (d := match snd p with
            | Ok d => d
            | Raise _ => DashboardData.mk 0 0 0 0 [] []
            end).
  assert (S : schema_ok Demo.one_alert).
  { apply (batch_log_schema Demo.runtime
             [{| entry_sensor_id := Demo.uuid 0; entry_value := 50%float;
                 entry_quality := Some "good" |}] Demo.one_sensor).
    apply add_sensor_schema. repeat split; constructor. }
  destruct (get_dashboard_data_counts Demo.runtime Demo.one_alert (fst p) d
              eq_refl) as (_ & Hn & _ & _ & _ & Ha & _ & _ & _ & Hsum).
  exists d. split; [reflexivity |].
  split; [exact Hn |]. split; [exact Ha |].
  rewrite (Hsum S). exact Ha.
Defined.

(** ** Threshold checks without a reading *)

(** [check_thresholds] looks at the readings before it looks the sensor
    up: for a sensor without a reading, and so, when the database meets
    the schema, for an id that no sensor has, it returns [None], raises
    nothing and reads neither the clock nor a uuid. *)
Theorem check_thresholds_no_reading rt w sid :
  ((forall r, In r (readings w) -> Reading.sensor_id r <> sid) ->
   check_thresholds rt sid w = (w, Ok None))
  /\ (schema_ok w -> sensor_exists sid w = false ->
      check_thresholds rt sid w = (w, Ok None)).
Proof.
  assert (K : (forall r, In r (readings w) -> Reading.sensor_id r <> sid) ->
              check_thresholds rt sid w = (w, Ok None)).
  { intros H. unfold check_thresholds, get_current.
    unfold bind at 1. unfold db_conn at 1, select_current at 1.
    destruct (latest_row _) as [r |] eqn:E; [| reflexivity].
    apply latest_row_In, filter_In in E. destruct E as [Hin Hsid].
    apply String.eqb_eq in Hsid. destruct (H r Hin Hsid). }
  split; [exact K |].
  intros (_ & _ & _ & _ & Hrows & _) Hex. apply K.
  intros r Hin Hsid. rewrite Forall_forall in Hrows.
  destruct (Hrows r Hin) as (_ & _ & Hfk).
  rewrite Hsid in Hfk. congruence.
Qed.

Lemma check_thresholds_no_reading_witness :
  check_thresholds Demo.runtime (Demo.uuid 0) Demo.one_sensor
  = (Demo.one_sensor, Ok None)
  /\ check_thresholds Demo.runtime "nowhere" Demo.with_error
     = (Demo.with_error, Ok None).
Proof.
  split.
  - apply (proj1 (check_thresholds_no_reading Demo.runtime Demo.one_sensor
                    (Demo.uuid 0))).
    intros r [].
  - apply (proj2 (check_thresholds_no_reading Demo.runtime Demo.with_error
                    "nowhere")).
    + exact Demo_schema_ok_with_error.
    + reflexivity.
Defined.

(** ** Readings in the order of time *)

Lemma check_thresholds_clock rt sid w :
  clock_reads w <= clock_reads (fst (check_thresholds rt sid w)).
Proof.
  unfold check_thresholds, get_current.
  unfold bind at 1. unfold db_conn at 1, select_current at 1.
  destruct (latest_row _) as [r |]; [| simpl; lia].
  unfold bind at 1.
  pose proof (get_sensor_world sid w) as Hw.
  destruct (get_sensor sid w) as [w1 [s | e]]; simpl in Hw; subst w1;
    [| simpl; lia].
  assert (K : forall msg,
    clock_reads w
    <= clock_reads (fst (bind (_create_alert rt sid THRESHOLD CRITICAL msg)
                              (fun a => ret (Some a)) w))).
  { intros msg. unfold bind. rewrite _create_alert_run. cbv zeta.
    destruct (alert_exists _ w); [simpl; lia |].
    destruct (sensor_exists sid w); simpl; lia. }
  destruct (F64.lt _ _); [apply K |].
  destruct (F64.gt _ _); [apply K | simpl; lia].
Qed.

(** Whatever happens, [log_reading] leaves the readings as they were or
    appends one reading stamped with the time it read. *)
Lemma log_reading_clock_readings rt sid value quality w :
  clock_reads w <= clock_reads (fst (log_reading rt sid value quality w))
  /\ (readings (fst (log_reading rt sid value quality w)) = readings w
      \/ exists r,
           readings (fst (log_reading rt sid value quality w))
           = readings w ++ [r]
           /\ Reading.timestamp r = now_at rt (clock_reads w)).
Proof.
  rewrite log_reading_run.
  destruct (find _ (sensors w)) as [s |]; [| simpl; split; [lia | auto]].
  destruct (ReadingQuality_of_string quality) as [q |];
    [| simpl; split; [lia | auto]].
  cbv zeta.
  destruct (is_nan value); [simpl; split; [lia | auto] |].
  destruct (is_nan (value + _)); [simpl; split; [lia | auto] |].
  destruct (reading_exists _ w); [simpl; split; [lia | auto] |].
  set (r := Reading.as_stored
              (new_reading rt w sid value (Sensor.calibration_offset s) q)).
  pose proof (check_thresholds_effect rt sid (with_reading w r))
    as (_ & Hr & _).
  pose proof (check_thresholds_clock rt sid (with_reading w r)) as Hc.
  unfold bind. destruct (check_thresholds _ _ _) as [w1 [o | e]];
    simpl in *; (split; [lia |]); right; exists r; auto.
Qed.

Lemma StronglySorted_snoc {A} (R : A -> A -> Prop) (l : list A) (x : A) :
  StronglySorted R l -> Forall (fun y => R y x) l ->
  StronglySorted R (l ++ [x]).
Proof.
  induction 1 as [| y l Hs IH Hy]; intros Hall; simpl.
  - constructor; constructor.
  - constructor; [apply IH, (Forall_inv_tail Hall) |].
    apply Forall_app. split; [exact Hy |].
    constructor; [apply (Forall_inv Hall) | constructor].
Qed.

Lemma StronglySorted_filter {A} (R : A -> A -> Prop) (p : A -> bool)
    (l : list A) :
  StronglySorted R l -> StronglySorted R (filter p l).
Proof.
  induction 1 as [| y l Hs IH Hy]; simpl; [constructor |].
  destruct (p y); [| exact IH].
  constructor; [exact IH |].
  rewrite Forall_forall in Hy |- *. intros x Hx.
  apply Hy. apply filter_In in Hx. tauto.
Qed.

(** ORDER BY on rows that are in order already changes nothing. *)
Lemma order_by_timestamp_sorted_id l :
  StronglySorted not_after l -> order_by_timestamp l = l.
Proof.
  induction 1 as [| y l Hs IH Hy]; simpl; [reflexivity |].
  rewrite IH. apply insert_by_timestamp_front, Hy.
Qed.

Lemma log_reading_time_order rt sid value quality w :
  in_time_order rt w ->
  in_time_order rt (fst (log_reading rt sid value quality w)).
Proof.
  intros [[Hmono Hpast] Hsorted].
  destruct (log_reading_clock_readings rt sid value quality w)
    as [Hc Hr].
  set (w' := fst (log_reading rt sid value quality w)) in *.
  pose proof (Hmono _ _ Hc) as Hnow.
  destruct Hr as [Hr | (r & Hr & Hts)]; unfold in_time_order, clock_steady;
    rewrite Hr.
  - split; [split; [exact Hmono |] | exact Hsorted].
    intros x Hx. specialize (Hpast x Hx). lia.
  - split; [split; [exact Hmono |] |].
    + intros x Hx. apply in_app_or in Hx.
      destruct Hx as [Hx | [<- | []]]; [specialize (Hpast x Hx) |]; lia.
    + apply StronglySorted_snoc; [exact Hsorted |].
      apply Forall_forall. intros x Hx. unfold not_after.
      specialize (Hpast x Hx). lia.
Qed.

Lemma batch_log_time_order rt entries w :
  in_time_order rt w -> in_time_order rt (fst (batch_log rt entries w)).
Proof.
  revert w. induction entries as [| e entries IH]; intros w H;
    [exact H |].
  simpl. unfold bind at 1.
  pose proof (log_reading_time_order rt (entry_sensor_id e) (entry_value e)
                match entry_quality e with Some q => q | None => "good" end
                w H) as H1.
  destruct (log_reading _ _ _ _ _) as [w1 [r | x]]; simpl in H1;
    [| exact H1].
  unfold bind. specialize (IH w1 H1).
  destruct (batch_log rt entries w1) as [w2 [rs | x]]; exact IH.
Qed.

(** With a clock that never goes back, ingestion keeps the readings
    stored in the order of their timestamps: [log_reading] and
    [batch_log] keep that order, whether they return or raise, and
    [get_history], when its window starts at a datetime, then returns the
    rows it selects in the order in which they were stored; when the
    window starts outside the range of [datetime] it raises
    [OverflowError]. *)
Theorem readings_in_time_order rt w :
  in_time_order rt w ->
  (forall sid value quality,
     in_time_order rt (fst (log_reading rt sid value quality w)))
  /\ (forall entries, in_time_order rt (fst (batch_log rt entries w)))
  /\ (forall sid hours,
        in_datetime_range (now_at rt (clock_reads w)) ->
        (in_datetime_range (history_start rt w hours) ->
         snd (get_history rt sid hours None w)
         = Ok (filter
                 (fun r =>
                    (Reading.sensor_id r =? sid)
                    && (history_start rt w hours <=? Reading.timestamp r)%Z)
                 (readings w)))
        /\ (~ in_datetime_range (history_start rt w hours) ->
            exists msg,
              snd (get_history rt sid hours None w)
              = Raise (OverflowError msg))).
Proof.
  intros H. split; [| split].
  - intros. apply log_reading_time_order, H.
  - intros. apply batch_log_time_order, H.
  - intros sid hours Hnow. rewrite get_history_run. split.
    + intros Hstart. rewrite (minus_timedelta_ok _ _ _ Hnow Hstart).
      cbn [snd].
      rewrite order_by_timestamp_sorted_id
        by apply StronglySorted_filter, H.
      f_equal. apply filter_ext. intros r. apply andb_true_r.
    + intros Hstart.
      destruct (minus_timedelta_overflow _ _ _ Hstart) as [msg ->].
      exists msg. reflexivity.
Qed.

Lemma readings_in_time_order_witness :
  in_time_order Demo.runtime Demo.one_alert
  /\ in_time_order Demo.runtime
       (fst (batch_log Demo.runtime (map Demo.entry [10; 20]%float)
               Demo.one_alert))
  /\ snd (get_history Demo.runtime (Demo.uuid 0) 1 None Demo.one_alert)
     = Ok [Reading.mk (Demo.uuid 1) (Demo.uuid 0) 50%float
                      (50 + 0)%float Demo.t0 GOOD].
Proof.
  assert (H : in_time_order Demo.runtime Demo.one_alert).
  { split; [exact Demo_clock_steady_one_alert |].
    change (readings Demo.one_alert)
      with [Reading.mk (Demo.uuid 1) (Demo.uuid 0) 50%float
                       (50 + 0)%float Demo.t0 GOOD].
    constructor; constructor. }
  split; [exact H |].
  split.
  - apply (proj1 (proj2 (readings_in_time_order Demo.runtime Demo.one_alert
                           H))).
  - assert (Hnow : in_datetime_range
                     (now_at Demo.runtime (clock_reads Demo.one_alert)))
      by (apply Demo_now_in_range; vm_compute; lia).
    rewrite (proj1 (proj2 (proj2 (readings_in_time_order Demo.runtime
                                    Demo.one_alert H))
                      (Demo.uuid 0) 1%Z Hnow)).
    + reflexivity.
    + unfold in_datetime_range, history_start, DATETIME_MAX.
      vm_compute. split; discriminate.
Defined.

(** ** Enumerations and defaults *)

(** The value of a member, stored in a row, is read back as that member,
    and a string is accepted only when it is the value of the member it
    gives: this is what lets [from_row] rebuild the sensor type and the
    quality from the text columns. *)
Theorem enum_round_trip :
  (forall t, SensorType_of_string (SensorType_value t) = Some t)
  /\ (forall s t, SensorType_of_string s = Some t -> SensorType_value t = s)
  /\ (forall q, ReadingQuality_of_string (ReadingQuality_value q) = Some q)
  /\ (forall s q, ReadingQuality_of_string s = Some q ->
                  ReadingQuality_value q = s).
Proof.
  split; [intros []; reflexivity |].
  split.
  { intros s t. unfold SensorType_of_string.
    repeat match goal with
    | |- context [s =? ?c] => destruct (String.eqb_spec s c) as [-> | _]
    end; intros H; try discriminate; injection H as <-; reflexivity. }
  split; [intros []; reflexivity |].
  intros s q. unfold ReadingQuality_of_string.
  repeat match goal with
  | |- context [s =? ?c] => destruct (String.eqb_spec s c) as [-> | _]
  end; intros H; try discriminate; injection H as <-; reflexivity.
Qed.

Lemma enum_round_trip_witness :
  SensorType_value CO2 = "co2" /\ ReadingQuality_value DEGRADED = "degraded".
Proof.
  destruct enum_round_trip as (_ & H1 & _ & H2).
  split; [apply H1 | apply H2]; reflexivity.
Defined.

(** [DEFAULT_THRESHOLDS] has a range for every sensor type: the fallback
    range that [add_sensor] passes to [dict.get] is never used, so a
    sensor registered without bounds gets the range of its type from the
    table, whatever the fallback. *)
Theorem default_range_never_fallback (stype : SensorType)
    (fallback : float * float) :
  In (stype, dict_get DEFAULT_THRESHOLDS stype fallback) DEFAULT_THRESHOLDS.
Proof.
  destruct stype; simpl; auto 10.
Qed.
